(** * tokendito/user.py: a shallow embedding and its verified properties

    The helper module of tokendito (configuration handling, secret
    masking, SAML parsing, role selection, MFA description and ini
    persistence) is embedded function by function.  Python [str] values
    are Rocq strings (byte strings, read as the UTF-8 encoding of the
    text); [sys.exit(n)] and uncaught exceptions are explicit outcomes;
    the process-wide list [mask_items] is threaded as state.  What the
    module takes from libraries ([str] methods, [re], [configparser],
    [urllib.parse], the base64 and UTF-8 codecs) is modelled on ASCII text
    beside the function that uses it; what it takes from the outside world
    (the parsed page, the network, the file system, the user's answers) is
    an explicit argument.

    Part I holds the definitions, Part II the lemmas and theorems. *)

From Stdlib Require Import String Ascii List Bool Arith ZArith DecimalString Lia.
Import ListNotations.

Local Open Scope string_scope.
Local Open Scope list_scope.

(* ===================================================================== *)
(** * Part I: definitions                                                *)
(* ===================================================================== *)

(** ** Python string primitives used by the module *)

Module PyStr.

(** [s.startswith(p)] *)
Fixpoint startswith (s p : string) : bool :=
  match p, s with
  | EmptyString, _ => true
  | String _ _, EmptyString => false
  | String a p', String b s' => Ascii.eqb a b && startswith s' p'
  end.

(** [old in s] *)
Fixpoint contains (old s : string) : bool :=
  startswith s old ||
  match s with
  | EmptyString => false
  | String _ s' => contains old s'
  end.

(** [c in s] for a single character *)
Fixpoint has_char (c : ascii) (s : string) : bool :=
  match s with
  | EmptyString => false
  | String a s' => Ascii.eqb a c || has_char c s'
  end.

(** Scan of [s.replace(old, new)] for a non-empty [old]: the leftmost
    occurrence is replaced, the scan resumes after it.  [skip] counts the
    characters of a replaced occurrence that are still to be dropped. *)
Fixpoint replace_scan (old new : string) (skip : nat) (s : string) : string :=
  match s with
  | EmptyString => EmptyString
  | String c s' =>
      match skip with
      | S k => replace_scan old new k s'
      | O =>
          if startswith s old
          then new ++ replace_scan old new (String.length old - 1) s'
          else String c (replace_scan old new 0 s')
      end
  end.

(** [s.replace("", new)]: [new] goes before every character and at the
    end. *)
Fixpoint interleave (new s : string) : string :=
  match s with
  | EmptyString => new
  | String c s' => new ++ String c (interleave new s')
  end.

(** [s.replace(old, new)] *)
Definition replace (s old new : string) : string :=
  match old with
  | EmptyString => interleave new s
  | String _ _ => replace_scan old new 0 s
  end.

(** [s[n:]] *)
Fixpoint drop (n : nat) (s : string) : string :=
  match n, s with
  | O, _ => s
  | S _, EmptyString => EmptyString
  | S k, String _ s' => drop k s'
  end.

(** Accumulating scan of [s.split(sep)] for a one-character separator;
    [cur] is the current field, reversed. *)
Fixpoint split_scan (sep : ascii) (cur : list ascii) (s : string) : list string :=
  match s with
  | EmptyString => [string_of_list_ascii (rev cur)]
  | String c s' =>
      if Ascii.eqb c sep
      then string_of_list_ascii (rev cur) :: split_scan sep [] s'
      else split_scan sep (c :: cur) s'
  end.

(** [s.split(sep)] for a one-character [sep]: never empty. *)
Definition split (sep : ascii) (s : string) : list string :=
  split_scan sep [] s.

(** The one character the dot of a pattern does not match. *)
Definition newline : ascii := "010"%char.

(** [str.lower()] on the ASCII letters; other bytes are kept. *)
Definition lower_char (c : ascii) : ascii :=
  let n := nat_of_ascii c in
  if Nat.leb 65 n && Nat.leb n 90 then ascii_of_nat (n + 32) else c.

Fixpoint lower (s : string) : string :=
  match s with
  | EmptyString => EmptyString
  | String c s' => String (lower_char c) (lower s')
  end.

End PyStr.

(** ** Outcomes of a call: a value, [sys.exit(code)], or an uncaught
    exception *)

Inductive exn : Type :=
| AttributeError
| IndexError
| KeyError
| ValueError
| EOFError
| UnicodeEncodeError
| UnicodeDecodeError
| BinasciiError
| DuplicateSectionError
| NoSectionError.

Inductive outcome (A : Type) : Type :=
| Returned (a : A)
| Exited (code : nat)
| Raised (e : exn).

Arguments Returned {A} a.
Arguments Exited {A} code.
Arguments Raised {A} e.

Definition bind {A B : Type} (m : outcome A) (k : A -> outcome B) : outcome B :=
  match m with
  | Returned a => k a
  | Exited c => Exited c
  | Raised e => Raised e
  end.

Notation "x <- m ;; k" := (bind m (fun x => k))
  (at level 61, m at next level, right associativity).

(** [l[i]] for a position counted from the start. *)
Definition item {A : Type} (l : list A) (i : nat) : outcome A :=
  match nth_error l i with
  | Some x => Returned x
  | None => Raised IndexError
  end.

(** ** Secret masking: [mask_items], [MaskLoggerSecret.filter],
    [add_sensitive_value_to_be_masked] *)

Module Masking.
Import PyStr.

(** The values that reach the registry: configuration strings, and the
    non-string values [str()] is applied to by the filter. *)
Inductive pyval : Type :=
| VStr (s : string)
| VBool (b : bool)
| VNone.

(** [str(v)] *)
Definition py_str (v : pyval) : string :=
  match v with
  | VStr s => s
  | VBool true => "True"
  | VBool false => "False"
  | VNone => "None"
  end.

(** The module-level list [mask_items]. *)
Definition registry : Type := list pyval.

Definition mask : string := "*****".

Record LogRecord : Type := { msg : string }.

(** One iteration of the loop of [filter]. *)
Definition mask_one (m : string) (secret : pyval) : string :=
  replace m (py_str secret) mask.

(** [MaskLoggerSecret.filter(record)]: the record is rewritten in place
    and kept ([True]). *)
Definition filter (mask_items : registry) (record : LogRecord) : bool * LogRecord :=
  (true, {| msg := fold_left mask_one mask_items (msg record) |}).

Definition sensitive_keys : list string :=
  ["password"; "mfa_response"; "sessionToken"].

(** [key is None or key in sensitive_keys] *)
Definition is_sensitive (key : option string) : bool :=
  match key with
  | None => true
  | Some k => existsb (String.eqb k) sensitive_keys
  end.

(** [add_sensitive_value_to_be_masked(value, key)] *)
Definition add_sensitive_value_to_be_masked
    (value : pyval) (key : option string) (mask_items : registry) : registry :=
  if is_sensitive key then mask_items ++ [value] else mask_items.

(** *** The registrations made by each configuration source *)

Fixpoint upto_newline (s : string) : string :=
  match s with
  | EmptyString => EmptyString
  | String c s' => if Ascii.eqb c newline then EmptyString else String c (upto_newline s')
  end.

(** Groups 1 and 2 of the key pattern of [process_ini_file] and
    [process_arguments] (anchored at the start: a lazy group, an underscore,
    a greedy group): the text before the first underscore and the rest of
    that line; the dot of the pattern stops at a newline. *)
Fixpoint match_key_scan (cur : list ascii) (key : string) : option (string * string) :=
  match key with
  | EmptyString => None
  | String c key' =>
      if Ascii.eqb c "_" then Some (string_of_list_ascii (rev cur), upto_newline key')
      else if Ascii.eqb c newline then None
      else match_key_scan (c :: cur) key'
  end.

Definition match_key (key : string) : option (string * string) :=
  match_key_scan [] key.

(** Groups 2 and 3 of the pattern of [process_environment]: the prefix
    [tokendito], an underscore, then the key pattern above. *)
Definition match_env (key : string) : option (string * string) :=
  if startswith key "tokendito_" then match_key (drop 10 key) else None.

(** Truth value of a Python value, [if val:]. *)
Definition truthy (v : pyval) : bool :=
  match v with
  | VStr EmptyString => false
  | VStr _ => true
  | VBool b => b
  | VNone => false
  end.

(** [process_ini_file]: the calls of [add_sensitive_value_to_be_masked] made
    over [ini.items(profile)]. *)
Definition process_ini_file_masks (items : list (string * string))
  : list (pyval * option string) :=
  flat_map (fun kv =>
    match match_key (lower (fst kv)) with
    | Some (_, element) => [(VStr (snd kv), Some element)]
    | None => []
    end) items.

(** [process_arguments]: the calls made over [vars(args).items()];
    [submodules] is the result of [get_submodule_names()]. *)
Definition process_arguments_masks (submodules : list string)
    (args : list (string * pyval)) : list (pyval * option string) :=
  flat_map (fun kv =>
    match match_key (lower (fst kv)) with
    | Some (name, element) =>
        if existsb (String.eqb name) submodules && truthy (snd kv)
        then [(snd kv, Some element)] else []
    | None => []
    end) args.

(** [process_environment]: the calls made over [os.environ.items()]. *)
Definition process_environment_masks (environ : list (string * string))
  : list (pyval * option string) :=
  flat_map (fun kv =>
    match match_env (lower (fst kv)) with
    | Some (_, element) =>
        if truthy (VStr (snd kv)) then [(VStr (snd kv), Some element)] else []
    | None => []
    end) environ.

(** [process_interactive_input]: the password read by [get_password()] is
    registered without a key. *)
Definition process_interactive_input_masks (password : string)
  : list (pyval * option string) :=
  [(VStr password, None)].

(** *** Vocabulary of the statements and sample data *)

(** A run of calls of [add_sensitive_value_to_be_masked], in order. *)
Definition register_all (calls : list (pyval * option string)) (mask_items : registry)
  : registry :=
  fold_left (fun r c => add_sensitive_value_to_be_masked (fst c) (snd c) r) calls mask_items.

(** The message a record carries after the filter. *)
Definition logged (mask_items : registry) (m : string) : string :=
  msg (snd (filter mask_items {| msg := m |})).

(** A value is maskable when it is not empty and holds no star, the
    character the mask is made of. *)
Definition star_free (s : string) : Prop := has_char "*" s = false.

End Masking.

(** ** Python dictionaries: insertion-ordered, one binding per key *)

Module PyDict.

Definition dict (V : Type) : Type := list (string * V).

(** [d.get(k)] *)
Fixpoint lookup {V : Type} (k : string) (d : dict V) : option V :=
  match d with
  | [] => None
  | (k', v) :: d' => if String.eqb k k' then Some v else lookup k d'
  end.

(** [k in d] *)
Definition mem {V : Type} (k : string) (d : dict V) : bool :=
  match lookup k d with Some _ => true | None => false end.

(** [d[k] = v]: an existing key keeps its place, a new key goes last. *)
Fixpoint assign {V : Type} (k : string) (v : V) (d : dict V) : dict V :=
  match d with
  | [] => [(k, v)]
  | (k', v') :: d' =>
      if String.eqb k k' then (k', v) :: d' else (k', v') :: assign k v d'
  end.

(** [{key(i): val(i) for i in l}], and [dict(...)] over pairs. *)
Definition of_pairs {V : Type} (l : list (string * V)) : dict V :=
  fold_left (fun d kv => assign (fst kv) (snd kv) d) l [].

End PyDict.

(** ** The ini files: [configparser.RawConfigParser] and [update_ini] *)

Module Ini.
Import PyStr PyDict.

(** The state of a [RawConfigParser]: the options of the default section
    and the named sections, in file order.  Option names are stored as
    [optionxform] returns them. *)
Record parser : Type := {
  defaults : dict string;
  sections : dict (dict string)
}.

Definition default_section : string := "DEFAULT".

(** A fresh [RawConfigParser()]. *)
Definition empty : parser := {| defaults := []; sections := [] |}.

Definition optionxform (optionstr : string) : string := lower optionstr.

(** [ini.has_section(section)]: the default section is not acknowledged. *)
Definition has_section (ini : parser) (section : string) : bool :=
  mem section (sections ini).

(** [ini.add_section(section)]: [ValueError] for the default section's
    name, [DuplicateSectionError] for a section that exists. *)
Definition add_section (ini : parser) (section : string) : outcome parser :=
  if String.eqb section default_section then Raised ValueError
  else if mem section (sections ini) then Raised DuplicateSectionError
  else Returned {| defaults := defaults ini;
                   sections := sections ini ++ [(section, [])] |}.

(** [ini.set(section, option, value)]: an empty section name and the
    default section's name both address the default options. *)
Definition set (ini : parser) (section key value : string) : outcome parser :=
  if String.eqb section "" || String.eqb section default_section
  then Returned {| defaults := assign (optionxform key) value (defaults ini);
                   sections := sections ini |}
  else match lookup section (sections ini) with
       | None => Raised NoSectionError
       | Some sectdict =>
           Returned {| defaults := defaults ini;
                       sections := assign section
                                     (assign (optionxform key) value sectdict)
                                     (sections ini) |}
       end.

(** The loop [for key, value in kwargs.items(): ini.set(profile, key, value)]. *)
Fixpoint set_all (ini : parser) (profile : string) (kwargs : list (string * string))
  : outcome parser :=
  match kwargs with
  | [] => Returned ini
  | (key, value) :: rest =>
      ini' <- set ini profile key value ;;
      set_all ini' profile rest
  end.

(** [ini.write(file)]: the default section first when it has options, then
    every section; a newline inside a value is followed by a tab. *)
Definition nl : string := String "010"%char "".

Definition write_option (kv : string * string) : string :=
  fst kv ++ " = " ++ replace (snd kv) nl (nl ++ String "009"%char "") ++ nl.

Definition write_section (name : string) (items : dict string) : string :=
  "[" ++ name ++ "]" ++ nl ++ String.concat "" (map write_option items) ++ nl.

Definition write (ini : parser) : string :=
  (match defaults ini with
   | [] => ""
   | _ :: _ => write_section default_section (defaults ini)
   end) ++
  String.concat "" (map (fun s => write_section (fst s) (snd s)) (sections ini)).

(** What the file system does during one call: whether the directory can be
    made, what [ini.read] finds ([None] when it raises; a missing file
    reads as the empty parser), whether the file can be written.  When the
    read or the write raises, [read_error] and [write_error] tell the
    exception: [None] for a [configparser.Error] or an [OSError], which
    [update_ini] handles, [Some e] for any other, which it does not (a
    [UnicodeDecodeError] for a file that is no text in the configured
    encoding, a [UnicodeEncodeError] for a value that encoding lacks). *)
Record world : Type := {
  directory_ok : bool;
  read_result : option parser;
  read_error : option exn;
  write_ok : bool;
  write_error : option exn
}.

(** The end of a call whose read or write raised. *)
Definition failed {A : Type} (error : option exn) : outcome A :=
  match error with
  | Some e => Raised e
  | None => Exited 1
  end.

(** [update_ini(profile, ini_file, **kwargs)]: the parser returned, whose
    [write] is the new content of the file. *)
Definition update_ini (w : world) (profile : string) (kwargs : list (string * string))
  : outcome parser :=
  if negb (directory_ok w) then Exited 1 else
  match read_result w with
  | None => failed (read_error w)
  | Some ini =>
      ini1 <- (if has_section ini profile then Returned ini
               else add_section ini profile) ;;
      ini2 <- set_all ini1 profile kwargs ;;
      if write_ok w then Returned ini2 else failed (write_error w)
  end.

(** *** Vocabulary of the statements and sample data *)

(** The options of a named section of the written file. *)
Definition section_of (ini : parser) (name : string) : option (dict string) :=
  lookup name (sections ini).

(** The value [kwargs] supplies for an option name as stored: the last
    pair whose key has that stored form. *)
Definition supplied (kwargs : list (string * string)) (name : string) : option string :=
  lookup name (rev (map (fun kv => (optionxform (fst kv), snd kv)) kwargs)).

(** The options a section held before the call; none when it is new. *)
Definition previous (ini : parser) (profile : string) : dict string :=
  match section_of ini profile with
  | Some opts => opts
  | None => []
  end.

(** The file of the specification's example: one unrelated section. *)
Definition other_file : parser :=
  {| defaults := []; sections := [("other", [("foo", "bar")])] |}.

Definition fine (ini : parser) : world :=
  {| directory_ok := true; read_result := Some ini; read_error := None;
     write_ok := true; write_error := None |}.

Definition work_keys : list (string * string) :=
  [("aws_access_key_id", "AKIA"); ("aws_secret_access_key", "s3cr3t");
   ("aws_session_token", "tok")].

End Ini.

(** ** Role selection: [get_account_aliases], [prompt_role_choices],
    [select_role_arn] *)

Module Roles.
Import PyStr PyDict.

(** One entry of [authenticated_aps]: the role ARNs found for an app, its
    label, the decoded assertion and the page it came in. *)
Record app : Type := {
  roles : list string;
  label : string;
  saml : string;
  saml_response_string : string
}.

(** [config.aws]: the two settings role selection reads, [None] when unset. *)
Record aws_config : Type := {
  profile : option string;
  role_arn : option string
}.

(** What lies outside the module during the alias lookup.  [find_form page]
    is [BeautifulSoup(page).find("form")] followed by [.get("action")]:
    [None] without a form, [Some None] for a form without the attribute.
    [post url saml_xml] is the text of the response to the posted
    assertion, [None] when the request raises.  [text_nodes page] lists the
    strings of the parsed page in document order. *)
Record network : Type := {
  find_form : string -> option (option string);
  post : string -> string -> option string;
  text_nodes : string -> list string
}.

(** [s.strip(chars)] for a set of characters. *)
Fixpoint lstrip (chars s : string) : string :=
  match s with
  | EmptyString => EmptyString
  | String c s' => if has_char c chars then lstrip chars s' else s
  end.

Definition reverse (s : string) : string :=
  string_of_list_ascii (rev (list_ascii_of_string s)).

Definition strip (chars s : string) : string :=
  reverse (lstrip chars (reverse (lstrip chars s))).

(** One entry of the alias table, from a string of the page that holds the
    marker: the last blank-separated word without its parentheses is the
    account, the second word the alias. *)
Definition alias_entry (i : string) : outcome (string * string) :=
  let words := split " " i in
  alias <- item words 1 ;;
  Returned (strip "()" (last words ""), alias).

Fixpoint alias_entries (names : list string) : outcome (list (string * string)) :=
  match names with
  | [] => Returned []
  | i :: rest =>
      e <- alias_entry i ;;
      es <- alias_entries rest ;;
      Returned (e :: es)
  end.

(** [str(action)] for an attribute that may be missing. *)
Definition str_of (action : option string) : string :=
  match action with
  | Some a => a
  | None => "None"
  end.

(** [get_account_aliases(saml_xml, saml_response_string)]: [None] is the
    Python [None]. *)
Definition get_account_aliases (net : network) (saml_xml page : string)
  : outcome (option (dict string)) :=
  match find_form net page with
  | None => Raised AttributeError
  | Some action =>
      let url := str_of action in
      match post net url saml_xml with
      | None => Exited 1
      | Some text =>
          if negb (contains "Account: " text) then Returned None
          else
            let account_names := List.filter (contains "Account:") (text_nodes net text) in
            es <- alias_entries account_names ;;
            Returned (Some (of_pairs es))
      end
  end.

(** A row of the menu: label, alias or account, role, url. *)
Definition row : Type := (string * string * string * string)%type.

(** [role.split(":")[4]] *)
Definition account_of (role : string) : outcome string :=
  item (split ":" role) 4.

(** The inner loop of [prompt_role_choices] for one app. *)
Fixpoint app_rows (alias_table : option (dict string)) (lbl url : string)
    (rs : list string) : outcome (list row) :=
  match rs with
  | [] => Returned []
  | role :: rest =>
      account <- account_of role ;;
      alias <- match alias_table with
               | Some ((_ :: _) as table) =>
                   match lookup account table with
                   | Some a => Returned a
                   | None => Raised KeyError
                   end
               | _ => Returned account
               end ;;
      more <- app_rows alias_table lbl url rest ;;
      Returned ((lbl, alias, role, url) :: more)
  end.

(** The outer loop: one alias lookup per app. *)
Fixpoint build_rows (net : network) (aut_aps : dict app) : outcome (list row) :=
  match aut_aps with
  | [] => Returned []
  | (url, a) :: rest =>
      alias_table <- get_account_aliases net (saml a) (saml_response_string a) ;;
      here <- app_rows alias_table (label a) url (roles a) ;;
      more <- build_rows net rest ;;
      Returned (here ++ more)
  end.

(** Order of the tuples under [sorted]: component by component. *)
Definition lex (c1 c2 : comparison) : comparison :=
  match c1 with Eq => c2 | _ => c1 end.

Definition row_compare (x y : row) : comparison :=
  let '(l1, a1, r1, u1) := x in
  let '(l2, a2, r2, u2) := y in
  lex (String.compare l1 l2)
    (lex (String.compare a1 a2) (lex (String.compare r1 r2) (String.compare u1 u2))).

Definition row_leb (x y : row) : bool :=
  match row_compare x y with Gt => false | _ => true end.

Fixpoint insert_row (x : row) (l : list row) : list row :=
  match l with
  | [] => [x]
  | y :: l' => if row_leb x y then x :: l else y :: insert_row x l'
  end.

(** [sorted(aliases_mapping)] *)
Definition sorted (l : list row) : list row := fold_right insert_row [] l.

(** [collect_integer(valid_range)]: the prompt asks again until an answer
    is one of the choices; [answers] are the integers typed, and the prompt
    raises once the input is exhausted. *)
Definition collect_integer (valid_range : nat) (answers : list nat) : outcome nat :=
  match List.find (fun a => Nat.ltb a valid_range) answers with
  | Some a => Returned a
  | None => Raised EOFError
  end.

(** [str(i)] *)
Definition str_nat (i : nat) : string := NilEmpty.string_of_uint (Nat.to_uint i).

Fixpoint spaces (n : nat) : string :=
  match n with
  | O => EmptyString
  | S k => String " " (spaces k)
  end.

(** The line printed for row [i]: the index, padded to the width of the
    longest index, the alias column, padded to the longest alias, and the
    role.  (Widths count bytes, which is the number of characters on ASCII
    text.) *)
Definition menu_line (longest_index longest_alias i : nat) (r : row) : string :=
  let '(_, alias, role, _) := r in
  "[bold][" ++ str_nat i ++ "][/bold] "
  ++ spaces (longest_index - String.length (str_nat i))
  ++ "[cyan]" ++ (alias ++ spaces (longest_alias - String.length alias))
  ++ "[/cyan]  [blue]" ++ role ++ "[/blue]".

(** The printing loop: a heading whenever the label changes, then the
    line of the row. *)
Fixpoint menu_lines (longest_index longest_alias : nat) (print_label : string)
    (i : nat) (rows : list row) : list string :=
  match rows with
  | [] => []
  | r :: rest =>
      let '(lbl, _, _, _) := r in
      (if String.eqb print_label lbl then []
       else [(String newline "[green]" ++ lbl ++ ":[/green]")%string])
      ++ menu_line longest_index longest_alias i r
         :: menu_lines longest_index longest_alias lbl (S i) rest
  end.

(** What [prompt_role_choices] prints for the rows it has built, before
    it asks. *)
Definition menu (aliases_mapping : list row) : list string :=
  let longest_alias :=
    fold_right Nat.max 0 (map (fun r => String.length (snd (fst (fst r)))) aliases_mapping) in
  let longest_index := String.length (str_nat (length aliases_mapping)) in
  String newline "[bold]Please select one of the following[/bold]:"
  :: menu_lines longest_index longest_alias "" 0 (sorted aliases_mapping).

(** [prompt_role_choices(aut_aps)]: the role and URL it returns. *)
Definition prompt_role_choices (net : network) (aut_aps : dict app)
    (answers : list nat) : outcome (string * string) :=
  aliases_mapping <- build_rows net aut_aps ;;
  match aliases_mapping with
  | [] => Raised ValueError
  | _ :: _ =>
      let aliases_mapping := sorted aliases_mapping in
      user_input <- collect_integer (length aliases_mapping) answers ;;
      chosen <- item aliases_mapping user_input ;;
      let '(_, _, role, url) := chosen in
      Returned (role, url)
  end.

(** [role.split("/")[-1]] *)
Definition role_name (role : string) : string := last (split "/" role) "".

(** [l.count(x)] for a setting that may be [None]. *)
Definition count (x : option string) (l : list string) : nat :=
  match x with
  | Some s => length (List.filter (String.eqb s) l)
  | None => 0
  end.

(** The loop of [select_role_arn]; [None] when it ends with no role
    selected. *)
Fixpoint select_loop (cfg : aws_config) (authenticated_aps : dict app)
  : option (outcome (string * string)) :=
  match authenticated_aps with
  | [] => None
  | (url, a) :: rest =>
      let role_names := of_pairs (map (fun role => (role_name role, role)) (roles a)) in
      let names := map role_name (roles a) in
      if Nat.ltb 1 (count (profile cfg) names) then Some (Exited 2)
      else
        match match profile cfg with
              | Some p => lookup p role_names
              | None => None
              end with
        | Some role => Some (Returned (role, url))
        | None =>
            match role_arn cfg with
            | Some arn =>
                if existsb (String.eqb arn) (roles a)
                then Some (Returned (arn, url))
                else select_loop cfg rest
            | None => select_loop cfg rest
            end
        end
  end.

(** [select_role_arn(authenticated_aps)] *)
Definition select_role_arn (net : network) (cfg : aws_config)
    (authenticated_aps : dict app) (answers : list nat) : outcome (string * string) :=
  match select_loop cfg authenticated_aps with
  | Some result => result
  | None =>
      match role_arn cfg with
      | None => prompt_role_choices net authenticated_aps answers
      | Some _ => Exited 2
      end
  end.

(** *** Vocabulary of the statements and sample data *)

(** An app leaves the choice to the next one when none of its roles is
    named by the alias and the configured ARN is not among them. *)
Definition passes (cfg : aws_config) (a : app) : Prop :=
  count (profile cfg) (map role_name (roles a)) = 0 /\
  forall arn, role_arn cfg = Some arn -> ~ In arn (roles a).

Definition offline : network :=
  {| find_form := fun _ => None; post := fun _ _ => None; text_nodes := fun _ => [] |}.

Definition with_roles (rs : list string) : app :=
  {| roles := rs; label := "AWS"; saml := ""; saml_response_string := "" |}.

Definition dev_1 : string := "arn:aws:iam::111111111111:role/dev".

Definition dev_2 : string := "arn:aws:iam::222222222222:role/dev".

Definition admin_1 : string := "arn:aws:iam::111111111111:role/admin".

Definition tile_1 : string := "https://acme.okta.com/home/amazon_aws/0oa1/272".

Definition tile_2 : string := "https://acme.okta.com/home/amazon_aws/0oa2/272".

(** All the roles of all the sources. *)
Definition all_roles (aps : dict app) : list string :=
  flat_map (fun ua => roles (snd ua)) aps.

(** The row of a role when no alias is known. *)
Definition raw_row (lbl url role : string) : row :=
  (lbl, nth 4 (split ":" role) "", role, url).

Definition raw_rows (aps : dict app) : list row :=
  flat_map (fun ua => map (raw_row (label (snd ua)) (fst ua)) (roles (snd ua))) aps.

(** The page Okta answers with, as far as the lookup reads it, and an app
    that came with it. *)
Definition okta_form : string :=
  "<form method='post' action='https://signin.aws.amazon.com/saml'></form>".

Definition signed_in (rs : list string) : app :=
  {| roles := rs; label := "AWS"; saml := "<saml>"; saml_response_string := okta_form |}.

(** A sign-in page without any account line, behind the form of a page
    that has one. *)
Definition plain_page : network :=
  {| find_form := fun page =>
       if contains "<form" page
       then Some (Some "https://signin.aws.amazon.com/saml") else None;
     post := fun _ _ => Some "<html><body>Sign in</body></html>";
     text_nodes := fun _ => ["Sign in"] |}.


End Roles.

(** ** MFA options: [factor_type_info], [mfa_option_info] *)

Module Mfa.
Import PyDict.

(** The values of a decoded JSON reply. *)
#[warnings="-register-all"] Inductive json : Type :=
| JNull
| JBool (b : bool)
| JNum (n : Z)
| JStr (s : string)
| JArr (items : list json)
| JObj (fields : list (string * json)).

(** [v.get(key)]: only a dictionary has the method; a missing key gives
    [None]. *)
Definition get (v : json) (key : string) : outcome json :=
  match v with
  | JObj fields =>
      match lookup key fields with
      | Some x => Returned x
      | None => Returned JNull
      end
  | _ => Raised AttributeError
  end.

(** [factor_type in [...]] and [factor_type == "..."] against strings. *)
Definition one_of (factor_type : json) (names : list string) : bool :=
  match factor_type with
  | JStr s => existsb (String.eqb s) names
  | _ => false
  end.

(** [mfa_option.get("profile").get(field)] *)
Definition profile_field (mfa_option : dict json) (field : string) : outcome json :=
  profile <- get (JObj mfa_option) "profile" ;;
  get profile field.

(** [factor_type_info(factor_type, mfa_option)] *)
Definition factor_type_info (factor_type : json) (mfa_option : dict json) : outcome json :=
  if one_of factor_type ["token"; "token:software:totp"; "token:hardware"]
  then profile_field mfa_option "credentialId"
  else if one_of factor_type ["push"]
  then profile_field mfa_option "name"
  else if one_of factor_type ["sms"] || one_of factor_type ["call"]
  then profile_field mfa_option "phoneNumber"
  else if one_of factor_type ["webauthn"]
  then profile_field mfa_option "authenticatorName"
  else if one_of factor_type ["web"; "u2f"; "token:hotp"]
  then get (JObj mfa_option) "vendorName"
  else if one_of factor_type ["question"]
  then profile_field mfa_option "question"
  else if one_of factor_type ["email"]
  then profile_field mfa_option "email"
  else Returned (JStr "Not Presented").

(** [not v] *)
Definition falsy (v : json) : bool :=
  match v with
  | JNull => true
  | JBool b => negb b
  | JNum n => Z.eqb n 0
  | JStr EmptyString => true
  | JStr _ => false
  | JArr [] => true
  | JArr _ => false
  | JObj [] => true
  | JObj _ => false
  end.

(** [mfa_option_info(mfa_option)] *)
Definition mfa_option_info (mfa_option : dict json) : outcome json :=
  factor_info <- match lookup "factorType" mfa_option with
                 | Some factor_type => factor_type_info factor_type mfa_option
                 | None => Returned JNull
                 end ;;
  if falsy factor_info then Returned (JStr "Not Presented") else Returned factor_info.

(** *** Vocabulary of the statements and sample data *)

(** The sub-types whose text is read from the profile object, with the
    field read. *)
Definition profile_types : list (string * string) :=
  [("token", "credentialId"); ("token:software:totp", "credentialId");
   ("token:hardware", "credentialId"); ("push", "name");
   ("sms", "phoneNumber"); ("call", "phoneNumber");
   ("webauthn", "authenticatorName"); ("question", "question");
   ("email", "email")].

End Mfa.

(** ** The codecs used on the assertion: ASCII, base64, UTF-8 *)

Module Codec.

Definition code (c : ascii) : nat := nat_of_ascii c.

Definition between (lo n hi : nat) : bool := Nat.leb lo n && Nat.leb n hi.

(** [s.encode("ascii")] succeeds when every character is below 128. *)
Fixpoint is_ascii (s : string) : bool :=
  match s with
  | EmptyString => true
  | String c s' => Nat.ltb (code c) 128 && is_ascii s'
  end.

(** The value of a character of the base64 alphabet. *)
Definition b64_value (c : ascii) : option nat :=
  let n := code c in
  if between 65 n 90 then Some (n - 65)
  else if between 97 n 122 then Some (n - 97 + 26)
  else if between 48 n 57 then Some (n - 48 + 52)
  else if Nat.eqb n 43 then Some 62
  else if Nat.eqb n 47 then Some 63
  else None.

Definition emit (n : nat) (rest : option string) : option string :=
  option_map (String (ascii_of_nat n)) rest.

(** The loop of [binascii.a2b_base64] in its default, lenient mode:
    characters outside the alphabet are skipped, a complete run of padding
    ends the decoding, an incomplete last group is an error ([None]). *)
Fixpoint a2b_scan (quad_pos leftchar pads : nat) (s : string) : option string :=
  match s with
  | EmptyString => if Nat.eqb quad_pos 0 then Some EmptyString else None
  | String c s' =>
      if Ascii.eqb c "=" then
        if Nat.leb 2 quad_pos then
          if Nat.leb 4 (quad_pos + S pads) then Some EmptyString
          else a2b_scan quad_pos leftchar (S pads) s'
        else a2b_scan quad_pos leftchar pads s'
      else
        match b64_value c with
        | None => a2b_scan quad_pos leftchar pads s'
        | Some this_ch =>
            match quad_pos with
            | 0 => a2b_scan 1 this_ch 0 s'
            | 1 => emit (Nat.lor (Nat.shiftl leftchar 2) (Nat.shiftr this_ch 4))
                        (a2b_scan 2 (Nat.land this_ch 15) 0 s')
            | 2 => emit (Nat.lor (Nat.shiftl leftchar 4) (Nat.shiftr this_ch 2))
                        (a2b_scan 3 (Nat.land this_ch 3) 0 s')
            | _ => emit (Nat.lor (Nat.shiftl leftchar 6) this_ch)
                        (a2b_scan 0 0 0 s')
            end
        end
  end.

(** [codecs.decode(data, "base64")] *)
Definition a2b_base64 (s : string) : option string := a2b_scan 0 0 0 s.

(** Well-formed UTF-8: [bytes.decode("utf-8")] succeeds, and the text is
    then these very bytes. *)
Definition continuation (n : nat) : bool := between 128 n 191.

Fixpoint utf8_scan (fuel : nat) (s : string) : bool :=
  match fuel with
  | O => match s with EmptyString => true | _ => false end
  | S fuel' =>
      match s with
      | EmptyString => true
      | String a s1 =>
          let n := code a in
          if Nat.ltb n 128 then utf8_scan fuel' s1
          else
            match s1 with
            | EmptyString => false
            | String b s2 =>
                let m := code b in
                if between 194 n 223 then continuation m && utf8_scan fuel' s2
                else
                  match s2 with
                  | EmptyString => false
                  | String c s3 =>
                      let k := code c in
                      if between 224 n 239 then
                        (if Nat.eqb n 224 then between 160 m 191
                         else if Nat.eqb n 237 then between 128 m 159
                         else continuation m)
                        && continuation k && utf8_scan fuel' s3
                      else
                        match s3 with
                        | EmptyString => false
                        | String d s4 =>
                            between 240 n 244
                            && (if Nat.eqb n 240 then between 144 m 191
                                else if Nat.eqb n 244 then between 128 m 143
                                else continuation m)
                            && continuation k && continuation (code d)
                            && utf8_scan fuel' s4
                        end
                  end
            end
      end
  end.

Definition utf8_valid (s : string) : bool := utf8_scan (String.length s) s.

End Codec.

(** ** The SAML response: [validate_saml_response], [extract_arns] *)

Module Saml.
Import PyStr PyDict Codec.

(** A parsed page: text and elements with their attributes. *)
#[warnings="-register-all"] Inductive node : Type :=
| Text (s : string)
| Element (tag : string) (attrs : dict string) (children : list node).

(** The elements of a tree in document order, with their attributes. *)
Fixpoint elements (n : node) : list (string * dict string) :=
  match n with
  | Text _ => []
  | Element tag attrs children => (tag, attrs) :: flat_map elements children
  end.

(** [soup.find_all(tag, attrs={key: value})]: the attributes of the
    matching elements, in document order. *)
Definition find_all (tag key value : string) (soup : list node) : list (dict string) :=
  map snd
    (List.filter
       (fun e => String.eqb (fst e) tag &&
                 match lookup key (snd e) with
                 | Some v => String.eqb v value
                 | None => false
                 end)
       (flat_map elements soup)).

(** [codecs.decode(saml_base64.encode("ascii"), "base64").decode("utf-8")]
    for [saml_base64 = elem.get("value")]. *)
Definition decode_field (saml_base64 : option string) : outcome string :=
  match saml_base64 with
  | None => Raised AttributeError
  | Some v =>
      if negb (is_ascii v) then Raised UnicodeEncodeError
      else match a2b_base64 v with
           | None => Raised BinasciiError
           | Some data =>
               if utf8_valid data then Returned data else Raised UnicodeDecodeError
           end
  end.

(** The loop over the matching fields; [xml] is the variable of that
    name. *)
Fixpoint scan_fields (xml : option string) (elems : list (dict string))
  : outcome (option string) :=
  match elems with
  | [] => Returned xml
  | elem :: rest =>
      decoded <- decode_field (lookup "value" elem) ;;
      scan_fields (Some decoded) rest
  end.

(** The assertion fields of a page. *)
Definition assertion_fields (soup : list node) : list (dict string) :=
  find_all "input" "name" "SAMLResponse" soup.

(** [validate_saml_response(html)]; [parse] is
    [BeautifulSoup(html, "html.parser")]. *)
Definition validate_saml_response (parse : string -> list node) (html : string)
  : outcome string :=
  xml <- scan_fields None (assertion_fields (parse html)) ;;
  match xml with
  | None => Exited 1
  | Some x => Returned x
  end.

(** *** The pattern of [extract_arns] *)

(** A lazy run of characters other than newline, up to the first place
    where [pat] follows: the run (reversed in [acc]) and the text after
    [pat]. *)
Fixpoint lazy_until (pat : string) (acc : list ascii) (s : string)
  : option (string * string) :=
  if startswith s pat
  then Some (string_of_list_ascii (rev acc), drop (String.length pat) s)
  else match s with
       | EmptyString => None
       | String c s' =>
           if Ascii.eqb c newline then None else lazy_until pat (c :: acc) s'
       end.

Definition arn_prefix : string := "arn:aws:iam::".

(** A match of the pattern at the start of [s]: the group and the length
    of the whole match. *)
Definition match_at (s : string) : option (string * nat) :=
  if startswith s (">" ++ arn_prefix) then
    match lazy_until ("," ++ arn_prefix) [] (drop 14 s) with
    | None => None
    | Some (x, s2) =>
        match lazy_until "<" [] s2 with
        | None => None
        | Some (y, _) =>
            let group := (arn_prefix ++ x ++ "," ++ arn_prefix ++ y)%string in
            Some (group, String.length group + 2)
        end
    end
  else None.

(** [re.findall(arn_regex, saml)]: matches from left to right, the search
    resuming after each match; [skip] counts the characters of the last
    match still to be passed. *)
Fixpoint findall_scan (skip : nat) (s : string) : list string :=
  match s with
  | EmptyString => []
  | String _ s' =>
      match skip with
      | S k => findall_scan k s'
      | O =>
          match match_at s with
          | Some (group, len) => group :: findall_scan (len - 1) s'
          | None => findall_scan 0 s'
          end
      end
  end.

Definition findall (saml : string) : list string := findall_scan 0 saml.

(** One entry of the comprehension: [i.split(",")[1]: i.split(",")[0]]. *)
Definition binding (i : string) : outcome (string * string) :=
  role <- item (split "," i) 1 ;;
  provider <- item (split "," i) 0 ;;
  Returned (role, provider).

Fixpoint bindings (arns : list string) : outcome (list (string * string)) :=
  match arns with
  | [] => Returned []
  | i :: rest =>
      b <- binding i ;;
      bs <- bindings rest ;;
      Returned (b :: bs)
  end.

(** [extract_arns(saml)] *)
Definition extract_arns (saml : string) : outcome (dict string) :=
  match findall saml with
  | [] => Exited 2
  | arns =>
      roles_and_providers <- bindings arns ;;
      Returned (of_pairs roles_and_providers)
  end.

(** *** Vocabulary of the statements and sample data *)

(** A field whose value decodes. *)
Definition decodable (elem : dict string) : Prop :=
  exists x, decode_field (lookup "value" elem) = Returned x.

(** Sample pages, as the parser reads them. *)
Definition form_of (fields : list node) : list node :=
  [Element "html" [] [Element "body" [] [Element "form" [("method", "post")] fields]]].

Definition failure_page : list node :=
  [Element "html" [] [Element "body" [] [Element "p" [] [Text "Sign in failed"]]]].

Definition one_field_page : list node :=
  form_of [Element "input" [("type", "hidden"); ("name", "SAMLResponse");
                            ("value", "PHNhbWw+")] [];
           Element "input" [("type", "hidden"); ("name", "RelayState");
                            ("value", "")] []].

Definition template_page : list node :=
  form_of [Element "input" [("type", "hidden"); ("name", "SAMLResponse")] [];
           Element "input" [("type", "hidden"); ("name", "SAMLResponse");
                            ("value", "PHNhbWw+")] []].

Definition placeholder_page : list node :=
  form_of [Element "input" [("name", "SAMLResponse"); ("value", "{{SAMLResponse}}")] [];
           Element "input" [("name", "SAMLResponse"); ("value", "PHNhbWw+")] []].

Definition two_field_page : list node :=
  form_of [Element "input" [("name", "SAMLResponse"); ("value", "PG9sZD4=")] [];
           Element "input" [("name", "SAMLResponse"); ("value", "PHNhbWw+")] []].

(** A parser that knows the sample pages by name. *)
Definition sample_parse (html : string) : list node :=
  if String.eqb html "failure" then failure_page
  else if String.eqb html "one field" then one_field_page
  else if String.eqb html "template" then template_page
  else if String.eqb html "placeholder" then placeholder_page
  else if String.eqb html "two fields" then two_field_page
  else [].

(** The binding a match gives: second field to first field. *)
Definition fields_of (i : string) : string * string :=
  (nth 1 (split "," i) "", nth 0 (split "," i) "").

Definition doubled_role : string :=
  "<v>arn:aws:iam::1:saml-provider/okta,arn:aws:iam::1:role/dev</v>" ++
  "<v>arn:aws:iam::1:saml-provider/adfs,arn:aws:iam::1:role/dev</v>".

End Saml.

(** ** URLs and the final configuration: [get_base_url],
    [validate_okta_org_url], [validate_okta_app_url],
    [validate_configuration], [sanitize_config_values] *)

Module Urls.
Import PyStr Codec.

(** The result of [urllib.parse.urlparse]. *)
Record url : Type := {
  scheme : string;
  netloc : string;
  path : string;
  params : string;
  query : string;
  fragment : string
}.

Definition is_alpha (c : ascii) : bool :=
  between 65 (code c) 90 || between 97 (code c) 122.

Definition is_digit (c : ascii) : bool := between 48 (code c) 57.

(** A character of [scheme_chars]. *)
Definition scheme_char (c : ascii) : bool :=
  is_alpha c || is_digit c || has_char c "+-.".

Fixpoint all_chars (f : ascii -> bool) (s : string) : bool :=
  match s with
  | EmptyString => true
  | String c s' => f c && all_chars f s'
  end.

(** [url.lstrip(...)] of the C0 controls and the space. *)
Fixpoint lstrip_c0 (s : string) : string :=
  match s with
  | EmptyString => EmptyString
  | String c s' => if Nat.leb (code c) 32 then lstrip_c0 s' else s
  end.

(** Tab, carriage return and newline are removed wherever they stand. *)
Fixpoint remove_unsafe (s : string) : string :=
  match s with
  | EmptyString => EmptyString
  | String c s' =>
      if has_char c (String "009" (String "013" (String "010" "")))
      then remove_unsafe s' else String c (remove_unsafe s')
  end.

(** The text before the first character satisfying [stop], and the text
    from that character on. *)
Fixpoint break_at (stop : ascii -> bool) (s : string) : string * string :=
  match s with
  | EmptyString => (EmptyString, EmptyString)
  | String c s' =>
      if stop c then (EmptyString, s)
      else let '(a, b) := break_at stop s' in (String c a, b)
  end.

(** [s.split(c, 1)] when [c] is in [s]; the whole text otherwise. *)
Definition cut (c : ascii) (s : string) : string * option string :=
  let '(a, b) := break_at (Ascii.eqb c) s in
  match b with
  | EmptyString => (a, None)
  | String _ b' => (a, Some b')
  end.

(** The scheme, when the text before the first colon is one. *)
Definition split_scheme (u : string) : string * string :=
  match cut ":" u with
  | (String c0 pre, Some rest) =>
      if Nat.ltb (code c0) 128 && is_alpha c0 && all_chars scheme_char (String c0 pre)
      then (lower (String c0 pre), rest)
      else (EmptyString, u)
  | _ => (EmptyString, u)
  end.

(** [_splitparams(url)]: the position of the first semicolon of the last
    segment of the path. *)
Fixpoint semicolon (i : nat) (found : option nat) (s : string) : option nat :=
  match s with
  | EmptyString => found
  | String c s' =>
      if Ascii.eqb c "/" then semicolon (S i) None s'
      else if Ascii.eqb c ";"
      then semicolon (S i) (match found with None => Some i | Some _ => found end) s'
      else semicolon (S i) found s'
  end.

Definition uses_params : list string :=
  [""; "ftp"; "hdl"; "prospero"; "http"; "imap"; "https"; "shttp"; "rtsp";
   "rtspu"; "sip"; "sips"; "mms"; "sftp"; "tel"].

(** [urlparse(urlstring)] on ASCII text.  A host with one square bracket
    only raises [ValueError]; the address check of a bracketed host is not
    modelled. *)
Definition urlparse (urlstring : string) : outcome url :=
  let u := remove_unsafe (lstrip_c0 urlstring) in
  let '(sch, u) := split_scheme u in
  let '(net, u) :=
    if startswith u "//"
    then break_at (fun c => has_char c "/?#") (drop 2 u)
    else (EmptyString, u) in
  if xorb (has_char "[" net) (has_char "]" net) then Raised ValueError
  else
    let '(u, frag) := cut "#" u in
    let '(u, qry) := cut "?" u in
    let '(u, prm) :=
      if existsb (String.eqb sch) uses_params then
        match semicolon 0 None u with
        | Some i => (substring 0 i u, drop (S i) u)
        | None => (u, EmptyString)
        end
      else (u, EmptyString) in
    Returned {| scheme := sch; netloc := net; path := u; params := prm;
                query := match qry with Some q => q | None => EmptyString end;
                fragment := match frag with Some f => f | None => EmptyString end |}.

(** [get_base_url(urlstring)] *)
Definition get_base_url (urlstring : string) : outcome string :=
  u <- urlparse urlstring ;;
  Returned (scheme u ++ "://" ++ netloc u)%string.

(** [validate_okta_org_url(input_url)] *)
Definition validate_okta_org_url (input_url : string) : outcome bool :=
  u <- urlparse input_url ;;
  Returned (String.eqb (scheme u) "https"
            && (String.eqb (path u) "" || String.eqb (path u) "/")
            && String.eqb (params u) ""
            && String.eqb (query u) ""
            && String.eqb (fragment u) "").

(** A word character and a digit of the app URL pattern, on ASCII. *)
Definition word_char (c : ascii) : bool :=
  is_alpha c || is_digit c || Ascii.eqb c "_".

(** The app URL pattern on a path: the fixed prefix, twenty word
    characters, a slash, three digits. *)
Definition tile_path (p : string) : bool :=
  startswith p "/home/amazon_aws/"
  && (let rest := drop 17 p in
      Nat.eqb (String.length rest) 24
      && all_chars word_char (substring 0 20 rest)
      && String.eqb (substring 20 1 rest) "/"
      && all_chars is_digit (substring 21 3 rest)).

(** [validate_okta_app_url(input_url)] *)
Definition validate_okta_app_url (input_url : string) : outcome bool :=
  u <- urlparse input_url ;;
  Returned (String.eqb (scheme u) "https" && tile_path (path u)).

(** [config.okta] and [config.aws], as far as the two functions read
    them; [None] is the unset value. *)
Record okta_settings : Type := {
  org : option string;
  app_url : option string;
  username : option string;
  password : option string
}.

Record aws_settings : Type := {
  output : string;
  region : string
}.

Record config : Type := {
  okta : okta_settings;
  aws : aws_settings
}.

(** What [tokendito.aws] and the defaults supply: the allowed output
    types and regions, and the default of each. *)
Record allowed : Type := {
  output_types : list string;
  regions : list string;
  default_output : string;
  default_region : string
}.

(** The truth value of a setting: unset and empty are false. *)
Definition given (v : option string) : bool :=
  match v with
  | Some (String _ _) => true
  | _ => false
  end.

Definition text (v : option string) : string :=
  match v with
  | Some s => s
  | None => "None"
  end.

(** The last message of [validate_configuration], about the two URLs. *)
Definition same_domain_message (o a : string) : string :=
  "Org URL " ++ o ++ " and Tile URL " ++ a ++ " must be in the same domain.".

(** [validate_configuration(config)]: the list of messages. *)
Definition validate_configuration (c : config) : outcome (list string) :=
  let o := okta c in
  let m1 := if negb (given (username o)) then ["Username not set."] else [] in
  let m2 := if negb (given (password o)) then ["Password not set."] else [] in
  let m3 := if negb (given (org o)) && negb (given (app_url o))
            then ["Either Okta Org or App URL must be defined."] else [] in
  m4 <- (if given (app_url o)
         then ok <- validate_okta_app_url (text (app_url o)) ;;
              Returned (if ok then []
                        else [("Tile URL " ++ text (app_url o) ++ " is not valid.")%string])
         else Returned []) ;;
  m5 <- (if given (org o)
         then ok <- validate_okta_org_url (text (org o)) ;;
              Returned (if ok then []
                        else [("Org URL " ++ text (org o) ++ " is not valid")%string])
         else Returned []) ;;
  let m6 := if given (org o) && given (app_url o)
               && negb (startswith (text (app_url o)) (text (org o)))
            then [same_domain_message (text (org o)) (text (app_url o))]
            else [] in
  Returned (m1 ++ m2 ++ m3 ++ m4 ++ m5 ++ m6).

(** [sanitize_config_values(config)] *)
Definition sanitize_config_values (a : allowed) (c : config) : outcome config :=
  okta' <- (if given (app_url (okta c))
            then base_url <- get_base_url (text (app_url (okta c))) ;;
                 Returned {| org := Some base_url;
                             app_url := app_url (okta c);
                             username := username (okta c);
                             password := password (okta c) |}
            else Returned (okta c)) ;;
  let output' := if existsb (String.eqb (output (aws c))) (output_types a)
                 then output (aws c) else default_output a in
  let region' := if existsb (String.eqb (region (aws c))) (regions a)
                 then region (aws c) else default_region a in
  Returned {| okta := okta'; aws := {| output := output'; region := region' |} |}.

(** *** Vocabulary of the statements and sample data *)

Definition sample_allowed : allowed :=
  {| output_types := ["json"; "text"; "table"];
     regions := ["us-east-1"; "us-west-2"; "eu-west-1"];
     default_output := "json";
     default_region := "us-east-1" |}.

Definition acme_tile : string :=
  "https://acme.okta.com/home/amazon_aws/0oa1bcdefghij2klmnop/272".

Definition other_tile : string :=
  "https://login.example.org/home/amazon_aws/0oa1bcdefghij2klmnop/272".

Definition settings (o a : option string) : config :=
  {| okta := {| org := o; app_url := a;
                username := Some "jane.doe@acme.com"; password := Some "pw" |};
     aws := {| output := "json"; region := "us-east-1" |} |}.

End Urls.

(** ** The configuration sources: [process_ini_file],
    [process_environment], [process_arguments] *)

Module Sources.
Import PyStr PyDict Masking.

(** The dictionary [res] of a source: namespace, then element, then
    value. *)
Definition namespaces : Type := dict (dict pyval).

(** [if name not in res: res[name] = dict()] *)
Definition ensure (name : string) (res : namespaces) : namespaces :=
  if mem name res then res else res ++ [(name, [])].

(** [res[name][element] = val]; every use follows [ensure name]. *)
Definition store (name element : string) (val : pyval) (res : namespaces) : namespaces :=
  match lookup name res with
  | Some d => assign name (assign element val d) res
  | None => res
  end.

(** The state of a loop: [res] and the module-level [mask_items]. *)
Definition state : Type := (namespaces * registry)%type.

(** One iteration of the loop of [process_ini_file]. *)
Definition ini_step (st : state) (kv : string * string) : state :=
  match match_key (lower (fst kv)) with
  | Some (name, element) =>
      (store name element (VStr (snd kv)) (ensure name (fst st)),
       add_sensitive_value_to_be_masked (VStr (snd kv)) (Some element) (snd st))
  | None => st
  end.

(** [process_ini_file(file, profile)] up to the dictionary it hands to
    [Config]: [items] is [ini.items(profile)] after [ini.read(file)],
    [None] when either raises a [configparser.Error]. *)
Definition process_ini_file (items : option (list (string * string)))
    (mask_items : registry) : outcome state :=
  match items with
  | None => Exited 2
  | Some l => Returned (fold_left ini_step l ([], mask_items))
  end.

(** One iteration of the loop of [process_environment]. *)
Definition environment_step (st : state) (kv : string * string) : state :=
  match match_env (lower (fst kv)) with
  | Some (name, element) =>
      let res := ensure name (fst st) in
      if truthy (VStr (snd kv))
      then (store name element (VStr (snd kv)) res,
            add_sensitive_value_to_be_masked (VStr (snd kv)) (Some element) (snd st))
      else (res, snd st)
  | None => st
  end.

(** [process_environment()] up to the dictionary it hands to [Config];
    [environ] is [os.environ.items()]. *)
Definition process_environment (environ : list (string * string))
    (mask_items : registry) : state :=
  fold_left environment_step environ ([], mask_items).

(** One iteration of the loop of [process_arguments]. *)
Definition arguments_step (submodules : list string) (st : state)
    (kv : string * pyval) : state :=
  match match_key (lower (fst kv)) with
  | Some (name, element) =>
      if negb (existsb (String.eqb name) submodules) then st
      else
        let res := ensure name (fst st) in
        if truthy (snd kv)
        then (store name element (snd kv) res,
              add_sensitive_value_to_be_masked (snd kv) (Some element) (snd st))
        else (res, snd st)
  | None => st
  end.

(** [process_arguments(args)] up to the dictionary it hands to [Config];
    [args] is [vars(args).items()], [submodules] the result of
    [get_submodule_names()]. *)
Definition process_arguments (submodules : list string)
    (args : list (string * pyval)) (mask_items : registry) : state :=
  fold_left (arguments_step submodules) args ([], mask_items).

(** *** Vocabulary of the statements *)

(** [res[name][element]], when both keys exist. *)
Definition setting (res : namespaces) (name element : string) : option pyval :=
  match lookup name res with
  | Some d => lookup element d
  | None => None
  end.

(** Every value stored under a sensitive element is in the registry. *)
Definition secrets_registered (st : state) : Prop :=
  forall name element v,
    setting (fst st) name element = Some v ->
    is_sensitive (Some element) = true ->
    In v (snd st).

End Sources.

(** ** The prompts: [get_org_url], [get_app_url], [get_username],
    [get_password], [get_interactive_config], [process_interactive_input],
    [update_configuration] *)

Module Interactive.
Import PyStr PyDict Masking Urls Ini.

(** The terminal: [answers] lists what the successive calls of
    [Prompt.ask] return, and the call made once they are exhausted raises
    [EOFError]; a function reading from it returns its value with the
    answers left.  [strip] stands for [str.strip()]. *)
Definition asked (A : Type) : Type := outcome (A * list string).

(** [f"https://{user_data}"] unless the text starts with the scheme. *)
Definition with_scheme (user_data : string) : string :=
  if startswith user_data "https://" then user_data
  else ("https://" ++ user_data)%string.

(** [get_org_url()] *)
Fixpoint get_org_url (strip : string -> string) (answers : list string)
  : asked string :=
  match answers with
  | [] => Raised EOFError
  | user_data :: rest =>
      let user_data := strip user_data in
      if String.eqb user_data "" then Returned (""%string, rest)
      else
        let user_data := with_scheme user_data in
        match validate_okta_org_url user_data with
        | Returned true => Returned (user_data, rest)
        | Returned false => get_org_url strip rest
        | Exited code => Exited code
        | Raised e => Raised e
        end
  end.

(** [get_app_url()] *)
Fixpoint get_app_url (strip : string -> string) (answers : list string)
  : asked string :=
  match answers with
  | [] => Raised EOFError
  | user_data :: rest =>
      let user_data := strip user_data in
      if String.eqb user_data "" then Returned (""%string, rest)
      else
        let user_data := with_scheme user_data in
        match validate_okta_app_url user_data with
        | Returned true => Returned (user_data, rest)
        | Returned false => get_app_url strip rest
        | Exited code => Exited code
        | Raised e => Raised e
        end
  end.

(** [get_username()] *)
Fixpoint get_username (strip : string -> string) (answers : list string)
  : asked string :=
  match answers with
  | [] => Raised EOFError
  | user_data :: rest =>
      let user_data := strip user_data in
      if negb (String.eqb user_data "") then Returned (user_data, rest)
      else get_username strip rest
  end.

(** [get_password()] *)
Fixpoint get_password (answers : list string) : asked string :=
  match answers with
  | [] => Raised EOFError
  | password :: rest =>
      if String.eqb password "" then get_password rest
      else Returned (password, rest)
  end.

(** [v is None] *)
Definition is_none (v : pyval) : bool :=
  match v with
  | VNone => true
  | _ => false
  end.

(** [v == ""] *)
Definition is_empty (v : pyval) : bool :=
  match v with
  | VStr EmptyString => true
  | _ => false
  end.

(** [get_interactive_config(app_url, org_url, username)].  The body of
    the first loop leaves two strings in [org_url] and [app_url], so it
    runs once at most; so does the body of the second, [get_username]
    returning no empty string. *)
Definition get_interactive_config (strip : string -> string)
    (app_url org_url username : pyval) (answers : list string)
  : asked (dict pyval) :=
  urls <- (if is_none org_url && is_none app_url
           then o <- get_org_url strip answers ;;
                a <- get_app_url strip (snd o) ;;
                Returned (VStr (fst o), VStr (fst a), snd a)
           else Returned (org_url, app_url, answers)) ;;
  let '(org_url, app_url, answers) := urls in
  name <- (if is_empty username
           then u <- get_username strip answers ;;
                Returned (VStr (fst u), snd u)
           else Returned (username, answers)) ;;
  let '(username, answers) := name in
  let details := [] in
  let details := if negb (is_none org_url)
                 then assign "okta_org" org_url details else details in
  let details := if negb (is_none app_url)
                 then assign "okta_app_url" app_url details else details in
  let details := assign "okta_username" username details in
  Returned (details, answers).

(** [d[key]] *)
Definition subscript (d : dict pyval) (key : string) : outcome pyval :=
  match lookup key d with
  | Some v => Returned v
  | None => Raised KeyError
  end.

(** [if key in details: res["okta"][element] = details[key]] *)
Definition copy (details : dict pyval) (key element : string) (res : dict pyval)
  : dict pyval :=
  match lookup key details with
  | Some v => assign element v res
  | None => res
  end.

(** [process_interactive_input(config)]; [okta] is [config.okta].  The
    result is [res["okta"]], the dictionary the returned [Config] is made
    of, with the registry and the answers left. *)
Definition process_interactive_input (strip : string -> string)
    (okta : dict pyval) (mask_items : registry) (answers : list string)
  : outcome (dict pyval * registry * list string) :=
  match (app_url <- subscript okta "app_url" ;;
         org_url <- subscript okta "org" ;;
         username <- subscript okta "username" ;;
         get_interactive_config strip app_url org_url username answers) with
  | Raised AttributeError | Raised KeyError | Raised ValueError => Exited 1
  | Raised e => Raised e
  | Exited code => Exited code
  | Returned (details, answers) =>
      let res := [] in
      let res := copy details "okta_app_url" "app_url" res in
      let res := copy details "okta_org_url" "org" res in
      let res := copy details "okta_username" "username" res in
      if negb (mem "password" okta) ||
         match lookup "password" okta with
         | Some v => is_empty v
         | None => false
         end
      then
        p <- get_password answers ;;
        Returned (assign "password" (VStr (fst p)) res,
                  add_sensitive_value_to_be_masked (VStr (fst p)) None mask_items,
                  snd p)
      else Returned (res, mask_items, answers)
  end.

(** [update_configuration(ini_file, profile)]: the parser written and the
    answers left.  The values of [results] are written as [str()] gives
    them. *)
Definition update_configuration (strip : string -> string) (w : world)
    (profile : string) (answers : list string) : asked parser :=
  results <- get_interactive_config strip VNone VNone (VStr "") answers ;;
  ini <- update_ini w profile (map (fun kv => (fst kv, py_str (snd kv))) (fst results)) ;;
  Returned (ini, snd results).

(** *** Vocabulary of the statements and sample data *)

(** An answer as the user means it: a URL that is empty or begins with
    the scheme and passes the validator. *)
Definition empty_or (valid : string -> outcome bool) (res : string) : Prop :=
  res = ""%string \/ (startswith res "https://" = true /\ valid res = Returned true).

(** A sample [strip]: what [str.strip()] does to a text whose only
    white space is the blank. *)
Definition strip_blanks (s : string) : string := Roles.strip " " s.

End Interactive.

(** ** Writing the credentials: [set_local_credentials] *)

Module Credentials.
Import PyStr PyDict Ini.

(** [d[key]] on the reply of AssumeRoleWithSAML, a dictionary of
    dictionaries of strings. *)
Definition entry {A : Type} (d : dict A) (key : string) : outcome A :=
  match lookup key d with
  | Some v => Returned v
  | None => Raised KeyError
  end.

(** What a call has written: the new content of the shared credentials
    file and of the configuration file, [None] for a file whose write did
    not complete. *)
Definition written : Type := (option parser * option parser)%type.

(** [set_local_credentials(response, role, region, output)] with the
    files written; [w_credentials] and [w_config] are the file system as
    each of the two calls of [update_ini] finds it. *)
Definition set_local_credentials (w_credentials w_config : world)
    (response : dict (dict string)) (role region output : string)
  : written * outcome string :=
  match (credentials <- entry response "Credentials" ;;
         aws_access_key_id <- entry credentials "AccessKeyId" ;;
         credentials <- entry response "Credentials" ;;
         aws_secret_access_key <- entry credentials "SecretAccessKey" ;;
         credentials <- entry response "Credentials" ;;
         aws_session_token <- entry credentials "SessionToken" ;;
         Returned (aws_access_key_id, aws_secret_access_key, aws_session_token)) with
  | Raised KeyError => ((None, None), Exited 1)
  | Raised e => ((None, None), Raised e)
  | Exited code => ((None, None), Exited code)
  | Returned (aws_access_key_id, aws_secret_access_key, aws_session_token) =>
      match update_ini w_credentials role
              [("aws_access_key_id", aws_access_key_id);
               ("aws_secret_access_key", aws_secret_access_key);
               ("aws_session_token", aws_session_token)] with
      | Raised e => ((None, None), Raised e)
      | Exited code => ((None, None), Exited code)
      | Returned credentials_file =>
          match update_ini w_config ("profile " ++ role)
                  [("output", output); ("region", region)] with
          | Raised e => ((Some credentials_file, None), Raised e)
          | Exited code => ((Some credentials_file, None), Exited code)
          | Returned config_file =>
              ((Some credentials_file, Some config_file), Returned role)
          end
      end
  end.

(** *** Sample data *)

Definition sample_reply : dict (dict string) :=
  [("Credentials", [("AccessKeyId", "AKIA"); ("SecretAccessKey", "s3cr3t");
                    ("SessionToken", "tok")])].

Definition read_only : world :=
  {| directory_ok := true; read_result := Some empty; read_error := None;
     write_ok := false; write_error := None |}.

(** A configuration file that is no text in the configured encoding. *)
Definition undecodable : world :=
  {| directory_ok := true; read_result := None; read_error := Some UnicodeDecodeError;
     write_ok := true; write_error := None |}.

End Credentials.

(** ** Sample data for the alias lookup *)

Module AliasSamples.
Import Roles.

(** A sign-in page with one account line. *)
Definition account_page : network :=
  {| find_form := fun _ => Some (Some "https://signin.aws.amazon.com/saml");
     post := fun _ _ => Some "<p>Account: production (111111111111)</p>";
     text_nodes := fun _ => ["Account: production (111111111111)"] |}.

End AliasSamples.

(* ===================================================================== *)
(** * Part II: lemmas and theorems                                       *)
(* ===================================================================== *)

Module PyStrFacts.
Import PyStr.

Lemma startswith_nil s : startswith s "" = true.
Proof. destruct s; reflexivity. Qed.

Lemma startswith_app s t : startswith (s ++ t)%string s = true.
Proof.
  induction s as [|c s IH]; simpl.
  - apply startswith_nil.
  - rewrite Ascii.eqb_refl. exact IH.
Qed.

Lemma startswith_split s p :
  startswith s p = true -> s = (p ++ drop (String.length p) s)%string.
Proof.
  revert s. induction p as [|a p IH]; intros [|b s] H; simpl in *;
    try reflexivity; try discriminate.
  apply andb_true_iff in H. destruct H as [Hab Hp].
  apply Ascii.eqb_eq in Hab. subst b. f_equal. now apply IH.
Qed.

Lemma contains_nil old : contains old "" = true -> old = "".
Proof. destruct old; simpl; [reflexivity | discriminate]. Qed.

Lemma contains_cons old c s :
  contains old (String c s) = startswith (String c s) old || contains old s.
Proof. reflexivity. Qed.

Lemma startswith_app_l s : forall p q,
  startswith s (p ++ q)%string = true -> startswith s p = true.
Proof.
induction s as [|c s IH]; intros [|a p] q H; simpl in *; try reflexivity;
  try discriminate.
apply andb_true_iff in H. destruct H as [Ha H]. rewrite Ha. simpl.
now apply IH with (q := q).
Qed.

Lemma contains_shorter p q s :
  contains (p ++ q)%string s = true -> contains p s = true.
Proof.
induction s as [|c s IH]; intros H.
- cbn [contains] in *. rewrite orb_false_r in *.
  now apply startswith_app_l with (q := q).
- rewrite contains_cons in *. apply orb_true_iff in H. destruct H as [H|H].
  + now rewrite (startswith_app_l _ _ _ H).
  + rewrite (IH H). apply orb_true_r.
Qed.

Lemma append_nil_r s : (s ++ "")%string = s.
Proof. induction s as [|c s IH]; simpl; [reflexivity | now rewrite IH]. Qed.

Lemma append_assoc s t u : ((s ++ t) ++ u)%string = (s ++ (t ++ u))%string.
Proof. induction s as [|c s IH]; simpl; [reflexivity | now rewrite IH]. Qed.

Lemma string_of_list_ascii_app l1 l2 :
  string_of_list_ascii (l1 ++ l2) =
  (string_of_list_ascii l1 ++ string_of_list_ascii l2)%string.
Proof. induction l1 as [|c l1 IH]; simpl; [reflexivity | now rewrite IH]. Qed.

Lemma has_char_app c s t : has_char c (s ++ t)%string = has_char c s || has_char c t.
Proof.
induction s as [|a s IH]; simpl; [reflexivity|].
now rewrite IH, orb_assoc.
Qed.

(** Splitting a text whose first field is known. *)
Lemma split_scan_field sep a : forall acc rest,
  has_char sep a = false ->
  split_scan sep acc (a ++ String sep rest)%string =
  (string_of_list_ascii (rev acc) ++ a)%string :: split_scan sep [] rest.
Proof.
induction a as [|c a IH]; intros acc rest H.
- cbn [append split_scan]. now rewrite Ascii.eqb_refl, append_nil_r.
- cbn [has_char] in H. apply orb_false_iff in H. destruct H as [Hc Ha].
  cbn [append split_scan]. rewrite Hc, (IH _ _ Ha).
  cbn [rev]. now rewrite string_of_list_ascii_app, append_assoc.
Qed.

Lemma split_scan_last sep a : forall acc,
  has_char sep a = false ->
  split_scan sep acc a = [(string_of_list_ascii (rev acc) ++ a)%string].
Proof.
induction a as [|c a IH]; intros acc H.
- cbn [split_scan]. now rewrite append_nil_r.
- cbn [has_char] in H. apply orb_false_iff in H. destruct H as [Hc Ha].
  cbn [split_scan]. rewrite Hc, (IH _ Ha).
  cbn [rev]. now rewrite string_of_list_ascii_app, append_assoc.
Qed.

Lemma split_scan_nonempty sep s : forall acc, 1 <= length (split_scan sep acc s).
Proof.
induction s as [|c s IH]; intros acc; cbn [split_scan]; [simpl; lia|].
destruct (Ascii.eqb c sep); [simpl; lia | apply IH].
Qed.

Lemma split_scan_length sep s : forall acc,
  has_char sep s = true -> 2 <= length (split_scan sep acc s).
Proof.
induction s as [|c s IH]; intros acc H; [discriminate|].
cbn [has_char] in H. cbn [split_scan].
destruct (Ascii.eqb c sep).
- cbn [length]. pose proof (split_scan_nonempty sep s []). lia.
- now apply IH.
Qed.

Lemma startswith_contains s x : startswith s x = true -> contains x s = true.
Proof. intros H. destruct s; simpl in *; now rewrite H. Qed.

Lemma contains_app_r old x s :
contains old s = true -> contains old (x ++ s)%string = true.
Proof.
  intros H. induction x as [|c x IH]; simpl; [exact H|].
  rewrite IH. apply orb_true_r.
Qed.

Lemma contains_middle p x q : contains x (p ++ x ++ q)%string = true.
Proof. apply contains_app_r, startswith_contains, startswith_app. Qed.

Lemma contains_false_cons old c s :
  contains old (String c s) = false ->
  startswith (String c s) old = false /\ contains old s = false.
Proof. rewrite contains_cons. apply orb_false_iff. Qed.

Lemma replace_scan_absent old new s :
  contains old s = false -> replace_scan old new 0 s = s.
Proof.
induction s as [|c s IH]; intros H; [reflexivity|].
apply contains_false_cons in H. destruct H as [Hs Hc].
cbn [replace_scan]. rewrite Hs, (IH Hc). reflexivity.
Qed.

Lemma replace_absent s old new :
  old <> "" -> contains old s = false -> replace s old new = s.
Proof.
intros Hne H. unfold replace. destruct old; [contradiction|].
now apply replace_scan_absent.
Qed.

Lemma startswith_refl s : startswith s s = true.
Proof. induction s as [|c s IH]; simpl; [reflexivity|]. now rewrite Ascii.eqb_refl. Qed.

Lemma contains_refl s : contains s s = true.
Proof. apply startswith_contains, startswith_refl. Qed.

Lemma contains_empty s : contains "" s = true.
Proof. destruct s; reflexivity. Qed.

(** A replacement that takes place leaves the new text in the result. *)
Lemma replace_scan_present old new s :
  contains old s = true -> old <> ""%string ->
  contains new (replace_scan old new 0 s) = true.
Proof.
intros H Hne. induction s as [|c s IH].
- apply contains_nil in H. contradiction.
- rewrite contains_cons in H. cbn [replace_scan].
  destruct (startswith (String c s) old).
  + apply startswith_contains, startswith_app.
  + cbn [orb] in H. rewrite contains_cons, (IH H). apply orb_true_r.
Qed.

Lemma interleave_present new s : contains new (interleave new s) = true.
Proof.
destruct s as [|c s]; cbn [interleave]; [apply contains_refl|].
apply startswith_contains, startswith_app.
Qed.

Lemma replace_present s old new :
  contains old s = true -> contains new (replace s old new) = true.
Proof.
intros H. unfold replace. destruct old as [|a t] eqn:E; [apply interleave_present|].
apply replace_scan_present; [exact H | discriminate].
Qed.

End PyStrFacts.

(** ** Indexing *)

Module ItemFacts.

Lemma item_nth {A : Type} (l : list A) i d :
  i < length l -> item l i = Returned (nth i l d).
Proof.
intros H. unfold item. now rewrite (nth_error_nth' l d H).
Qed.


End ItemFacts.

(** ** Secret masking *)

Module MaskingFacts.
Import PyStr PyStrFacts Masking.

Lemma star_free_tail c s : star_free (String c s) -> star_free s.
Proof. unfold star_free; cbn [has_char]. intros H. now apply orb_false_iff in H. Qed.

Lemma star_free_head c s : star_free (String c s) -> Ascii.eqb "*" c = false.
Proof.
unfold star_free; cbn [has_char]. intros H. apply orb_false_iff in H.
rewrite Ascii.eqb_sym. tauto.
Qed.

Lemma startswith_star p x :
  star_free p -> startswith (String "*" x) p = true -> p = "".
Proof.
destruct p as [|a p]; [reflexivity|]. intros Hp H. simpl in H.
apply andb_true_iff in H. destruct H as [H _].
apply Ascii.eqb_eq in H. subst a.
apply star_free_head in Hp. rewrite Ascii.eqb_refl in Hp. discriminate.
Qed.

Lemma contains_star old x :
  star_free old -> old <> "" -> contains old (String "*" x) = contains old x.
Proof.
intros Hs Hne. rewrite contains_cons.
destruct (startswith (String "*" x) old) eqn:E; [|reflexivity].
apply startswith_star in E; [contradiction | exact Hs].
Qed.

Lemma contains_mask old x :
  star_free old -> old <> "" -> contains old (mask ++ x)%string = contains old x.
Proof.
intros Hs Hne. unfold mask. cbn [append].
now rewrite !contains_star.
Qed.

Lemma contains_drop old n s : contains old (drop n s) = true -> contains old s = true.
Proof.
revert s. induction n as [|n IH]; intros [|c s] H; simpl in *; try exact H.
rewrite (IH s H). apply orb_true_r.
Qed.

Section OneSecret.
Variable t : string.

(** A star-free prefix of the scanned text was a prefix of the text. *)
Lemma scan_prefix s : forall skip p,
  star_free p ->
  startswith (replace_scan t mask skip s) p = true ->
  startswith (drop skip s) p = true.
Proof.
induction s as [|c s IH]; intros skip p Hp H.
- destruct skip, p; simpl in *; congruence.
- destruct skip as [|k].
  + cbn [replace_scan] in H. cbn [drop].
    destruct (startswith (String c s) t).
    * apply startswith_star in H; [subst p; reflexivity | exact Hp].
    * destruct p as [|a p]; [reflexivity|]. simpl in H |- *.
      apply andb_true_iff in H. destruct H as [Ha H].
      rewrite Ha. simpl. apply (IH 0 p (star_free_tail _ _ Hp)) in H. exact H.
  + simpl in *. now apply IH.
Qed.

(** Replacing [t] by the mask creates no occurrence of a star-free value. *)
Lemma scan_no_new_occurrence old s : forall skip,
  star_free old -> old <> "" ->
  contains old (replace_scan t mask skip s) = true ->
  contains old (drop skip s) = true.
Proof.
induction s as [|c s IH]; intros skip Hs Hne H.
- simpl in H. destruct old; [contradiction | discriminate].
- destruct skip as [|k].
  + cbn [drop]. pose proof (scan_prefix (String c s) 0 old Hs) as Hpre.
    cbn [replace_scan drop] in H, Hpre.
    destruct (startswith (String c s) t).
    * rewrite contains_mask in H by assumption.
      apply IH in H; try assumption. apply contains_drop in H.
      rewrite contains_cons, H. apply orb_true_r.
    * rewrite contains_cons in H. apply orb_true_iff in H.
      destruct H as [H|H].
      -- rewrite contains_cons, (Hpre H). reflexivity.
      -- apply (IH 0) in H; try assumption. simpl in H.
         rewrite contains_cons, H. apply orb_true_r.
  + simpl in *. now apply IH.
Qed.

End OneSecret.

Lemma interleave_mask s : exists x, interleave mask s = (mask ++ x)%string.
Proof. destruct s; simpl; eauto. exists "". reflexivity. Qed.

Lemma interleave_no_new_occurrence old s :
  star_free old -> old <> "" ->
  contains old (interleave mask s) = true -> contains old s = true.
Proof.
intros Hs Hne. induction s as [|c s IH]; intros H.
- change (interleave mask "") with (mask ++ "")%string in H.
  rewrite contains_mask in H by assumption. exact H.
- cbn [interleave] in H. rewrite contains_mask in H by assumption.
  rewrite contains_cons in H. apply orb_true_iff in H. destruct H as [H|H].
  + destruct old as [|a old]; [contradiction|].
    simpl in H. apply andb_true_iff in H. destruct H as [Ha H].
    destruct (interleave_mask s) as [x Hx]. rewrite Hx in H.
    apply startswith_star in H; [|exact (star_free_tail _ _ Hs)].
    subst old. rewrite contains_cons. cbn [startswith].
    rewrite Ha, startswith_nil. reflexivity.
  + rewrite contains_cons, (IH H). apply orb_true_r.
Qed.

(** One iteration of the filter never brings a maskable value back. *)
Lemma mask_one_keeps_absent old m secret :
  star_free old -> old <> "" ->
  contains old m = false -> contains old (mask_one m secret) = false.
Proof.
intros Hs Hne Hm. destruct (contains old (mask_one m secret)) eqn:E; [|reflexivity].
unfold mask_one, replace in E. destruct (py_str secret) as [|a t].
- apply interleave_no_new_occurrence in E; congruence.
- apply scan_no_new_occurrence in E; try assumption. simpl in E. congruence.
Qed.

(** The iteration for a maskable value removes every occurrence of it. *)
Lemma scan_removes old s : forall skip,
  star_free old -> old <> "" ->
  contains old (replace_scan old mask skip s) = false.
Proof.
induction s as [|c s IH]; intros skip Hs Hne.
- simpl. destruct old; [contradiction | reflexivity].
- destruct skip as [|k]; [|simpl; now apply IH].
  pose proof (scan_prefix old (String c s) 0 old Hs) as Hpre.
  cbn [replace_scan drop] in Hpre |- *.
  destruct (startswith (String c s) old) eqn:E.
  + rewrite contains_mask by assumption. now apply IH.
  + rewrite contains_cons, IH by assumption.
    destruct (startswith (String c (replace_scan old mask 0 s)) old) eqn:E2;
      [|reflexivity].
    specialize (Hpre eq_refl). discriminate.
Qed.

Lemma mask_one_removes m secret :
  star_free (py_str secret) -> py_str secret <> "" ->
  contains (py_str secret) (mask_one m secret) = false.
Proof.
intros Hs Hne. unfold mask_one, replace.
destruct (py_str secret) eqn:E; [contradiction|].
now apply scan_removes.
Qed.

Lemma fold_keeps_absent old items : forall m,
  star_free old -> old <> "" ->
  contains old m = false -> contains old (fold_left mask_one items m) = false.
Proof.
induction items as [|x items IH]; intros m Hs Hne Hm; simpl; [exact Hm|].
apply IH; try assumption. now apply mask_one_keeps_absent.
Qed.

Lemma logged_hides mask_items secret m :
  In secret mask_items ->
  star_free (py_str secret) -> py_str secret <> "" ->
  contains (py_str secret) (logged mask_items m) = false.
Proof.
intros Hin Hs Hne. apply in_split in Hin. destruct Hin as [l1 [l2 ->]].
unfold logged, filter. cbn [snd msg].
rewrite fold_left_app. cbn [fold_left].
apply fold_keeps_absent; try assumption. now apply mask_one_removes.
Qed.

(** The registry only grows. *)
Lemma add_keeps v w k r : In v r -> In v (add_sensitive_value_to_be_masked w k r).
Proof.
unfold add_sensitive_value_to_be_masked. destruct (is_sensitive k); [|tauto].
intros H. apply in_or_app. now left.
Qed.

Lemma register_all_keeps v calls : forall r, In v r -> In v (register_all calls r).
Proof.
unfold register_all. induction calls as [|c calls IH]; intros r H; simpl; [exact H|].
apply IH. now apply add_keeps.
Qed.

Lemma add_registers v k r :
  is_sensitive k = true -> In v (add_sensitive_value_to_be_masked v k r).
Proof.
unfold add_sensitive_value_to_be_masked. intros ->.
apply in_or_app. right. now left.
Qed.

Lemma register_all_registers v k calls : forall r,
  In (v, k) calls -> is_sensitive k = true -> In v (register_all calls r).
Proof.
induction calls as [|c calls IH]; intros r Hin Hk; [destruct Hin|].
destruct Hin as [->|Hin].
- apply (register_all_keeps v calls). now apply add_registers.
- now apply IH.
Qed.

(** *** Every source registers the password it reads *)

Lemma ini_password_registered items name v r :
  In (name, v) items ->
  match_key (lower name) = Some ("okta", "password") ->
  In (VStr v) (register_all (process_ini_file_masks items) r).
Proof.
intros Hin Hm. apply register_all_registers with (k := Some "password"); [|reflexivity].
unfold process_ini_file_masks. apply in_flat_map.
exists (name, v). split; [exact Hin|]. cbn [fst snd]. rewrite Hm. now left.
Qed.

Lemma environment_password_registered environ name v r :
  In (name, v) environ -> v <> "" ->
  match_env (lower name) = Some ("okta", "password") ->
  In (VStr v) (register_all (process_environment_masks environ) r).
Proof.
intros Hin Hv Hm. apply register_all_registers with (k := Some "password"); [|reflexivity].
unfold process_environment_masks. apply in_flat_map.
exists (name, v). split; [exact Hin|]. cbn [fst snd]. rewrite Hm.
destruct v; [contradiction|]. now left.
Qed.

Lemma arguments_password_registered submodules args name v r :
  In (name, v) args -> truthy v = true -> In "okta" submodules ->
  match_key (lower name) = Some ("okta", "password") ->
  In v (register_all (process_arguments_masks submodules args) r).
Proof.
intros Hin Hv Hsub Hm.
apply register_all_registers with (k := Some "password"); [|reflexivity].
unfold process_arguments_masks. apply in_flat_map.
exists (name, v). split; [exact Hin|]. cbn [fst snd]. rewrite Hm, Hv.
assert (existsb (String.eqb "okta") submodules = true) as ->.
{ apply existsb_exists. exists "okta". split; [exact Hsub | apply String.eqb_refl]. }
now left.
Qed.

Lemma interactive_password_registered password r :
  In (VStr password) (register_all (process_interactive_input_masks password) r).
Proof.
apply register_all_registers with (k := None); [now left | reflexivity].
Qed.

Example ini_key_okta_password :
  match_key (lower "OKTA_Password") = Some ("okta", "password").
Proof. reflexivity. Qed.

Example env_key_okta_password :
  match_env (lower "TOKENDITO_OKTA_PASSWORD") = Some ("okta", "password").
Proof. reflexivity. Qed.

Example env_key_mfa_response :
  match_env (lower "TOKENDITO_OKTA_MFA_RESPONSE") = Some ("okta", "mfa_response").
Proof. reflexivity. Qed.

(** *** The mask in the message *)

Lemma mask_one_marks m secret :
  contains (py_str secret) m = true -> contains mask (mask_one m secret) = true.
Proof. intros H. unfold mask_one. now apply replace_present. Qed.

Lemma mask_one_clean m secret :
  contains (py_str secret) m = false -> mask_one m secret = m.
Proof.
intros H. unfold mask_one. apply replace_absent; [|exact H].
intros E. rewrite E, contains_empty in H. discriminate.
Qed.

Lemma mask_one_keeps_mask m secret :
  contains mask m = true -> contains mask (mask_one m secret) = true.
Proof.
intros H. destruct (contains (py_str secret) m) eqn:E.
- now apply mask_one_marks.
- now rewrite mask_one_clean.
Qed.

Lemma fold_keeps_mask items : forall m,
  contains mask m = true -> contains mask (fold_left mask_one items m) = true.
Proof.
induction items as [|x items IH]; intros m H; [exact H|].
cbn [fold_left]. apply IH. now apply mask_one_keeps_mask.
Qed.

(** A message that leaves the loop without the mask has not been
    touched. *)
Lemma fold_unmarked items : forall m,
  contains mask (fold_left mask_one items m) = false -> fold_left mask_one items m = m.
Proof.
induction items as [|x items IH]; intros m H; [reflexivity|].
cbn [fold_left] in *. destruct (contains (py_str x) m) eqn:E.
- rewrite (fold_keeps_mask items _ (mask_one_marks m x E)) in H. discriminate.
- rewrite (mask_one_clean m x E) in *. now apply IH.
Qed.

Lemma fold_clean items m :
  (forall x, In x items -> contains (py_str x) m = false) ->
  fold_left mask_one items m = m.
Proof.
induction items as [|x items IH]; intros H; [reflexivity|].
cbn [fold_left]. rewrite mask_one_clean by (apply H; now left).
apply IH. intros y Hy. apply H. now right.
Qed.

Lemma logged_marks mask_items secret m :
  In secret mask_items ->
  contains (py_str secret) m = true ->
  contains mask (logged mask_items m) = true.
Proof.
intros Hin Hm. apply in_split in Hin. destruct Hin as [l1 [l2 ->]].
unfold logged, filter. cbn [snd msg]. rewrite fold_left_app. cbn [fold_left].
apply fold_keeps_mask.
destruct (contains mask (fold_left mask_one l1 m)) eqn:E.
- now apply mask_one_keeps_mask.
- rewrite (fold_unmarked l1 m E). now apply mask_one_marks.
Qed.

Lemma logged_replaces before secret after m :
  (forall x, In x before -> contains (py_str x) m = false) ->
  (forall x, In x after ->
     contains (py_str x) (replace m (py_str secret) mask) = false) ->
  logged (before ++ secret :: after) m = replace m (py_str secret) mask.
Proof.
intros Hb Ha. unfold logged, filter. cbn [snd msg].
rewrite fold_left_app. cbn [fold_left]. rewrite (fold_clean before m Hb).
unfold mask_one at 2. now apply fold_clean.
Qed.

(** C1 (as amended).  Once a value has been registered, by any call of
    [add_sensitive_value_to_be_masked] whose key is absent or one of the
    sensitive keys, and whatever is registered before or after it: no
    message that passes the filter holds that value any more, provided the
    value is not empty and holds no star; every message in which the value
    occurred holds the mask after the filter; and the message logged is
    the message with each occurrence of the value replaced by the mask
    when no value registered before it occurs in the message and no value
    registered after it occurs in the message so replaced. *)
Theorem C1_registered_value_is_masked :
  forall (mask_items : registry) (calls : list (pyval * option string))
         (value : pyval) (key : option string) (m : string),
    In (value, key) calls ->
    is_sensitive key = true ->
    (py_str value <> "" ->
     has_char "*" (py_str value) = false ->
     contains (py_str value) (logged (register_all calls mask_items) m) = false) /\
    (contains (py_str value) m = true ->
     contains mask (logged (register_all calls mask_items) m) = true) /\
    (forall before after : registry,
       register_all calls mask_items = before ++ value :: after ->
       (forall x, In x before -> contains (py_str x) m = false) ->
       (forall x, In x after ->
          contains (py_str x) (replace m (py_str value) mask) = false) ->
       logged (register_all calls mask_items) m = replace m (py_str value) mask).
Proof.
intros r calls value key m Hin Hk.
assert (Hreg : In value (register_all calls r))
  by now apply register_all_registers with (k := key).
split; [|split].
- intros Hne Hs. now apply logged_hides.
- intros Hm. now apply (logged_marks _ value).
- intros before after -> Hb Ha. now apply logged_replaces.
Qed.

Lemma C1_registered_value_is_masked_witness :
  contains "hunter2"
    (logged (register_all [(VStr "otp", Some "mfa_response");
                           (VStr "hunter2", Some "password")] [])
            "login with hunter2 failed") = false /\
  contains mask
    (logged (register_all [(VStr "otp", Some "mfa_response");
                           (VStr "hunter2", Some "password")] [])
            "login with hunter2 failed") = true /\
  logged (register_all [(VStr "otp", Some "mfa_response");
                        (VStr "hunter2", Some "password")] [])
         "login with hunter2 failed" = "login with ***** failed"%string.
Proof.
destruct (C1_registered_value_is_masked []
            [(VStr "otp", Some "mfa_response"); (VStr "hunter2", Some "password")]
            (VStr "hunter2") (Some "password") "login with hunter2 failed")
  as (H1 & H2 & H3).
- simpl. right. left. reflexivity.
- reflexivity.
- split; [apply H1; [discriminate | reflexivity]|].
  split; [apply H2; reflexivity|].
  apply (H3 [VStr "otp"] []).
  + reflexivity.
  + intros x [<-|[]]. reflexivity.
  + intros x [].
Defined.

(** C1 as stated fails: with the one-time response "b" registered before the
    password "abc", the occurrence of the password in a message is not
    replaced by the mask; its first and last characters reach the log.  The
    mask is in the message all the same, and the password is not. *)
Lemma C1_occurrence_not_replaced_by_mask :
  let mask_items :=
    register_all [(VStr "b", Some "mfa_response"); (VStr "abc", Some "password")] [] in
  In (VStr "abc") mask_items /\
  logged mask_items "password abc" = "password a*****c" /\
  logged mask_items "password abc" <> ("password " ++ mask)%string.
Proof.
cbv zeta. split; [|split].
- simpl. right. left. reflexivity.
- reflexivity.
- vm_compute. discriminate.
Qed.

(** The two kinds of value the first part of the amended claim leaves
    out: a value made of stars is masked and is still there, and the empty
    value puts the mask between all the characters. *)
Example star_value_remains :
  logged [VStr "*"] "a*b" = "a*****b" /\ contains "*" (logged [VStr "*"] "a*b") = true.
Proof. split; reflexivity. Qed.

Example empty_value_masks_everywhere :
  logged [VStr ""] "ab" = "*****a*****b*****".
Proof. reflexivity. Qed.

End MaskingFacts.

(** ** Dictionaries *)

Module PyDictFacts.
Import PyDict.

Section Lookup.
Context {V : Type}.
Implicit Types (d : dict V) (k : string) (v : V).

Lemma lookup_assign_eq k v d : lookup k (assign k v d) = Some v.
Proof.
induction d as [|[k' v'] d IH]; simpl.
- now rewrite String.eqb_refl.
- destruct (String.eqb k k') eqn:E; simpl; rewrite E; [reflexivity | exact IH].
Qed.

Lemma lookup_assign_ne k k' v d : k <> k' -> lookup k' (assign k v d) = lookup k' d.
Proof.
intros Hne. induction d as [|[k0 v0] d IH]; simpl.
- apply String.eqb_neq in Hne. now rewrite String.eqb_sym, Hne.
- destruct (String.eqb k k0) eqn:E; simpl.
  + apply String.eqb_eq in E. subst k0.
    apply String.eqb_neq in Hne. now rewrite String.eqb_sym, Hne.
  + now rewrite IH.
Qed.

Lemma lookup_assign k k' v d :
  lookup k' (assign k v d) = if String.eqb k' k then Some v else lookup k' d.
Proof.
destruct (String.eqb_spec k' k) as [->|Hne].
- apply lookup_assign_eq.
- apply lookup_assign_ne. congruence.
Qed.

Lemma lookup_app k d1 d2 :
  lookup k (d1 ++ d2) = match lookup k d1 with Some v => Some v | None => lookup k d2 end.
Proof.
induction d1 as [|[k' v'] d1 IH]; simpl; [reflexivity|].
now destruct (String.eqb k k').
Qed.

Lemma lookup_In k v d : lookup k d = Some v -> In (k, v) d.
Proof.
induction d as [|[k' v'] d IH]; simpl; [discriminate|].
destruct (String.eqb_spec k k') as [->|Hne].
- intros [= ->]. now left.
- intros H. right. now apply IH.
Qed.

Lemma length_assign_le k v d : length (assign k v d) <= S (length d).
Proof.
induction d as [|[k' v'] d IH]; simpl; [lia|].
destruct (String.eqb k k'); simpl; lia.
Qed.

Lemma lookup_fold_assign (l : list (string * V)) : forall d k,
  lookup k (fold_left (fun d kv => assign (fst kv) (snd kv) d) l d) =
  match lookup k (rev l) with Some v => Some v | None => lookup k d end.
Proof.
induction l as [|[k0 v0] l IH]; intros d k; [reflexivity|].
cbn [fold_left fst snd rev]. rewrite IH, lookup_app, lookup_assign.
destruct (lookup k (rev l)); [reflexivity|]. simpl.
now destruct (String.eqb k k0).
Qed.

Lemma lookup_of_pairs (l : list (string * V)) k :
  lookup k (of_pairs l) = lookup k (rev l).
Proof.
unfold of_pairs. rewrite lookup_fold_assign.
now destruct (lookup k (rev l)).
Qed.

Lemma lookup_no_key k (d : dict V) :
  (forall kv, In kv d -> fst kv <> k) -> lookup k d = None.
Proof.
induction d as [|[k' v'] d IH]; intros H; [reflexivity|]. simpl.
destruct (String.eqb_spec k k') as [->|Hne].
- now destruct (H (k', v') (or_introl eq_refl)).
- apply IH. intros kv Hin. apply H. now right.
Qed.

Lemma length_fold_assign (l : list (string * V)) : forall d,
  length (fold_left (fun d kv => assign (fst kv) (snd kv) d) l d) <= length d + length l.
Proof.
induction l as [|[k v] l IH]; intros d; cbn [fold_left length fst snd]; [lia|].
specialize (IH (assign k v d)). pose proof (length_assign_le k v d). lia.
Qed.

Lemma length_of_pairs (l : list (string * V)) : length (of_pairs l) <= length l.
Proof. unfold of_pairs. now rewrite length_fold_assign. Qed.

End Lookup.

End PyDictFacts.

(** ** The ini files *)

Module IniFacts.
Import PyStr PyDict PyDictFacts Ini.

Lemma supplied_cons key value rest name :
  supplied ((key, value) :: rest) name =
  match supplied rest name with
  | Some v => Some v
  | None => if String.eqb name (optionxform key) then Some value else None
  end.
Proof. unfold supplied. cbn [map rev fst snd]. now rewrite lookup_app. Qed.

Lemma set_named ini profile key value opts :
  profile <> "" -> profile <> default_section ->
  section_of ini profile = Some opts ->
  set ini profile key value =
  Returned {| defaults := defaults ini;
              sections := assign profile (assign (optionxform key) value opts)
                            (sections ini) |}.
Proof.
intros H1 H2 Hs. unfold set, section_of in *.
apply String.eqb_neq in H1, H2. now rewrite H1, H2, Hs.
Qed.

(** The loop over [kwargs] touches the addressed section only. *)
Lemma set_all_named profile kwargs :
  profile <> "" -> profile <> default_section ->
  forall ini opts, section_of ini profile = Some opts ->
  exists ini' opts',
    set_all ini profile kwargs = Returned ini' /\
    defaults ini' = defaults ini /\
    (forall name, name <> profile -> section_of ini' name = section_of ini name) /\
    section_of ini' profile = Some opts' /\
    forall name, lookup name opts' =
                 match supplied kwargs name with
                 | Some v => Some v
                 | None => lookup name opts
                 end.
Proof.
intros H1 H2. induction kwargs as [|[key value] rest IH]; intros ini opts Hs.
- exists ini, opts. simpl. repeat split; auto.
- cbn [set_all]. rewrite (set_named ini profile key value opts H1 H2 Hs).
  cbn [bind].
  set (ini1 := {| defaults := defaults ini; sections := _ |}).
  destruct (IH ini1 (assign (optionxform key) value opts)) as (ini' & opts' & E & D & F & S & L).
  { unfold section_of, ini1. cbn [sections]. apply lookup_assign_eq. }
  exists ini', opts'. repeat split; try assumption.
  + intros name Hn. rewrite (F name Hn). unfold section_of, ini1. cbn [sections].
    apply lookup_assign_ne. congruence.
  + intros name. rewrite L, supplied_cons, lookup_assign.
    destruct (supplied rest name); [reflexivity|].
    now destruct (String.eqb name (optionxform key)).
Qed.

(** C2 (as amended).  When the directory, the read and the write succeed
    and the profile name is neither empty nor the parser's default-section
    name, [update_ini] returns the parser it wrote, in which the default
    options and every section other than the addressed one are as they were
    read, and the addressed section (created when absent) maps every option
    name to the value supplied for it (names are stored lower-cased, the
    last supplied value wins) and otherwise to the value it had. *)
Theorem C2_update_ini_frame :
  forall (w : world) (ini : parser) (profile : string) (kwargs : list (string * string)),
    directory_ok w = true ->
    read_result w = Some ini ->
    write_ok w = true ->
    profile <> "" ->
    profile <> default_section ->
    exists ini' opts,
      update_ini w profile kwargs = Returned ini' /\
      defaults ini' = defaults ini /\
      (forall name, name <> profile -> section_of ini' name = section_of ini name) /\
      section_of ini' profile = Some opts /\
      forall name, lookup name opts =
                   match supplied kwargs name with
                   | Some v => Some v
                   | None => lookup name (previous ini profile)
                   end.
Proof.
intros w ini profile kwargs Hd Hr Hw H1 H2.
unfold update_ini. rewrite Hd, Hr, Hw. cbn [negb].
unfold has_section, mem, previous, section_of.
destruct (lookup profile (sections ini)) as [opts0|] eqn:E.
- cbn [bind].
  destruct (set_all_named profile kwargs H1 H2 ini opts0 E)
    as (ini' & opts' & Es & D & F & S & L).
  exists ini', opts'. rewrite Es. cbn [bind]. auto.
- unfold add_section, mem. rewrite E.
  apply String.eqb_neq in H2. rewrite H2. cbn [bind].
  set (ini1 := {| defaults := defaults ini; sections := _ |}).
  destruct (set_all_named profile kwargs H1 (proj1 (String.eqb_neq _ _) H2) ini1 [])
    as (ini' & opts' & Es & D & F & S & L).
  { unfold section_of, ini1. cbn [sections]. rewrite lookup_app, E. simpl.
    now rewrite String.eqb_refl. }
  exists ini', opts'. rewrite Es. cbn [bind]. unfold section_of in *.
  repeat split; try assumption.
  intros name Hn. rewrite (F name Hn). unfold ini1. cbn [sections].
  rewrite lookup_app. destruct (lookup name (sections ini)); [reflexivity|].
  simpl. apply String.eqb_neq in Hn. now rewrite Hn.
Qed.

Lemma C2_update_ini_frame_witness :
  exists ini' opts,
    update_ini (fine other_file) "work" work_keys = Returned ini' /\
    defaults ini' = defaults other_file /\
    (forall name, name <> "work" -> section_of ini' name = section_of other_file name) /\
    section_of ini' "work" = Some opts /\
    forall name, lookup name opts =
                 match supplied work_keys name with
                 | Some v => Some v
                 | None => lookup name (previous other_file "work")
                 end.
Proof.
apply (C2_update_ini_frame (fine other_file) other_file "work" work_keys).
- reflexivity.
- reflexivity.
- reflexivity.
- discriminate.
- discriminate.
Defined.

Example update_ini_written_text :
  match update_ini (fine other_file) "work" work_keys with
  | Returned ini' => write ini'
  | _ => ""
  end =
  ("[other]" ++ nl ++ "foo = bar" ++ nl ++ nl ++
   "[work]" ++ nl ++ "aws_access_key_id = AKIA" ++ nl ++
   "aws_secret_access_key = s3cr3t" ++ nl ++
   "aws_session_token = tok" ++ nl ++ nl)%string.
Proof. reflexivity. Qed.

(** C2 as stated fails for the profile name DEFAULT: [add_section] raises
    [ValueError], which [update_ini] does not catch, and nothing is
    written. *)
Lemma C2_default_profile_raises :
  update_ini (fine other_file) "DEFAULT" [("region", "us-east-1")] = Raised ValueError.
Proof. reflexivity. Qed.

(** With an empty profile name an empty section is created and the options
    go to the default section instead. *)
Example update_ini_empty_profile :
  update_ini (fine other_file) "" [("region", "us-east-1")] =
  Returned {| defaults := [("region", "us-east-1")];
              sections := [("other", [("foo", "bar")]); ("", [])] |}.
Proof. reflexivity. Qed.

(** Option names are stored lower-cased. *)
Example update_ini_lowers_keys :
  update_ini (fine other_file) "other" [("Foo", "baz")] =
  Returned {| defaults := []; sections := [("other", [("foo", "baz")])] |}.
Proof. reflexivity. Qed.

End IniFacts.

(** ** Role selection *)

Module RolesFacts.
Import PyStr PyStrFacts PyDict PyDictFacts ItemFacts Roles.

(** *** The role names of one app *)

Lemma count_In p rs r :
  In r rs -> role_name r = p -> 0 < count (Some p) (map role_name rs).
Proof.
induction rs as [|x rs IH]; intros Hin Hr; [destruct Hin|].
cbn [count map List.filter]. destruct Hin as [->|Hin].
- rewrite Hr, String.eqb_refl. simpl. lia.
- specialize (IH Hin Hr). cbn [count] in IH.
  destruct (String.eqb p (role_name x)); simpl; lia.
Qed.

Lemma role_names_none p rs :
  count (Some p) (map role_name rs) = 0 ->
  lookup p (rev (map (fun role => (role_name role, role)) rs)) = None.
Proof.
induction rs as [|x rs IH]; intros H; [reflexivity|].
cbn [count map List.filter rev] in *. rewrite lookup_app.
destruct (String.eqb p (role_name x)) eqn:E; [discriminate|].
rewrite (IH H). simpl. now rewrite E.
Qed.

Lemma role_names_one p rs r :
  count (Some p) (map role_name rs) = 1 ->
  In r rs -> role_name r = p ->
  lookup p (rev (map (fun role => (role_name role, role)) rs)) = Some r.
Proof.
induction rs as [|x rs IH]; intros H Hin Hr; [destruct Hin|].
cbn [count map List.filter rev] in *. rewrite lookup_app.
destruct (String.eqb_spec p (role_name x)) as [E|E].
- cbn [length] in H. injection H as H.
  rewrite (role_names_none p rs H). simpl. rewrite E, String.eqb_refl.
  destruct Hin as [->|Hin]; [reflexivity|].
  pose proof (count_In p rs r Hin Hr) as Hpos. cbn [count] in Hpos. lia.
- destruct Hin as [->|Hin]; [congruence|].
  now rewrite (IH H Hin Hr).
Qed.

(** *** Sources the loop passes over *)

Lemma existsb_eqb_In x l : existsb (String.eqb x) l = true <-> In x l.
Proof.
rewrite existsb_exists. split.
- intros [y [Hy E]]. apply String.eqb_eq in E. now subst.
- intros H. exists x. split; [exact H | apply String.eqb_refl].
Qed.

Lemma alias_names_no_role cfg a :
  count (profile cfg) (map role_name (roles a)) = 0 ->
  match profile cfg with
  | Some p => lookup p (of_pairs (map (fun role => (role_name role, role)) (roles a)))
  | None => None
  end = None.
Proof.
intros Hc. destruct (profile cfg) as [p|]; [|reflexivity].
rewrite lookup_of_pairs. now apply role_names_none.
Qed.

Lemma select_loop_pass cfg url a rest :
  passes cfg a ->
  select_loop cfg ((url, a) :: rest) = select_loop cfg rest.
Proof.
intros [Hc Harn]. cbn [select_loop].
rewrite (alias_names_no_role cfg a Hc), Hc. cbn [Nat.ltb Nat.leb].
destruct (role_arn cfg) as [arn|]; [|reflexivity].
destruct (existsb (String.eqb arn) (roles a)) eqn:E; [|reflexivity].
apply existsb_eqb_In in E. now destruct (Harn arn eq_refl).
Qed.

Lemma select_loop_skip cfg skipped rest :
  Forall (fun ua => passes cfg (snd ua)) skipped ->
  select_loop cfg (skipped ++ rest) = select_loop cfg rest.
Proof.
induction 1 as [|[url a] skipped Hp _ IH]; [reflexivity|].
cbn [List.app]. rewrite select_loop_pass by exact Hp. exact IH.
Qed.

Lemma select_loop_all_pass cfg skipped :
  Forall (fun ua => passes cfg (snd ua)) skipped ->
  select_loop cfg skipped = None.
Proof.
intros H. rewrite <- (app_nil_r skipped). now rewrite select_loop_skip.
Qed.

Lemma select_loop_ambiguous cfg alias url a rest :
  profile cfg = Some alias ->
  1 < count (Some alias) (map role_name (roles a)) ->
  select_loop cfg ((url, a) :: rest) = Some (Exited 2).
Proof.
intros Hp Hc. cbn [select_loop]. rewrite Hp.
apply Nat.ltb_lt in Hc. now rewrite Hc.
Qed.

Lemma select_loop_alias cfg alias url a rest r :
  profile cfg = Some alias ->
  count (Some alias) (map role_name (roles a)) = 1 ->
  In r (roles a) -> role_name r = alias ->
  select_loop cfg ((url, a) :: rest) = Some (Returned (r, url)).
Proof.
intros Hp Hc Hin Hr. cbn [select_loop]. rewrite Hp, Hc. cbn [Nat.ltb Nat.leb].
now rewrite lookup_of_pairs, (role_names_one alias (roles a) r Hc Hin Hr).
Qed.

Lemma select_loop_arn cfg arn url a rest :
  count (profile cfg) (map role_name (roles a)) = 0 ->
  role_arn cfg = Some arn -> In arn (roles a) ->
  select_loop cfg ((url, a) :: rest) = Some (Returned (arn, url)).
Proof.
intros Hc Ha Hin. cbn [select_loop].
rewrite (alias_names_no_role cfg a Hc), Hc, Ha. cbn [Nat.ltb Nat.leb].
apply existsb_eqb_In in Hin. now rewrite Hin.
Qed.

(** *** Sample data *)

(** C3 (as amended).  When the alias is the trailing name segment of more
    than one role of one source, and every source before it in iteration
    order holds neither a role named by the alias nor the configured role
    ARN, selection ends with exit status 2 and selects no role. *)
Theorem C3_ambiguous_alias_exits_2 :
  forall (net : network) (cfg : aws_config) (alias : string)
         (skipped : dict app) (url : string) (a : app) (rest : dict app)
         (answers : list nat),
    profile cfg = Some alias ->
    Forall (fun ua => passes cfg (snd ua)) skipped ->
    1 < count (Some alias) (map role_name (roles a)) ->
    select_role_arn net cfg (skipped ++ (url, a) :: rest) answers = Exited 2.
Proof.
intros net cfg alias skipped url a rest answers Hp Hs Hc.
unfold select_role_arn. rewrite select_loop_skip by exact Hs.
now rewrite (select_loop_ambiguous cfg alias url a rest Hp Hc).
Qed.

Lemma C3_ambiguous_alias_exits_2_witness :
  select_role_arn offline {| profile := Some "dev"; role_arn := None |}
    ([] ++ (tile_1, with_roles [dev_1; dev_2]) :: []) [] = Exited 2.
Proof.
apply (C3_ambiguous_alias_exits_2 offline {| profile := Some "dev"; role_arn := None |}
         "dev" [] tile_1 (with_roles [dev_1; dev_2]) [] []).
- reflexivity.
- constructor.
- vm_compute. lia.
Defined.

(** C3 as stated fails: the alias names one role in each of two sources,
    so more than one role across the sources, and the role of the first
    source is selected without any error. *)
Lemma C3_alias_in_two_sources_selects_first :
  let cfg := {| profile := Some "dev"; role_arn := None |} in
  let aps := [(tile_1, with_roles [dev_1]); (tile_2, with_roles [dev_2])] in
  List.filter (fun r => String.eqb (role_name r) "dev") (all_roles aps) = [dev_1; dev_2] /\
  select_role_arn offline cfg aps [] = Returned (dev_1, tile_1).
Proof. split; reflexivity. Qed.

(** C4 (as amended).  The precedence holds inside the first source, in
    iteration order, that holds a role named by the alias or the configured
    role ARN ([skipped] are the sources before it): one role named by the
    alias is returned with that source's URL; with no role named by the
    alias, the configured role ARN found there is returned with that
    source's URL; when every source is passed over, a configured role ARN
    ends the run with exit status 2 and only an absent one leads to the
    prompt; with a role ARN configured the result never depends on the
    network or on what the user types. *)
Theorem C4_selection_precedence :
  forall (net : network) (cfg : aws_config) (skipped : dict app) (answers : list nat),
    Forall (fun ua => passes cfg (snd ua)) skipped ->
    (forall url a rest alias r,
        profile cfg = Some alias ->
        count (Some alias) (map role_name (roles a)) = 1 ->
        In r (roles a) -> role_name r = alias ->
        select_role_arn net cfg (skipped ++ (url, a) :: rest) answers = Returned (r, url)) /\
    (forall url a rest arn,
        count (profile cfg) (map role_name (roles a)) = 0 ->
        role_arn cfg = Some arn -> In arn (roles a) ->
        select_role_arn net cfg (skipped ++ (url, a) :: rest) answers = Returned (arn, url)) /\
    (forall arn,
        role_arn cfg = Some arn ->
        select_role_arn net cfg skipped answers = Exited 2) /\
    (role_arn cfg = None ->
        select_role_arn net cfg skipped answers = prompt_role_choices net skipped answers) /\
    (forall arn aps net' answers',
        role_arn cfg = Some arn ->
        select_role_arn net cfg aps answers = select_role_arn net' cfg aps answers').
Proof.
intros net cfg skipped answers Hs. repeat split.
- intros url a rest alias r Hp Hc Hin Hr. unfold select_role_arn.
  rewrite select_loop_skip by exact Hs.
  now rewrite (select_loop_alias cfg alias url a rest r Hp Hc Hin Hr).
- intros url a rest arn Hc Ha Hin. unfold select_role_arn.
  rewrite select_loop_skip by exact Hs.
  now rewrite (select_loop_arn cfg arn url a rest Hc Ha Hin).
- intros arn Ha. unfold select_role_arn.
  now rewrite (select_loop_all_pass cfg skipped Hs), Ha.
- intros Ha. unfold select_role_arn.
  now rewrite (select_loop_all_pass cfg skipped Hs), Ha.
- intros arn aps net' answers' Ha. unfold select_role_arn.
  destruct (select_loop cfg aps); [reflexivity|]. now rewrite Ha.
Qed.

Lemma C4_selection_precedence_witness :
  select_role_arn offline {| profile := None; role_arn := Some dev_2 |}
    ([] ++ (tile_1, with_roles [admin_1; dev_2]) :: []) [] = Returned (dev_2, tile_1).
Proof.
apply (proj1 (proj2 (C4_selection_precedence offline
         {| profile := None; role_arn := Some dev_2 |} [] [] (Forall_nil _)))).
- reflexivity.
- reflexivity.
- simpl. right. left. reflexivity.
Defined.

(** C4 as stated fails: the alias names exactly one role of all the
    bindings, yet the configured role ARN, found in an earlier source, is
    what is returned. *)
Lemma C4_arn_in_earlier_source_beats_alias :
  let cfg := {| profile := Some "dev"; role_arn := Some admin_1 |} in
  let aps := [(tile_1, with_roles [admin_1]); (tile_2, with_roles [dev_2])] in
  List.filter (fun r => String.eqb (role_name r) "dev") (all_roles aps) = [dev_2] /\
  select_role_arn offline cfg aps [] = Returned (admin_1, tile_1).
Proof. split; reflexivity. Qed.

(** *** The menu without aliases *)



Lemma insert_row_In x y l : In y (insert_row x l) <-> y = x \/ In y l.
Proof.
induction l as [|z l IH]; simpl.
- intuition auto.
- destruct (row_leb x z); simpl; [intuition auto|].
  rewrite IH. intuition auto.
Qed.

Lemma sorted_In y l : In y (sorted l) <-> In y l.
Proof.
induction l as [|x l IH]; simpl; [tauto|].
rewrite insert_row_In, IH. intuition auto.
Qed.
















Example menu_without_aliases :
  build_rows plain_page [(tile_1, signed_in [dev_2; admin_1])] =
    Returned [("AWS", "222222222222", dev_2, tile_1);
              ("AWS", "111111111111", admin_1, tile_1)] /\
  prompt_role_choices plain_page [(tile_1, signed_in [dev_2; admin_1])] [7; 0] =
    Returned (admin_1, tile_1).
Proof. split; reflexivity. Qed.

Example menu_printed :
  menu (raw_rows [(tile_1, signed_in [dev_2; admin_1])]) =
  [String newline "[bold]Please select one of the following[/bold]:";
   String newline "[green]AWS:[/green]";
   "[bold][0][/bold] [cyan]111111111111[/cyan]  [blue]arn:aws:iam::111111111111:role/admin[/blue]";
   "[bold][1][/bold] [cyan]222222222222[/cyan]  [blue]arn:aws:iam::222222222222:role/dev[/blue]"].
Proof. reflexivity. Qed.

(** A page without a form stops the lookup before any row is built. *)
Example lookup_without_form :
  get_account_aliases plain_page "<saml>" "" = Raised AttributeError.
Proof. reflexivity. Qed.

End RolesFacts.

(** ** MFA options *)

Module MfaFacts.
Import PyDict Mfa.

Lemma factor_type_info_profile t field mfa_option :
  In (t, field) profile_types ->
  factor_type_info (JStr t) mfa_option = profile_field mfa_option field.
Proof.
intros H. simpl in H.
repeat (destruct H as [H|H]; [injection H as <- <-; reflexivity|]).
destruct H.
Qed.

(** With the profile object present the description never fails, and it
    is the field when the field holds a non-empty string. *)
Lemma mfa_option_info_field t field mfa_option fields text :
  In (t, field) profile_types ->
  lookup "factorType" mfa_option = Some (JStr t) ->
  lookup "profile" mfa_option = Some (JObj fields) ->
  lookup field fields = Some (JStr text) -> text <> "" ->
  mfa_option_info mfa_option = Returned (JStr text).
Proof.
intros Ht Hf Hp Hx Hne. unfold mfa_option_info. rewrite Hf.
rewrite (factor_type_info_profile t field mfa_option Ht).
unfold profile_field, get. rewrite Hp. cbn [bind]. rewrite Hx. cbn [bind].
destruct text; [contradiction | reflexivity].
Qed.

Lemma mfa_option_info_field_absent t field mfa_option fields :
  In (t, field) profile_types ->
  lookup "factorType" mfa_option = Some (JStr t) ->
  lookup "profile" mfa_option = Some (JObj fields) ->
  lookup field fields = None ->
  mfa_option_info mfa_option = Returned (JStr "Not Presented").
Proof.
intros Ht Hf Hp Hx. unfold mfa_option_info. rewrite Hf.
rewrite (factor_type_info_profile t field mfa_option Ht).
unfold profile_field, get. rewrite Hp. cbn [bind]. now rewrite Hx.
Qed.

Lemma mfa_option_info_no_type mfa_option :
  lookup "factorType" mfa_option = None ->
  mfa_option_info mfa_option = Returned (JStr "Not Presented").
Proof. intros H. unfold mfa_option_info. now rewrite H. Qed.

Lemma profile_field_returns mfa_option fields field :
  lookup "profile" mfa_option = Some (JObj fields) ->
  exists v, profile_field mfa_option field = Returned v.
Proof.
intros Hp. unfold profile_field, get. rewrite Hp. cbn [bind].
destruct (lookup field fields); eauto.
Qed.

(** With the profile object present the description never fails, whatever
    the sub-type and the fields. *)
Lemma mfa_option_info_returns mfa_option fields :
  lookup "profile" mfa_option = Some (JObj fields) ->
  exists v, mfa_option_info mfa_option = Returned v.
Proof.
intros Hp. unfold mfa_option_info.
assert (Hinfo : forall t, exists v, factor_type_info t mfa_option = Returned v).
{ intros t. unfold factor_type_info.
  repeat match goal with
         | |- context [if ?b then _ else _] => destruct b
         end;
    try (now apply profile_field_returns with (fields := fields));
    [unfold get; destruct (lookup "vendorName" mfa_option); eauto | eauto]. }
destruct (lookup "factorType" mfa_option) as [t|].
- destruct (Hinfo t) as [v ->]. cbn [bind]. destruct (falsy v); eauto.
- cbn [bind falsy]. eauto.
Qed.

(** Without the profile object the same sub-types raise. *)
Lemma mfa_option_info_no_profile t field mfa_option :
  In (t, field) profile_types ->
  lookup "factorType" mfa_option = Some (JStr t) ->
  lookup "profile" mfa_option = None ->
  mfa_option_info mfa_option = Raised AttributeError.
Proof.
intros Ht Hf Hp. unfold mfa_option_info. rewrite Hf.
rewrite (factor_type_info_profile t field mfa_option Ht).
unfold profile_field, get. now rewrite Hp.
Qed.

(** C7 (the code fails the claim).  For a push option that carries no
    profile object [mfa_option_info] raises [AttributeError] where the
    claim promises the text "Not Presented"; a legacy option without its
    vendor name does get the fallback. *)
Theorem C7_push_without_profile_raises :
  mfa_option_info [("id", JStr "opf1"); ("factorType", JStr "push");
                   ("provider", JStr "OKTA")] = Raised AttributeError /\
  mfa_option_info [("id", JStr "opf1"); ("factorType", JStr "u2f");
                   ("provider", JStr "FIDO")] = Returned (JStr "Not Presented").
Proof. split; reflexivity. Qed.

End MfaFacts.

(** ** The SAML response *)

Module SamlFacts.
Import PyStr PyStrFacts PyDict PyDictFacts ItemFacts Codec Saml.

(** *** [validate_saml_response] *)

Lemma decode_field_no_exit v code : decode_field v <> Exited code.
Proof.
unfold decode_field. destruct v as [v|]; [|discriminate].
destruct (negb (is_ascii v)); [discriminate|].
destruct (a2b_base64 v) as [data|]; [|discriminate].
destruct (utf8_valid data); discriminate.
Qed.

Lemma scan_fields_no_exit elems : forall xml code, scan_fields xml elems <> Exited code.
Proof.
induction elems as [|e elems IH]; intros xml code; cbn [scan_fields]; [discriminate|].
destruct (decode_field (lookup "value" e)) as [d|c|x] eqn:D; cbn [bind].
- apply IH.
- now apply decode_field_no_exit in D.
- discriminate.
Qed.

Lemma scan_fields_some elems : forall x r,
  scan_fields (Some x) elems = Returned r -> exists y, r = Some y.
Proof.
induction elems as [|e elems IH]; intros x r; cbn [scan_fields].
- intros [= <-]. eauto.
- destruct (decode_field (lookup "value" e)) as [d|c|ex]; cbn [bind];
    [apply IH | discriminate | discriminate].
Qed.

Lemma scan_fields_decodable earlier : forall xml rest,
  Forall decodable earlier ->
  exists xml', scan_fields xml (earlier ++ rest) = scan_fields xml' rest.
Proof.
induction earlier as [|e earlier IH]; intros xml rest H.
- exists xml. reflexivity.
- inversion H as [|? ? [x Hx] Hrest]; subst.
  cbn [List.app scan_fields]. rewrite Hx. cbn [bind]. now apply IH.
Qed.

(** C6 (as amended).  [validate_saml_response] ends the run through
    [sys.exit] exactly when the page holds no input field named
    SAMLResponse, and the exit status is then 1. *)
Theorem C6_exit_1_iff_no_assertion_field :
  forall (parse : string -> list node) (html : string) (code : nat),
    validate_saml_response parse html = Exited code <->
    assertion_fields (parse html) = [] /\ code = 1.
Proof.
intros parse html code. unfold validate_saml_response.
destruct (assertion_fields (parse html)) as [|e rest].
- cbn [scan_fields bind]. split.
  + intros [= <-]. auto.
  + intros [_ ->]. reflexivity.
- split; [|intros [H _]; discriminate].
  cbn [scan_fields]. intros H. exfalso.
  destruct (decode_field (lookup "value" e)) as [d|c|ex] eqn:D; cbn [bind] in H.
  + destruct (scan_fields (Some d) rest) as [r|c|ex] eqn:S; cbn [bind] in H.
    * apply scan_fields_some in S. destruct S as [y ->]. discriminate.
    * now apply scan_fields_no_exit in S.
    * discriminate.
  + now apply decode_field_no_exit in D.
  + discriminate.
Qed.

(** C6 as stated fails: a page without the field ends the run with exit
    status 1, not 2. *)
Lemma C6_missing_assertion_exits_1 :
  assertion_fields (sample_parse "failure") = [] /\
  validate_saml_response sample_parse "failure" = Exited 1 /\
  validate_saml_response sample_parse "failure" <> Exited 2.
Proof. split; [reflexivity|]. split; [reflexivity | discriminate]. Qed.

(** C9 (as amended).  When the values of all the matching fields before
    the last one decode, the result is that of decoding the value of the
    last matching field: its base64- and UTF-8-decoded text when it
    decodes. *)
Theorem C9_last_field_decoded :
  forall (parse : string -> list node) (html : string)
         (earlier : list (dict string)) (last_field : dict string),
    assertion_fields (parse html) = earlier ++ [last_field] ->
    Forall decodable earlier ->
    validate_saml_response parse html = decode_field (lookup "value" last_field).
Proof.
intros parse html earlier last_field Hf He. unfold validate_saml_response.
rewrite Hf. destruct (scan_fields_decodable earlier None [last_field] He) as [xml' ->].
cbn [scan_fields].
now destruct (decode_field (lookup "value" last_field)).
Qed.

Lemma C9_last_field_decoded_witness :
  validate_saml_response sample_parse "two fields" =
  decode_field (lookup "value" [("name", "SAMLResponse"); ("value", "PHNhbWw+")]).
Proof.
apply (C9_last_field_decoded sample_parse "two fields"
         [[("name", "SAMLResponse"); ("value", "PG9sZD4=")]]
         [("name", "SAMLResponse"); ("value", "PHNhbWw+")]).
- reflexivity.
- constructor; [|constructor]. exists "<old>". reflexivity.
Defined.

Example one_field_value :
  validate_saml_response sample_parse "one field" = Returned "<saml>".
Proof. reflexivity. Qed.

Example two_fields_value :
  validate_saml_response sample_parse "two fields" = Returned "<saml>".
Proof. reflexivity. Qed.

(** C9 as stated fails: an earlier matching field is not ignored.  One
    that has no value, or whose value is a placeholder that does not decode,
    makes the call raise although the last field decodes. *)
Lemma C9_earlier_field_not_ignored :
  assertion_fields template_page =
    [[("type", "hidden"); ("name", "SAMLResponse")];
     [("type", "hidden"); ("name", "SAMLResponse"); ("value", "PHNhbWw+")]] /\
  decode_field (Some "PHNhbWw+") = Returned "<saml>" /\
  validate_saml_response sample_parse "template" = Raised AttributeError /\
  validate_saml_response sample_parse "placeholder" = Raised UnicodeDecodeError.
Proof. repeat split; reflexivity. Qed.

(** *** [extract_arns] *)

Lemma match_at_comma s group len :
  match_at s = Some (group, len) -> has_char "," group = true.
Proof.
unfold match_at. destruct (startswith s (">" ++ arn_prefix)); [|discriminate].
destruct (lazy_until ("," ++ arn_prefix) [] (drop 14 s)) as [[x s2]|]; [|discriminate].
destruct (lazy_until "<" [] s2) as [[y s3]|]; [|discriminate].
intros [= <- _]. simpl. rewrite has_char_app. simpl. apply orb_true_r.
Qed.

Lemma findall_scan_comma s : forall skip i,
  In i (findall_scan skip s) -> has_char "," i = true.
Proof.
induction s as [|c s IH]; intros skip i H; [destruct H|].
cbn [findall_scan] in H. destruct skip as [|k]; [|now apply (IH k)].
destruct (match_at (String c s)) as [[group len]|] eqn:E.
- destruct H as [<-|H]; [now apply (match_at_comma _ _ _ E) | now apply (IH (len - 1))].
- now apply (IH 0).
Qed.

Lemma binding_fields i : has_char "," i = true -> binding i = Returned (fields_of i).
Proof.
intros H. pose proof (split_scan_length "," i [] H) as Hl. fold (split "," i) in Hl.
unfold binding, fields_of.
rewrite (item_nth _ 1 "") by lia. cbn [bind].
rewrite (item_nth _ 0 "") by lia. reflexivity.
Qed.

Lemma bindings_fields arns :
  (forall i, In i arns -> has_char "," i = true) ->
  bindings arns = Returned (map fields_of arns).
Proof.
induction arns as [|i arns IH]; intros H; [reflexivity|].
cbn [bindings map]. rewrite binding_fields by (apply H; now left). cbn [bind].
rewrite IH by (intros j Hj; apply H; now right). reflexivity.
Qed.

Lemma extract_arns_no_match saml : findall saml = [] -> extract_arns saml = Exited 2.
Proof. intros H. unfold extract_arns. now rewrite H. Qed.

(** The fields of a match whose provider and role hold no comma. *)
Lemma fields_of_pair prov role tail :
  has_char "," prov = false -> has_char "," role = false ->
  tail = "" \/ startswith tail "," = true ->
  fields_of (prov ++ "," ++ role ++ tail) = (role, prov).
Proof.
intros Hp Hr Ht. unfold fields_of, split.
change (prov ++ "," ++ role ++ tail)%string
  with (prov ++ String "," (role ++ tail))%string.
rewrite (split_scan_field "," prov [] _ Hp). cbn [rev string_of_list_ascii append nth].
destruct Ht as [->|Ht].
- rewrite append_nil_r, (split_scan_last "," role [] Hr). reflexivity.
- destruct tail as [|c tail]; [discriminate|]. cbn [startswith] in Ht.
  apply andb_true_iff in Ht. destruct Ht as [Hc _]. apply Ascii.eqb_eq in Hc. subst c.
  rewrite (split_scan_field "," role [] _ Hr). reflexivity.
Qed.

(** What [extract_arns] returns when the pattern matches: a dictionary
    with at most one binding per match, built from the comma-separated
    fields of each match.  The second field (the text between the first
    and the second comma, or up to the end) is the key and the first field
    its value, and of the matches that share a key the last one gives the
    value.  There are assertions for which the bindings are fewer than the
    matches. *)
Lemma extract_arns_fields :
  (forall (saml : string),
      findall saml <> [] ->
      exists d,
        extract_arns saml = Returned d /\
        length d <= length (findall saml) /\
        forall before i after prov role tail,
          findall saml = before ++ i :: after ->
          i = (prov ++ "," ++ role ++ tail)%string ->
          has_char "," prov = false -> has_char "," role = false ->
          tail = "" \/ startswith tail "," = true ->
          (forall j, In j after -> fst (fields_of j) <> role) ->
          lookup role d = Some prov) /\
  (exists saml d,
      extract_arns saml = Returned d /\ length d < length (findall saml)).
Proof.
split.
- intros saml Hne. unfold extract_arns.
  assert (Hc : forall i, In i (findall saml) -> has_char "," i = true).
  { intros i. apply findall_scan_comma. }
  destruct (findall saml) as [|i0 arns] eqn:E; [congruence|].
  rewrite (bindings_fields _ Hc). cbn [bind].
  exists (of_pairs (map fields_of (i0 :: arns))). split; [reflexivity|]. split.
  + rewrite <- (length_map fields_of (i0 :: arns)). apply length_of_pairs.
  + intros before i after prov role tail Hs Hi Hp Hr Ht Hlast.
    rewrite Hs, lookup_of_pairs, map_app, rev_app_distr. cbn [map rev].
    rewrite <- app_assoc, lookup_app.
    rewrite (lookup_no_key role (rev (map fields_of after))).
    * rewrite Hi, (fields_of_pair prov role tail Hp Hr Ht). simpl.
      now rewrite String.eqb_refl.
    * intros kv Hin. apply in_rev, in_map_iff in Hin.
      destruct Hin as [j [<- Hj]]. now apply Hlast.
- exists doubled_role.
  exists [("arn:aws:iam::1:role/dev", "arn:aws:iam::1:saml-provider/adfs")].
  split; [reflexivity | vm_compute; lia].
Qed.

(** C10.  The key is meant to be the role ARN: the pattern separates the
    two ARNs of a match at the comma that [arn:aws:iam::] follows, and the
    role is the one after it.  The code takes the second comma-separated
    field instead, so a role whose name holds a comma is cut at that comma:
    whatever follows the comma is dropped from the key, and the dictionary
    holds no binding for the role ARN of the assertion. *)
Theorem C10_role_name_with_comma_is_cut :
  (forall provider role_start role_end : string,
      has_char "," provider = false ->
      has_char "," role_start = false ->
      binding (provider ++ "," ++ role_start ++ "," ++ role_end) =
      Returned (role_start, provider)) /\
  (let provider := "arn:aws:iam::1:saml-provider/okta"%string in
   let role := "arn:aws:iam::1:role/ops,dev"%string in
   let saml := ("<v>" ++ provider ++ "," ++ role ++ "</v>")%string in
   findall saml = [(provider ++ "," ++ role)%string] /\
   extract_arns saml = Returned [("arn:aws:iam::1:role/ops"%string, provider)] /\
   match extract_arns saml with
   | Returned d => lookup role d
   | _ => None
   end = None).
Proof.
split.
- intros provider role_start role_end Hp Hr.
  rewrite binding_fields.
  + f_equal. apply (fields_of_pair provider role_start ("," ++ role_end)); auto.
    right. apply (startswith_app "," role_end).
  + rewrite has_char_app. cbn [append has_char]. rewrite Ascii.eqb_refl.
    apply orb_true_r.
- cbv zeta. repeat split; reflexivity.
Qed.

End SamlFacts.

(** ** URLs and the final configuration *)

Module UrlsFacts.
Import PyStr PyStrFacts Urls.

Lemma given_text v s : v = Some s -> s <> "" -> given v = true /\ text v = s.
Proof. intros -> H. destruct s; [contradiction|]. split; reflexivity. Qed.

(** C5 (as amended).  [sanitize_config_values] sets the organization URL
    to the origin (scheme://host) of the app URL whenever an app URL is
    given, whether or not an organization URL was given and whatever it
    was; it leaves the organization URL as it is when no app URL is given.
    [validate_configuration] rejects, with the same-domain message, a
    configuration in which both are given and the app URL does not start
    with the organization URL. *)
Theorem C5_org_follows_app_url :
  forall (a : allowed) (c : config),
    (forall app u,
        app_url (okta c) = Some app -> app <> "" ->
        urlparse app = Returned u ->
        exists c',
          sanitize_config_values a c = Returned c' /\
          org (okta c') = Some (scheme u ++ "://" ++ netloc u)%string /\
          app_url (okta c') = Some app) /\
    (given (app_url (okta c)) = false ->
        exists c', sanitize_config_values a c = Returned c' /\ okta c' = okta c) /\
    (forall o app msgs,
        org (okta c) = Some o -> o <> "" ->
        app_url (okta c) = Some app -> app <> "" ->
        startswith app o = false ->
        validate_configuration c = Returned msgs ->
        In (same_domain_message o app) msgs).
Proof.
intros a c. split; [|split].
- intros app u Happ Hne Hu.
  destruct (given_text _ _ Happ Hne) as [Hg Ht].
  unfold sanitize_config_values, get_base_url. rewrite Hg, Ht, Hu. cbn [bind].
  eexists. split; [reflexivity|]. cbn [okta org app_url]. auto.
- intros Hg. unfold sanitize_config_values. rewrite Hg. cbn [bind].
  eexists. split; reflexivity.
- intros o app msgs Ho Hone Happ Hane Hs.
  destruct (given_text _ _ Ho Hone) as [Hgo Hto].
  destruct (given_text _ _ Happ Hane) as [Hga Hta].
  unfold validate_configuration. rewrite Hgo, Hga, Hto, Hta, Hs.
  destruct (validate_okta_app_url app) as [ok1|?|?]; cbn [bind]; try discriminate.
  destruct (validate_okta_org_url o) as [ok2|?|?]; cbn [bind]; try discriminate.
  intros [= <-]. cbn [negb andb].
  repeat (apply in_or_app; right). now left.
Qed.

Lemma C5_org_follows_app_url_witness :
  exists c',
    sanitize_config_values sample_allowed (settings None (Some acme_tile)) = Returned c' /\
    org (okta c') = Some ("https" ++ "://" ++ "acme.okta.com")%string /\
    app_url (okta c') = Some acme_tile.
Proof.
apply (proj1 (C5_org_follows_app_url sample_allowed (settings None (Some acme_tile)))
         acme_tile
         {| scheme := "https"; netloc := "acme.okta.com";
            path := "/home/amazon_aws/0oa1bcdefghij2klmnop/272";
            params := ""; query := ""; fragment := "" |}).
- reflexivity.
- discriminate.
- reflexivity.
Defined.

(** C5 as stated fails: with both URLs given and of different origins, the
    organization URL is rewritten from the app URL all the same, and the
    validation that follows finds nothing to reject. *)
Lemma C5_org_overwritten_when_both_given :
  let c := settings (Some "https://acme.okta.com") (Some other_tile) in
  let c' := settings (Some "https://login.example.org") (Some other_tile) in
  sanitize_config_values sample_allowed c = Returned c' /\
  org (okta c') <> org (okta c) /\
  validate_configuration c' = Returned [].
Proof.
cbv zeta. split; [reflexivity|]. split; [discriminate | reflexivity].
Qed.

(** The URL examples of the specification. *)
Example org_url_examples :
  validate_okta_org_url "https://acme.okta.com" = Returned true /\
  validate_okta_org_url "https://acme.okta.com/" = Returned true /\
  validate_okta_org_url "https://acme.okta.com/foo" = Returned false.
Proof. repeat split; reflexivity. Qed.

Example app_url_examples :
  validate_okta_app_url
    "https://acme.okta.com/home/amazon_aws/AAAAAAAAAAAAAAAAAAAA/123" = Returned true /\
  validate_okta_app_url "https://acme.okta.com/foo" = Returned false.
Proof. split; reflexivity. Qed.

(** Before the sanitization the validation does reject such a pair. *)
Example validation_before_sanitization :
  validate_configuration (settings (Some "https://acme.okta.com") (Some other_tile)) =
  Returned [same_domain_message "https://acme.okta.com" other_tile].
Proof. reflexivity. Qed.

End UrlsFacts.

(* ===================================================================== *)
(** * Further properties of the module                                   *)
(* ===================================================================== *)

(** ** The log filter on messages without secrets, and applied twice *)

Module FilterFacts.
Import PyStr PyStrFacts Masking MaskingFacts.

(** A message free of the registered values passes unchanged. *)
Lemma filter_clean :
  forall (mask_items : registry) (record : LogRecord),
    (forall v, In v mask_items ->
       py_str v <> "" /\ contains (py_str v) (msg record) = false) ->
    filter mask_items record = (true, record).
Proof.
intros items [m] H. unfold filter. cbn [msg] in *. f_equal. f_equal.
induction items as [|x items IH]; [reflexivity|].
cbn [fold_left]. destruct (H x (or_introl eq_refl)) as [Hne Hc].
unfold mask_one at 2. rewrite (replace_absent m _ mask Hne Hc).
apply IH. intros v Hv. apply H. now right.
Qed.

(** X1.  A message in which no registered value occurs passes the filter
    unchanged, whatever is registered, as long as no registered value is
    empty. *)
Theorem filter_keeps_clean_message :
  forall (mask_items : registry) (record : LogRecord),
    (forall v, In v mask_items ->
       py_str v <> "" /\ contains (py_str v) (msg record) = false) ->
    filter mask_items record = (true, record).
Proof. exact filter_clean. Qed.

Lemma filter_keeps_clean_message_witness :
  filter [VStr "hunter2"; VStr "123456"] {| msg := "Updated profile default" |} =
  (true, {| msg := "Updated profile default" |}).
Proof.
apply (filter_keeps_clean_message [VStr "hunter2"; VStr "123456"]
         {| msg := "Updated profile default" |}).
intros v [<-|[<-|[]]]; (split; [discriminate | reflexivity]).
Defined.

(** X2.  When every registered value is non-empty and star-free, a record
    that passes the filter a second time (each call of [setup_logging] adds
    one more filter to the loggers) is left as the first pass made it. *)
Theorem filter_twice :
  forall (mask_items : registry) (record : LogRecord),
    (forall v, In v mask_items -> py_str v <> "" /\ has_char "*" (py_str v) = false) ->
    filter mask_items (snd (filter mask_items record)) = filter mask_items record.
Proof.
intros items record H.
rewrite (filter_clean items (snd (filter items record))); [reflexivity|].
intros v Hv. destruct (H v Hv) as [Hne Hs]. split; [exact Hne|].
destruct record as [m]. exact (logged_hides items v m Hv Hs Hne).
Qed.

Lemma filter_twice_witness :
  filter [VStr "b"; VStr "abc"]
    (snd (filter [VStr "b"; VStr "abc"] {| msg := "password abc" |})) =
  filter [VStr "b"; VStr "abc"] {| msg := "password abc" |}.
Proof.
apply (filter_twice [VStr "b"; VStr "abc"] {| msg := "password abc" |}).
intros v [<-|[<-|[]]]; (split; [discriminate | reflexivity]).
Defined.

(** A registered star shows that the second hypothesis is needed. *)
Example filter_twice_star :
  logged [VStr "*"] (logged [VStr "*"] "a*b") <> logged [VStr "*"] "a*b".
Proof. vm_compute. discriminate. Qed.

End FilterFacts.

(** ** The configuration sources and the registry *)

Module SourcesFacts.
Import PyStr PyStrFacts PyDict PyDictFacts Masking MaskingFacts Sources.

Lemma mem_lookup {V : Type} name (res : dict V) :
  mem name res = true <-> exists d, lookup name res = Some d.
Proof.
unfold mem. destruct (lookup name res) as [d|]; split; try discriminate; eauto.
intros [d H]. discriminate.
Qed.

Lemma setting_ensure name res n e :
  setting (ensure name res) n e = setting res n e.
Proof.
unfold setting, ensure. destruct (mem name res) eqn:M; [reflexivity|].
rewrite lookup_app. destruct (lookup n res) as [d|] eqn:L; [reflexivity|].
simpl. now destruct (String.eqb n name).
Qed.

Lemma lookup_ensure name res : exists d, lookup name (ensure name res) = Some d.
Proof.
unfold ensure. destruct (mem name res) eqn:M.
- now apply mem_lookup.
- unfold mem in M. rewrite lookup_app.
  destruct (lookup name res); [discriminate|]. simpl.
  rewrite String.eqb_refl. eauto.
Qed.

(** A store on an existing namespace changes one setting. *)
Lemma setting_store name element val res n e :
  (exists d, lookup name res = Some d) ->
  setting (store name element val res) n e =
  if String.eqb n name && String.eqb e element then Some val else setting res n e.
Proof.
intros [d Hd]. unfold setting, store. rewrite Hd, lookup_assign.
destruct (String.eqb_spec n name) as [->|Hn]; simpl.
- rewrite lookup_assign, Hd. reflexivity.
- reflexivity.
Qed.

Lemma setting_put name element val res n e :
  setting (store name element val (ensure name res)) n e =
  if String.eqb n name && String.eqb e element then Some val else setting res n e.
Proof.
rewrite setting_store by apply lookup_ensure. now rewrite setting_ensure.
Qed.

Lemma secrets_registered_put name element val st :
  secrets_registered st ->
  secrets_registered
    (store name element val (ensure name (fst st)),
     add_sensitive_value_to_be_masked val (Some element) (snd st)).
Proof.
intros H n e v Hs He. cbn [fst snd] in *. rewrite setting_put in Hs.
destruct (String.eqb n name && String.eqb e element) eqn:E.
- injection Hs as <-. apply andb_true_iff in E. destruct E as [_ E].
  apply String.eqb_eq in E. subst e. now apply add_registers.
- apply add_keeps. now apply (H n e v).
Qed.

Lemma secrets_registered_ensure name st :
  secrets_registered st -> secrets_registered (ensure name (fst st), snd st).
Proof.
intros H n e v Hs He. cbn [fst snd] in *. rewrite setting_ensure in Hs.
now apply (H n e v).
Qed.

Lemma secrets_registered_start mask_items : secrets_registered ([], mask_items).
Proof. intros n e v Hs. discriminate. Qed.

Lemma fold_invariant {A S : Type} (P : S -> Prop) (f : S -> A -> S) (l : list A) :
  (forall s a, P s -> P (f s a)) -> forall s, P s -> P (fold_left f l s).
Proof.
intros Hf. induction l as [|a l IH]; intros s Hs; [exact Hs|].
cbn [fold_left]. apply IH. now apply Hf.
Qed.

Lemma ini_step_keeps st kv : secrets_registered st -> secrets_registered (ini_step st kv).
Proof.
intros H. unfold ini_step.
destruct (match_key (lower (fst kv))) as [[name element]|]; [|exact H].
now apply secrets_registered_put.
Qed.

Lemma environment_step_keeps st kv :
  secrets_registered st -> secrets_registered (environment_step st kv).
Proof.
intros H. unfold environment_step.
destruct (match_env (lower (fst kv))) as [[name element]|]; [|exact H].
destruct (truthy (VStr (snd kv))).
- now apply secrets_registered_put.
- now apply secrets_registered_ensure.
Qed.

Lemma arguments_step_keeps submodules st kv :
  secrets_registered st -> secrets_registered (arguments_step submodules st kv).
Proof.
intros H. unfold arguments_step.
destruct (match_key (lower (fst kv))) as [[name element]|]; [|exact H].
destruct (negb (existsb (String.eqb name) submodules)); [exact H|].
destruct (truthy (snd kv)).
- now apply secrets_registered_put.
- now apply secrets_registered_ensure.
Qed.

(** X3.  Whatever the ini file, the environment and the command line
    hold, every value that a source leaves in its dictionary under the
    element name password or mfa_response, in any namespace, has been put
    in the registry of values to mask by the time the source returns. *)
Theorem sources_register_their_secrets :
  forall (mask_items : registry),
    (forall items st,
        process_ini_file items mask_items = Returned st -> secrets_registered st) /\
    (forall environ, secrets_registered (process_environment environ mask_items)) /\
    (forall submodules args,
        secrets_registered (process_arguments submodules args mask_items)).
Proof.
intros r. split; [|split].
- intros [l|] st; [|discriminate]. intros [= <-].
  apply (fold_invariant secrets_registered);
    [apply ini_step_keeps | apply secrets_registered_start].
- intros environ. unfold process_environment.
  apply (fold_invariant secrets_registered);
    [apply environment_step_keeps | apply secrets_registered_start].
- intros submodules args. unfold process_arguments.
  apply (fold_invariant secrets_registered);
    [apply arguments_step_keeps | apply secrets_registered_start].
Qed.

(** The registry these loops build is the one of the calls listed for the
    masking theorem. *)
Lemma process_ini_file_registry l r :
  snd (fold_left ini_step l ([], r)) = register_all (process_ini_file_masks l) r.
Proof.
unfold register_all, process_ini_file_masks.
generalize (@nil (string * dict pyval)) as res. revert r.
induction l as [|kv l IH]; intros r res; [reflexivity|].
cbn [fold_left flat_map]. unfold ini_step at 2.
destruct (match_key (lower (fst kv))) as [[name element]|];
  cbn [List.app fold_left fst snd]; apply IH.
Qed.

Lemma process_environment_registry environ r :
  snd (process_environment environ r) =
  register_all (process_environment_masks environ) r.
Proof.
unfold process_environment, register_all, process_environment_masks.
generalize (@nil (string * dict pyval)) as res. revert r.
induction environ as [|kv l IH]; intros r res; [reflexivity|].
cbn [fold_left flat_map]. unfold environment_step at 2.
destruct (match_env (lower (fst kv))) as [[name element]|];
  [destruct (truthy (VStr (snd kv)))|];
  cbn [List.app fold_left fst snd]; apply IH.
Qed.

End SourcesFacts.

(** ** The environment: which variable sets an element *)

Module EnvironmentFacts.
Import PyStr PyDict PyDictFacts Masking Sources SourcesFacts.

Lemma environment_step_other st kv ns el :
  match_env (lower (fst kv)) <> Some (ns, el) \/ snd kv = "" ->
  setting (fst (environment_step st kv)) ns el = setting (fst st) ns el.
Proof.
intros H. unfold environment_step.
destruct (match_env (lower (fst kv))) as [[name element]|]; [|reflexivity].
destruct (snd kv) as [|c v] eqn:E; cbn [truthy fst].
- apply setting_ensure.
- rewrite setting_put.
  destruct (String.eqb_spec ns name) as [->|Hn]; [|reflexivity].
  destruct (String.eqb_spec el element) as [->|He]; [|reflexivity].
  destruct H as [H|H]; [now destruct H | discriminate].
Qed.

Lemma environment_step_sets st name val ns el :
  match_env (lower name) = Some (ns, el) -> val <> "" ->
  setting (fst (environment_step st (name, val))) ns el = Some (VStr val).
Proof.
intros Hm Hv. unfold environment_step. cbn [fst snd]. rewrite Hm.
destruct val as [|c v]; [contradiction|]. cbn [truthy fst].
now rewrite setting_put, !String.eqb_refl.
Qed.

(** X4.  Environment variable names are matched in lower case, and of
    the variables that name the same element the last non-empty one, in
    the order of [os.environ], gives its value; an empty variable after it
    does not erase it. *)
Theorem environment_last_value_wins :
  forall (before after : list (string * string)) (name val ns el : string)
         (mask_items : registry),
    match_env (lower name) = Some (ns, el) ->
    val <> "" ->
    (forall n v, In (n, v) after -> match_env (lower n) = Some (ns, el) -> v = "") ->
    setting (fst (process_environment (before ++ (name, val) :: after) mask_items)) ns el
    = Some (VStr val).
Proof.
intros before after name val ns el r Hm Hv Hafter.
unfold process_environment. rewrite fold_left_app. cbn [fold_left].
set (st := environment_step _ (name, val)).
assert (Hst : setting (fst st) ns el = Some (VStr val))
  by now apply environment_step_sets.
clearbody st. revert st Hst.
induction after as [|[n v] after IH]; intros st Hst; [exact Hst|].
cbn [fold_left]. apply IH.
- intros n' v' Hin. apply Hafter. now right.
- rewrite environment_step_other; [exact Hst|]. cbn [fst snd].
  destruct (match_env (lower n)) as [[ns' el']|] eqn:E; [|left; discriminate].
  destruct (String.eqb_spec ns' ns) as [->|Hn]; [|left; congruence].
  destruct (String.eqb_spec el' el) as [->|He]; [|left; congruence].
  right. apply (Hafter n v); [now left | exact E].
Qed.

Lemma environment_last_value_wins_witness :
  setting
    (fst (process_environment
            ([("HOME", "/home/jane")] ++
             ("TOKENDITO_OKTA_USERNAME", "jane") ::
             [("tokendito_okta_username", ""); ("TOKENDITO_AWS_REGION", "eu-west-1")])
            []))
    "okta" "username"
  = Some (VStr "jane").
Proof.
apply (environment_last_value_wins [("HOME", "/home/jane")]
         [("tokendito_okta_username", ""); ("TOKENDITO_AWS_REGION", "eu-west-1")]
         "TOKENDITO_OKTA_USERNAME" "jane" "okta" "username" []).
- reflexivity.
- discriminate.
- intros n v [H|[H|[]]] Hm; injection H as <- <-; [reflexivity | discriminate].
Defined.

End EnvironmentFacts.

(** ** Role selection: what can be returned *)

Module SelectionFacts.
Import PyStr PyStrFacts PyDict PyDictFacts ItemFacts Roles RolesFacts.

Lemma lookup_of_pairs_In {V : Type} (l : list (string * V)) k v :
  lookup k (of_pairs l) = Some v -> In (k, v) l.
Proof.
rewrite lookup_of_pairs. intros H. apply lookup_In in H. now apply in_rev.
Qed.

Lemma item_returned_In {A : Type} (l : list A) i x : item l i = Returned x -> In x l.
Proof.
unfold item. destruct (nth_error l i) eqn:E; [|discriminate].
intros [= <-]. now apply nth_error_In with (n := i).
Qed.

Lemma app_rows_sound alias_table lbl url rs : forall rows,
  app_rows alias_table lbl url rs = Returned rows ->
  forall l al r u, In (l, al, r, u) rows -> l = lbl /\ u = url /\ In r rs.
Proof.
induction rs as [|role rs IH]; intros rows H l al r u Hin.
- injection H as <-. destruct Hin.
- cbn [app_rows] in H.
  destruct (account_of role) as [account| |]; cbn [bind] in H; try discriminate.
  destruct (match alias_table with
            | Some ((_ :: _) as table) =>
                match lookup account table with
                | Some a => Returned a
                | None => Raised KeyError
                end
            | _ => Returned account
            end) as [alias| |]; cbn [bind] in H; try discriminate.
  destruct (app_rows alias_table lbl url rs) as [more| |]; cbn [bind] in H;
    try discriminate.
  injection H as <-. destruct Hin as [E|Hin].
  + injection E as <- _ <- <-. repeat split; auto. now left.
  + destruct (IH more eq_refl l al r u Hin) as (H1 & H2 & H3).
    repeat split; auto. now right.
Qed.

Lemma build_rows_sound net aps : forall rows,
  build_rows net aps = Returned rows ->
  forall l al r u, In (l, al, r, u) rows ->
  exists a, In (u, a) aps /\ In r (roles a) /\ l = label a.
Proof.
induction aps as [|[url a] aps IH]; intros rows H l al r u Hin.
- injection H as <-. destruct Hin.
- cbn [build_rows] in H.
  destruct (get_account_aliases net (saml a) (saml_response_string a)) as [t| |];
    cbn [bind] in H; try discriminate.
  destruct (app_rows t (label a) url (roles a)) as [here| |] eqn:Eh;
    cbn [bind] in H; try discriminate.
  destruct (build_rows net aps) as [more| |]; cbn [bind] in H; try discriminate.
  injection H as <-. apply in_app_or in Hin. destruct Hin as [Hin|Hin].
  + destruct (app_rows_sound _ _ _ _ _ Eh l al r u Hin) as (-> & -> & Hr).
    exists a. repeat split; auto. now left.
  + destruct (IH more eq_refl l al r u Hin) as (b & H1 & H2 & H3).
    exists b. repeat split; auto. now right.
Qed.

Lemma prompt_role_choices_sound net aps answers role url :
  prompt_role_choices net aps answers = Returned (role, url) ->
  exists a, In (url, a) aps /\ In role (roles a).
Proof.
unfold prompt_role_choices.
destruct (build_rows net aps) as [rows| |] eqn:Er; cbn [bind]; try discriminate.
destruct rows as [|r0 rows]; [discriminate|].
destruct (collect_integer _ answers) as [i| |]; cbn [bind]; try discriminate.
destruct (item (sorted (r0 :: rows)) i) as [[[[l al] r] u]| |] eqn:Ei;
  cbn [bind]; try discriminate.
intros [= <- <-]. apply item_returned_In in Ei.
apply (proj1 (sorted_In _ _)) in Ei.
destruct (build_rows_sound net aps _ Er l al r u Ei) as (a & H1 & H2 & _).
eauto.
Qed.

(** What the loop returns is a role of the source it names, and it is the
    configured ARN or a role named by the alias. *)
Lemma select_loop_sound cfg aps : forall role url,
  select_loop cfg aps = Some (Returned (role, url)) ->
  (exists a, In (url, a) aps /\ In role (roles a)) /\
  (role_arn cfg = Some role \/ profile cfg = Some (role_name role)).
Proof.
induction aps as [|[u a] aps IH]; intros role url H; [discriminate|].
cbn [select_loop] in H.
destruct (Nat.ltb 1 (count (profile cfg) (map role_name (roles a)))); [discriminate|].
assert (Hrest : select_loop cfg aps = Some (Returned (role, url)) ->
        (exists b, In (url, b) ((u, a) :: aps) /\ In role (roles b)) /\
        (role_arn cfg = Some role \/ profile cfg = Some (role_name role))).
{ intros Hl. destruct (IH role url Hl) as [(b & H1 & H2) H3].
  split; [exists b; split; [now right | exact H2] | exact H3]. }
destruct (match profile cfg with
          | Some p => lookup p (of_pairs (map (fun r => (role_name r, r)) (roles a)))
          | None => None
          end) as [found|] eqn:E.
- injection H as <- <-. destruct (profile cfg) as [p|]; [|discriminate].
  apply lookup_of_pairs_In, in_map_iff in E. destruct E as (r & Er & Hr).
  injection Er as Hn <-. split.
  + exists a. split; [now left | exact Hr].
  + right. now rewrite Hn.
- destruct (role_arn cfg) as [arn|]; [|now apply Hrest].
  destruct (existsb (String.eqb arn) (roles a)) eqn:Ex; [|now apply Hrest].
  injection H as <- <-. apply existsb_eqb_In in Ex. split.
  + exists a. split; [now left | exact Ex].
  + now left.
Qed.

(** X5.  Whatever the configuration, the network and the user's answers,
    a role that [select_role_arn] returns is one of the roles of the source
    whose URL it returns with it. *)
Theorem select_role_arn_returns_role_of_source :
  forall (net : network) (cfg : aws_config) (aps : dict app) (answers : list nat)
         (role url : string),
    select_role_arn net cfg aps answers = Returned (role, url) ->
    exists a, In (url, a) aps /\ In role (roles a).
Proof.
intros net cfg aps answers role url H. unfold select_role_arn in H.
destruct (select_loop cfg aps) as [result|] eqn:E.
- subst result. now apply (select_loop_sound cfg aps role url).
- destruct (role_arn cfg); [discriminate|].
  now apply (prompt_role_choices_sound net aps answers).
Qed.

Lemma select_role_arn_returns_role_of_source_witness :
  exists a,
    In (tile_2, a) [(tile_1, with_roles [admin_1]); (tile_2, with_roles [dev_2])] /\
    In dev_2 (roles a).
Proof.
apply (select_role_arn_returns_role_of_source offline
         {| profile := Some "dev"; role_arn := None |}
         [(tile_1, with_roles [admin_1]); (tile_2, with_roles [dev_2])] [] dev_2 tile_2).
reflexivity.
Defined.

(** X6.  With a role ARN configured, the role returned is that ARN or a
    role whose trailing name segment is the configured alias: nothing else
    is ever selected. *)
Theorem select_role_arn_returns_what_was_configured :
  forall (net : network) (cfg : aws_config) (aps : dict app) (answers : list nat)
         (arn role url : string),
    role_arn cfg = Some arn ->
    select_role_arn net cfg aps answers = Returned (role, url) ->
    role = arn \/ profile cfg = Some (role_name role).
Proof.
intros net cfg aps answers arn role url Ha H. unfold select_role_arn in H.
destruct (select_loop cfg aps) as [result|] eqn:E.
- subst result. destruct (select_loop_sound cfg aps role url E) as [_ [H|H]].
  + left. congruence.
  + now right.
- rewrite Ha in H. discriminate.
Qed.

Lemma select_role_arn_returns_what_was_configured_witness :
  admin_1 = admin_1 \/
  profile {| profile := Some "dev"; role_arn := Some admin_1 |} = Some (role_name admin_1).
Proof.
apply (select_role_arn_returns_what_was_configured offline
         {| profile := Some "dev"; role_arn := Some admin_1 |}
         [(tile_1, with_roles [admin_1]); (tile_2, with_roles [dev_2])] []
         admin_1 admin_1 tile_1).
- reflexivity.
- reflexivity.
Defined.

End SelectionFacts.

(** ** Account aliases in the menu *)

Module AliasFacts.
Import PyStr PyStrFacts PyDict PyDictFacts ItemFacts Roles RolesFacts SelectionFacts
  AliasSamples.

Lemma app_rows_cons t lbl url role rest :
  app_rows t lbl url (role :: rest) =
  (account <- account_of role ;;
   alias <- match t with
            | Some ((_ :: _) as table) =>
                match lookup account table with
                | Some a => Returned a
                | None => Raised KeyError
                end
            | _ => Returned account
            end ;;
   more <- app_rows t lbl url rest ;;
   Returned ((lbl, alias, role, url) :: more)).
Proof. reflexivity. Qed.

Lemma app_rows_with_table table lbl url rs : forall rows,
  table <> [] ->
  app_rows (Some table) lbl url rs = Returned rows ->
  forall role, In role rs ->
  exists account alias,
    account_of role = Returned account /\
    lookup account table = Some alias /\
    In (lbl, alias, role, url) rows.
Proof.
intros rows Hne. revert rows.
destruct table as [|e table]; [contradiction|].
induction rs as [|r rs IH]; intros rows H role Hin; [destruct Hin|].
rewrite app_rows_cons in H.
destruct (account_of r) as [account| |] eqn:Ea; cbn [bind] in H; try discriminate.
destruct (lookup account (e :: table)) as [alias|] eqn:El; cbn [bind] in H;
  try discriminate.
destruct (app_rows (Some (e :: table)) lbl url rs) as [more| |] eqn:Em;
  cbn [bind] in H; try discriminate.
injection H as <-. destruct Hin as [<-|Hin].
- exists account, alias. repeat split; auto. now left.
- destruct (IH more eq_refl role Hin) as (acc & al & H1 & H2 & H3).
  exists acc, al. repeat split; auto. now right.
Qed.

Lemma build_rows_each net aps : forall rows,
  build_rows net aps = Returned rows ->
  forall url a, In (url, a) aps ->
  exists t here,
    get_account_aliases net (saml a) (saml_response_string a) = Returned t /\
    app_rows t (label a) url (roles a) = Returned here /\
    (forall r, In r here -> In r rows).
Proof.
induction aps as [|[u b] aps IH]; intros rows H url a Hin; [destruct Hin|].
cbn [build_rows] in H.
destruct (get_account_aliases net (saml b) (saml_response_string b)) as [t| |] eqn:Et;
  cbn [bind] in H; try discriminate.
destruct (app_rows t (label b) u (roles b)) as [here| |] eqn:Eh;
  cbn [bind] in H; try discriminate.
destruct (build_rows net aps) as [more| |]; cbn [bind] in H; try discriminate.
injection H as <-. destruct Hin as [E|Hin].
- injection E as <- <-. exists t, here. repeat split; auto.
  intros r Hr. apply in_or_app. now left.
- destruct (IH more eq_refl url a Hin) as (t' & here' & H1 & H2 & H3).
  exists t', here'. repeat split; auto.
  intros r Hr. apply in_or_app. right. now apply H3.
Qed.

(** X7.  When the alias lookup of a source finds aliases, the rows of the
    menu can only be built if the account of every role of that source is
    in the table found, and each of these roles is then listed under the
    alias of its account. *)
Theorem aliases_label_the_rows :
  forall (net : network) (aps : dict app) (rows : list row)
         (url : string) (a : app) (table : dict string),
    build_rows net aps = Returned rows ->
    In (url, a) aps ->
    get_account_aliases net (saml a) (saml_response_string a) = Returned (Some table) ->
    table <> [] ->
    forall role, In role (roles a) ->
    exists account alias,
      account_of role = Returned account /\
      lookup account table = Some alias /\
      In (label a, alias, role, url) rows.
Proof.
intros net aps rows url a table Hb Hin Ht Hne role Hr.
destruct (build_rows_each net aps rows Hb url a Hin) as (t & here & H1 & H2 & H3).
rewrite Ht in H1. injection H1 as <-.
destruct (app_rows_with_table table _ _ _ here Hne H2 role Hr) as (acc & al & A & B & C).
exists acc, al. repeat split; auto.
Qed.

Lemma aliases_label_the_rows_witness :
  exists account alias,
    account_of dev_1 = Returned account /\
    lookup account [("111111111111", "production")]%string = Some alias /\
    In ("AWS"%string, alias, dev_1, tile_1)
       [("AWS"%string, "production"%string, dev_1, tile_1)].
Proof.
apply (aliases_label_the_rows account_page [(tile_1, with_roles [dev_1])]
         [("AWS"%string, "production"%string, dev_1, tile_1)] tile_1 (with_roles [dev_1])
         [("111111111111", "production")]%string).
- reflexivity.
- left. reflexivity.
- reflexivity.
- discriminate.
- left. reflexivity.
Defined.

(** X8.  When the alias lookup of a source finds aliases but not the one
    of the account of one of its roles, [prompt_role_choices] returns no
    selection, whatever the user types. *)
Theorem missing_alias_blocks_the_menu :
  forall (net : network) (aps : dict app) (answers : list nat)
         (url : string) (a : app) (table : dict string) (role account : string),
    In (url, a) aps ->
    get_account_aliases net (saml a) (saml_response_string a) = Returned (Some table) ->
    table <> [] ->
    In role (roles a) ->
    account_of role = Returned account ->
    lookup account table = None ->
    match prompt_role_choices net aps answers with
    | Returned _ => False
    | _ => True
    end.
Proof.
intros net aps answers url a table role account Hin Ht Hne Hr Ha Hl.
unfold prompt_role_choices.
destruct (build_rows net aps) as [rows| |] eqn:Eb; cbn [bind]; try exact I.
exfalso.
destruct (build_rows_each net aps rows Eb url a Hin) as (t & here & H1 & H2 & _).
rewrite Ht in H1. injection H1 as <-.
destruct (app_rows_with_table table _ _ _ here Hne H2 role Hr) as (acc & al & A & B & _).
rewrite Ha in A. injection A as <-. congruence.
Qed.

Lemma missing_alias_blocks_the_menu_witness :
  match prompt_role_choices account_page [(tile_2, with_roles [dev_2])] [0] with
  | Returned _ => False
  | _ => True
  end.
Proof.
apply (missing_alias_blocks_the_menu account_page [(tile_2, with_roles [dev_2])] [0]
         tile_2 (with_roles [dev_2]) [("111111111111", "production")]%string
         dev_2 "222222222222").
- left. reflexivity.
- reflexivity.
- discriminate.
- left. reflexivity.
- reflexivity.
- reflexivity.
Defined.

End AliasFacts.

(** ** The entries of the alias table *)

Module AliasEntryFacts.
Import PyStr PyStrFacts PyDict ItemFacts Roles.

Lemma list_ascii_app s t :
  list_ascii_of_string (s ++ t) = list_ascii_of_string s ++ list_ascii_of_string t.
Proof. induction s as [|c s IH]; simpl; [reflexivity | now rewrite IH]. Qed.

Lemma reverse_app s t : reverse (s ++ t) = (reverse t ++ reverse s)%string.
Proof.
unfold reverse. now rewrite list_ascii_app, rev_app_distr, string_of_list_ascii_app.
Qed.

Lemma reverse_involutive s : reverse (reverse s) = s.
Proof.
unfold reverse.
now rewrite list_ascii_of_string_of_list_ascii, rev_involutive,
  string_of_list_ascii_of_string.
Qed.

Lemma has_char_reverse c s : has_char c (reverse s) = has_char c s.
Proof.
induction s as [|a s IH]; [reflexivity|].
change (String a s) with ((String a "") ++ s)%string.
rewrite reverse_app, !has_char_app, IH. apply orb_comm.
Qed.

Lemma lstrip_none s :
  has_char "(" s = false -> has_char ")" s = false -> lstrip "()" s = s.
Proof.
destruct s as [|c s]; [reflexivity|]. cbn [has_char lstrip]. intros H1 H2.
apply orb_false_iff in H1, H2. destruct H1 as [H1 _], H2 as [H2 _].
rewrite Ascii.eqb_sym in H1. rewrite Ascii.eqb_sym in H2.
now rewrite H1, H2.
Qed.

Lemma strip_parentheses s :
  has_char "(" s = false -> has_char ")" s = false ->
  strip "()" ("(" ++ s ++ ")") = s.
Proof.
intros H1 H2. unfold strip.
destruct s as [|c s]; [reflexivity|].
assert (E : lstrip "()" ("(" ++ String c s ++ ")") = (String c s ++ ")")%string).
{ cbn [append lstrip has_char]. cbn [has_char] in H1, H2.
  apply orb_false_iff in H1, H2. destruct H1 as [H1 _], H2 as [H2 _].
  rewrite Ascii.eqb_sym in H1. rewrite Ascii.eqb_sym in H2.
  rewrite Ascii.eqb_refl. cbn [orb]. now rewrite H1, H2. }
rewrite E, reverse_app.
change (reverse ")") with ")"%string.
change (")" ++ reverse (String c s))%string with (String ")" (reverse (String c s))).
cbn [lstrip has_char]. rewrite Ascii.eqb_refl, orb_true_r.
rewrite lstrip_none by now rewrite has_char_reverse.
apply reverse_involutive.
Qed.

(** X9.  A string of the page of the form [Account: alias (id)], where
    the alias holds no blank and the account id neither a blank nor a
    parenthesis, gives the entry of the alias table that maps the id to
    the alias. *)
Theorem alias_entry_reads_account_line :
  forall alias id : string,
    has_char " " alias = false ->
    has_char " " id = false ->
    has_char "(" id = false ->
    has_char ")" id = false ->
    alias_entry ("Account: " ++ alias ++ " (" ++ id ++ ")") = Returned (id, alias).
Proof.
intros alias id Ha Hi Hl Hr. unfold alias_entry, split.
change ("Account: " ++ alias ++ " (" ++ id ++ ")")%string
  with ("Account:" ++ String " " (alias ++ String " " ("(" ++ id ++ ")")))%string.
rewrite split_scan_field by reflexivity.
rewrite split_scan_field by assumption.
rewrite split_scan_last.
2:{ change ("(" ++ id ++ ")")%string with (String "(" (id ++ ")")).
    cbn [has_char]. rewrite has_char_app, Hi. reflexivity. }
cbn [rev string_of_list_ascii append item nth_error bind last].
change (String "(" (id ++ ")")) with ("(" ++ id ++ ")")%string.
now rewrite strip_parentheses.
Qed.

Lemma alias_entry_reads_account_line_witness :
  alias_entry "Account: production (123456789012)" =
  Returned ("123456789012"%string, "production"%string).
Proof.
apply (alias_entry_reads_account_line "production" "123456789012"); reflexivity.
Defined.

End AliasEntryFacts.

(** ** The two URLs of a configuration *)

Module UrlPairFacts.
Import PyStr PyStrFacts Codec Urls UrlsFacts.

Local Notation "'unsafe'" := (String "009" (String "013" (String "010" ""))).
Local Notation "'safe' s" :=
  (all_chars (fun c => negb (has_char c unsafe)) s = true) (at level 10, s at level 9).
Local Notation "'hostlike' s" :=
  (all_chars (fun c => negb (has_char c "/?#")) s = true) (at level 10, s at level 9).

Lemma all_chars_app f a b : all_chars f (a ++ b) = all_chars f a && all_chars f b.
Proof.
induction a as [|c a IH]; cbn [append all_chars]; [reflexivity|].
now rewrite IH, andb_assoc.
Qed.

Lemma safe_remove s : safe (remove_unsafe s).
Proof.
induction s as [|c s IH]; [reflexivity|]. cbn [remove_unsafe].
destruct (has_char c unsafe) eqn:E; [exact IH|].
cbn [all_chars]. now rewrite E, IH.
Qed.

Lemma remove_safe s : safe s -> remove_unsafe s = s.
Proof.
induction s as [|c s IH]; [reflexivity|]. cbn [all_chars remove_unsafe]. intros H.
apply andb_true_iff in H. destruct H as [Hc Hs].
apply negb_true_iff in Hc. now rewrite Hc, IH.
Qed.

Lemma break_at_parts stop s :
  s = (fst (break_at stop s) ++ snd (break_at stop s))%string /\
  all_chars (fun c => negb (stop c)) (fst (break_at stop s)) = true.
Proof.
induction s as [|c s [IH1 IH2]]; [split; reflexivity|]. cbn [break_at].
destruct (stop c) eqn:E; [split; reflexivity|].
destruct (break_at stop s) as [a b]. cbn [fst snd] in *.
split; [cbn [append]; now rewrite <- IH1 | cbn [all_chars]; now rewrite E, IH2].
Qed.

Lemma break_at_clean stop s :
  all_chars (fun c => negb (stop c)) s = true -> break_at stop s = (s, ""%string).
Proof.
induction s as [|c s IH]; [reflexivity|]. cbn [all_chars break_at]. intros H.
apply andb_true_iff in H. destruct H as [Hc Hs].
apply negb_true_iff in Hc. now rewrite Hc, IH.
Qed.

Lemma safe_drop n : forall s, safe s -> safe (drop n s).
Proof.
induction n as [|n IH]; intros s H; [exact H|]. destruct s as [|c s]; [exact H|].
cbn [drop]. apply IH. cbn [all_chars] in H. now apply andb_true_iff in H.
Qed.

Lemma safe_break_at stop s :
  safe s -> safe (fst (break_at stop s)) /\ safe (snd (break_at stop s)).
Proof.
intros H. destruct (break_at_parts stop s) as [E _]. rewrite E in H.
rewrite all_chars_app in H. now apply andb_true_iff in H.
Qed.

Lemma safe_cut c s a b : safe s -> cut c s = (a, Some b) -> safe b.
Proof.
intros H. unfold cut. destruct (safe_break_at (Ascii.eqb c) s H) as [_ Hb].
destruct (break_at (Ascii.eqb c) s) as [x y]. cbn [snd] in Hb.
destruct y as [|d y]; intros [= <- <-].
cbn [all_chars] in Hb. now apply andb_true_iff in Hb.
Qed.

Lemma safe_split_scheme u : safe u -> safe (snd (split_scheme u)).
Proof.
intros H. unfold split_scheme.
destruct (cut ":" u) as [[|c0 pre] [rest|]] eqn:E; cbn [snd]; try exact H.
destruct (Nat.ltb (code c0) 128 && is_alpha c0 && all_chars scheme_char (String c0 pre));
  cbn [snd]; [now apply (safe_cut _ _ _ _ H E) | exact H].
Qed.

(** The host [urlparse] returns. *)
Lemma urlparse_netloc u r :
  urlparse u = Returned r ->
  safe (netloc r) /\ hostlike (netloc r) /\
  xorb (has_char "[" (netloc r)) (has_char "]" (netloc r)) = false.
Proof.
unfold urlparse. intros H.
pose proof (safe_split_scheme _ (safe_remove (lstrip_c0 u))) as Hs.
destruct (split_scheme (remove_unsafe (lstrip_c0 u))) as [sch v]. cbn [snd] in Hs.
assert (Hn : forall net w,
  (if startswith v "//"
   then break_at (fun c => has_char c "/?#") (drop 2 v)
   else (EmptyString, v)) = (net, w) -> safe net /\ hostlike net).
{ intros net w E. destruct (startswith v "//").
  - destruct (safe_break_at (fun c => has_char c "/?#") (drop 2 v) (safe_drop 2 v Hs))
      as [H1 _].
    destruct (break_at_parts (fun c => has_char c "/?#") (drop 2 v)) as [_ H2].
    rewrite E in H1, H2. now split.
  - injection E as <- <-. now split. }
destruct (if startswith v "//"
          then break_at (fun c => has_char c "/?#") (drop 2 v)
          else (EmptyString, v)) as [net w].
destruct (Hn net w eq_refl) as [H1 H2].
destruct (xorb (has_char "[" net) (has_char "]" net)) eqn:Ex; [discriminate|].
destruct (cut "#" w) as [w1 frag]. destruct (cut "?" w1) as [w2 qry].
destruct (if existsb (String.eqb sch) uses_params
          then match semicolon 0 None w2 with
               | Some i => (substring 0 i w2, drop (S i) w2)
               | None => (w2, EmptyString)
               end
          else (w2, EmptyString)) as [w3 prm].
injection H as <-. cbn [netloc]. auto.
Qed.

(** The origin of a parsed URL parses as an organization URL. *)
Lemma urlparse_origin net :
  safe net -> hostlike net ->
  xorb (has_char "[" net) (has_char "]" net) = false ->
  urlparse ("https" ++ "://" ++ net) =
  Returned {| scheme := "https"; netloc := net; path := ""; params := "";
              query := ""; fragment := "" |}.
Proof.
intros Hs Hh Hx. unfold urlparse.
change (lstrip_c0 ("https" ++ "://" ++ net)) with ("https://" ++ net)%string.
assert (E1 : remove_unsafe ("https://" ++ net) = ("https://" ++ net)%string).
{ apply remove_safe. rewrite all_chars_app, Hs. reflexivity. }
rewrite E1.
change (split_scheme ("https://" ++ net)) with ("https"%string, ("//" ++ net)%string).
cbv iota beta.
rewrite (startswith_app "//" net).
change (drop 2 ("//" ++ net)) with net.
rewrite (break_at_clean _ net Hh), Hx. reflexivity.
Qed.

(** X10.  The origin [get_base_url] takes from a URL that passes
    [validate_okta_app_url] is not empty and passes
    [validate_okta_org_url]. *)
Theorem app_url_origin_is_valid_org_url :
  forall u : string,
    validate_okta_app_url u = Returned true ->
    exists b,
      get_base_url u = Returned b /\
      b <> ""%string /\
      validate_okta_org_url b = Returned true.
Proof.
intros u H. unfold validate_okta_app_url in H. unfold get_base_url.
destruct (urlparse u) as [r| |] eqn:E; cbn [bind] in *; try discriminate.
injection H as H. apply andb_true_iff in H. destruct H as [Hsch _].
apply String.eqb_eq in Hsch. rewrite Hsch.
destruct (urlparse_netloc u r E) as (H1 & H2 & H3).
exists ("https" ++ "://" ++ netloc r)%string. split; [reflexivity|].
split; [discriminate|].
unfold validate_okta_org_url. now rewrite urlparse_origin.
Qed.

Lemma app_url_origin_is_valid_org_url_witness :
  exists b,
    get_base_url acme_tile = Returned b /\
    b <> ""%string /\
    validate_okta_org_url b = Returned true.
Proof.
apply (app_url_origin_is_valid_org_url acme_tile). reflexivity.
Defined.

(** X11.  No URL passes both validators: one that passes
    [validate_okta_org_url] fails [validate_okta_app_url]. *)
Theorem org_url_is_no_app_url :
  forall u : string,
    validate_okta_org_url u = Returned true ->
    validate_okta_app_url u = Returned false.
Proof.
intros u. unfold validate_okta_org_url, validate_okta_app_url.
destruct (urlparse u) as [r| |]; cbn [bind]; try discriminate.
intros [= H]. apply andb_true_iff in H. destruct H as [H _].
apply andb_true_iff in H. destruct H as [H _].
apply andb_true_iff in H. destruct H as [H _].
apply andb_true_iff in H. destruct H as [_ H].
apply orb_true_iff in H. f_equal.
destruct H as [Hp|Hp]; apply String.eqb_eq in Hp; rewrite Hp;
  unfold tile_path; cbn [startswith andb]; apply andb_false_r.
Qed.

Lemma org_url_is_no_app_url_witness :
  validate_okta_app_url "https://acme.okta.com/" = Returned false.
Proof.
apply (org_url_is_no_app_url "https://acme.okta.com/"). reflexivity.
Defined.

(** X12.  A configuration with a user name, a password and an app URL
    that passes [validate_okta_app_url] is sanitized to one whose
    organization URL is the origin of the app URL, and the validation of
    the result finds nothing when the app URL starts with that origin and
    the same-domain message alone when it does not. *)
Theorem app_url_alone_suffices :
  forall (a : allowed) (c : config) (u : string),
    given (username (okta c)) = true ->
    given (password (okta c)) = true ->
    app_url (okta c) = Some u ->
    validate_okta_app_url u = Returned true ->
    exists b c',
      get_base_url u = Returned b /\
      sanitize_config_values a c = Returned c' /\
      org (okta c') = Some b /\
      validate_configuration c' =
      Returned (if startswith u b then [] else [same_domain_message b u]).
Proof.
intros a c u Hu Hp Happ Hv.
assert (Hne : u <> ""%string) by (intros ->; discriminate).
destruct (given_text _ _ Happ Hne) as [Hg Ht].
unfold validate_okta_app_url in Hv. unfold get_base_url.
destruct (urlparse u) as [r| |] eqn:E; cbn [bind] in Hv; try discriminate.
pose proof Hv as Hv'. injection Hv' as Hv'.
apply andb_true_iff in Hv'. destruct Hv' as [Hsch _]. apply String.eqb_eq in Hsch.
destruct (urlparse_netloc u r E) as (H1 & H2 & H3).
exists ("https" ++ "://" ++ netloc r)%string. eexists.
split; [cbn [bind]; now rewrite Hsch|].
unfold sanitize_config_values, get_base_url. rewrite Hg, Ht, E. cbn [bind]. rewrite Hsch.
split; [reflexivity|]. split; [reflexivity|].
assert (Hb : (scheme r =? "https")%string && tile_path (path r) = true)
  by now injection Hv.
destruct u as [|c0 u']; [contradiction|].
unfold validate_configuration. cbn [okta org app_url username password].
rewrite Hu, Hp, Happ. cbn [negb andb given text append].
unfold validate_okta_app_url. rewrite E. cbn [bind]. rewrite Hb.
unfold validate_okta_org_url.
change (String "h" (String "t" (String "t" (String "p" (String "s"
         (String ":" (String "/" (String "/" (netloc r)))))))))
  with ("https" ++ "://" ++ netloc r)%string.
rewrite (urlparse_origin _ H1 H2 H3). cbn [bind scheme path params query fragment].
change (String.eqb "https" "https") with true. cbn [String.eqb andb orb].
destruct (startswith (String c0 u') ("https" ++ "://" ++ netloc r)); reflexivity.
Qed.

Lemma app_url_alone_suffices_witness :
  exists b c',
    get_base_url acme_tile = Returned b /\
    sanitize_config_values sample_allowed (settings None (Some acme_tile)) = Returned c' /\
    org (okta c') = Some b /\
    validate_configuration c' =
    Returned (if startswith acme_tile b then [] else [same_domain_message b acme_tile]).
Proof.
apply (app_url_alone_suffices sample_allowed (settings None (Some acme_tile)) acme_tile);
  reflexivity.
Defined.

(** The second case occurs: the scheme is compared in lower case by the
    validator and as typed by the prefix test. *)
Example upper_case_scheme_is_rejected :
  let u := "HTTPS://acme.okta.com/home/amazon_aws/0oa1bcdefghij2klmnop/272"%string in
  validate_okta_app_url u = Returned true /\
  get_base_url u = Returned "https://acme.okta.com"%string /\
  match sanitize_config_values sample_allowed (settings None (Some u)) with
  | Returned c' => validate_configuration c'
  | _ => Returned []
  end = Returned [same_domain_message "https://acme.okta.com" u].
Proof. cbv zeta. repeat split; reflexivity. Qed.

(** X13.  [sanitize_config_values] is idempotent: sanitizing a sanitized
    configuration changes nothing. *)
Theorem sanitize_config_values_idempotent :
  forall (a : allowed) (c c' : config),
    sanitize_config_values a c = Returned c' ->
    sanitize_config_values a c' = Returned c'.
Proof.
intros a c c' H. unfold sanitize_config_values in H.
assert (Ho : forall o,
  (if existsb (String.eqb o) (output_types a) then o else default_output a) =
  (if existsb (String.eqb (if existsb (String.eqb o) (output_types a)
                           then o else default_output a)) (output_types a)
   then (if existsb (String.eqb o) (output_types a) then o else default_output a)
   else default_output a)).
{ intros o. destruct (existsb (String.eqb o) (output_types a)) eqn:E; cbv iota.
  - now rewrite E.
  - destruct (existsb (String.eqb (default_output a)) (output_types a)); reflexivity. }
assert (Hr : forall o,
  (if existsb (String.eqb o) (regions a) then o else default_region a) =
  (if existsb (String.eqb (if existsb (String.eqb o) (regions a)
                           then o else default_region a)) (regions a)
   then (if existsb (String.eqb o) (regions a) then o else default_region a)
   else default_region a)).
{ intros o. destruct (existsb (String.eqb o) (regions a)) eqn:E; cbv iota.
  - now rewrite E.
  - destruct (existsb (String.eqb (default_region a)) (regions a)); reflexivity. }
destruct (given (app_url (okta c))) eqn:Hg.
- destruct (get_base_url (text (app_url (okta c)))) as [b| |] eqn:Eb;
    cbn [bind] in H; try discriminate.
  injection H as <-. unfold sanitize_config_values.
  cbn [okta aws app_url output region username password org].
  rewrite Hg, Eb. cbn [bind]. now rewrite <- Ho, <- Hr.
- cbn [bind] in H. injection H as <-. unfold sanitize_config_values.
  cbn [okta aws app_url output region]. rewrite Hg. cbn [bind].
  rewrite <- Ho, <- Hr. now destruct c as [o w].
Qed.

Lemma sanitize_config_values_idempotent_witness :
  sanitize_config_values sample_allowed
    (settings (Some "https://acme.okta.com") (Some acme_tile)) =
  Returned (settings (Some "https://acme.okta.com") (Some acme_tile)).
Proof.
apply (sanitize_config_values_idempotent sample_allowed (settings None (Some acme_tile))).
reflexivity.
Defined.

(** X14.  [validate_configuration] returns no message exactly when the
    user name and the password are given, one of the two URLs is given,
    each URL given passes its validator and, when both are given, the app
    URL starts with the organization URL. *)
Theorem validate_configuration_accepts :
  forall c : config,
    validate_configuration c = Returned [] <->
    given (username (okta c)) = true /\
    given (password (okta c)) = true /\
    (given (org (okta c)) = true \/ given (app_url (okta c)) = true) /\
    (given (app_url (okta c)) = true ->
       validate_okta_app_url (text (app_url (okta c))) = Returned true) /\
    (given (org (okta c)) = true ->
       validate_okta_org_url (text (org (okta c))) = Returned true) /\
    (given (org (okta c)) = true -> given (app_url (okta c)) = true ->
       startswith (text (app_url (okta c))) (text (org (okta c))) = true).
Proof.
intros c. unfold validate_configuration.
destruct (given (username (okta c))), (given (password (okta c))),
  (given (org (okta c))), (given (app_url (okta c)));
  cbn [negb andb bind List.app];
  try destruct (validate_okta_app_url (text (app_url (okta c)))) as [[|]| |];
  try destruct (validate_okta_org_url (text (org (okta c)))) as [[|]| |];
  cbn [bind List.app];
  try destruct (startswith (text (app_url (okta c))) (text (org (okta c))));
  cbn [negb List.app];
  (split;
   [ intros Heq;
     first [ discriminate Heq
           | repeat split; auto; try (intros; discriminate) ]
   | intros (A & B & C & D & E & F);
     first [ reflexivity
           | discriminate
           | destruct C; discriminate
           | specialize (D eq_refl); discriminate
           | specialize (E eq_refl); discriminate
           | specialize (F eq_refl eq_refl); discriminate ] ]).
Qed.

End UrlPairFacts.

(** ** The prompts *)

Module InteractiveFacts.
Import PyStr PyStrFacts PyDict PyDictFacts Masking Urls Ini IniFacts Interactive.

Lemma with_scheme_starts user_data : startswith (with_scheme user_data) "https://" = true.
Proof.
unfold with_scheme. destruct (startswith user_data "https://") eqn:E; [exact E|].
apply (startswith_app "https://" user_data).
Qed.

Lemma get_org_url_post strip answers : forall res rest,
  get_org_url strip answers = Returned (res, rest) ->
  empty_or validate_okta_org_url res.
Proof.
induction answers as [|a answers IH]; intros res rest H; [discriminate|].
cbn [get_org_url] in H. destruct (String.eqb (strip a) "").
- injection H as <- _. now left.
- destruct (validate_okta_org_url (with_scheme (strip a))) as [[|]| |] eqn:E;
    try discriminate.
  + injection H as <- _. right. split; [apply with_scheme_starts | exact E].
  + now apply (IH res rest).
Qed.

Lemma get_app_url_post strip answers : forall res rest,
  get_app_url strip answers = Returned (res, rest) ->
  empty_or validate_okta_app_url res.
Proof.
induction answers as [|a answers IH]; intros res rest H; [discriminate|].
cbn [get_app_url] in H. destruct (String.eqb (strip a) "").
- injection H as <- _. now left.
- destruct (validate_okta_app_url (with_scheme (strip a))) as [[|]| |] eqn:E;
    try discriminate.
  + injection H as <- _. right. split; [apply with_scheme_starts | exact E].
  + now apply (IH res rest).
Qed.

Lemma get_username_post strip answers : forall res rest,
  get_username strip answers = Returned (res, rest) -> res <> ""%string.
Proof.
induction answers as [|a answers IH]; intros res rest H; [discriminate|].
cbn [get_username] in H. destruct (String.eqb (strip a) "") eqn:E; cbn [negb] in H.
- now apply (IH res rest).
- injection H as <- _. now apply String.eqb_neq.
Qed.

Lemma get_password_post answers : forall res rest,
  get_password answers = Returned (res, rest) -> res <> ""%string.
Proof.
induction answers as [|a answers IH]; intros res rest H; [discriminate|].
cbn [get_password] in H. destruct (String.eqb a "") eqn:E.
- now apply (IH res rest).
- injection H as <- _. now apply String.eqb_neq.
Qed.

(** The answers left are a tail of the answers given. *)
Lemma get_org_url_rest strip answers : forall res rest,
  get_org_url strip answers = Returned (res, rest) -> exists pre, answers = pre ++ rest.
Proof.
induction answers as [|a answers IH]; intros res rest H; [discriminate|].
cbn [get_org_url] in H. destruct (String.eqb (strip a) "").
- injection H as _ <-. now exists [a].
- destruct (validate_okta_org_url (with_scheme (strip a))) as [[|]| |];
    try discriminate.
  + injection H as _ <-. now exists [a].
  + destruct (IH res rest H) as [pre ->]. now exists (a :: pre).
Qed.

Lemma get_app_url_rest strip answers : forall res rest,
  get_app_url strip answers = Returned (res, rest) -> exists pre, answers = pre ++ rest.
Proof.
induction answers as [|a answers IH]; intros res rest H; [discriminate|].
cbn [get_app_url] in H. destruct (String.eqb (strip a) "").
- injection H as _ <-. now exists [a].
- destruct (validate_okta_app_url (with_scheme (strip a))) as [[|]| |];
    try discriminate.
  + injection H as _ <-. now exists [a].
  + destruct (IH res rest H) as [pre ->]. now exists (a :: pre).
Qed.

Lemma get_username_rest strip answers : forall res rest,
  get_username strip answers = Returned (res, rest) -> exists pre, answers = pre ++ rest.
Proof.
induction answers as [|a answers IH]; intros res rest H; [discriminate|].
cbn [get_username] in H. destruct (String.eqb (strip a) ""); cbn [negb] in H.
- destruct (IH res rest H) as [pre ->]. now exists (a :: pre).
- injection H as _ <-. now exists [a].
Qed.

Lemma get_password_typed answers : forall res rest,
  get_password answers = Returned (res, rest) -> In res answers.
Proof.
induction answers as [|a answers IH]; intros res rest H; [discriminate|].
cbn [get_password] in H. destruct (String.eqb a "").
- right. now apply (IH res rest).
- injection H as <- _. now left.
Qed.

Lemma get_interactive_config_rest strip app_url org_url username answers details rest :
  get_interactive_config strip app_url org_url username answers = Returned (details, rest) ->
  exists pre, answers = pre ++ rest.
Proof.
unfold get_interactive_config. intros H.
assert (Hu : forall r1 u r2,
  (if is_empty username
   then u <- get_username strip r1 ;; Returned (VStr (fst u), snd u)
   else Returned (username, r1)) = Returned (u, r2) -> exists pre, r1 = pre ++ r2).
{ intros r1 u r2 E. destruct (is_empty username).
  - destruct (get_username strip r1) as [[su r3]| |] eqn:Eg; cbn [bind] in E;
      try discriminate.
    cbn [fst snd] in E. injection E as _ <-. now apply (get_username_rest strip r1 su).
  - injection E as _ <-. now exists []. }
destruct (is_none org_url && is_none app_url).
- destruct (get_org_url strip answers) as [[so r1]| |] eqn:Eo; cbn [bind] in H;
    try discriminate.
  cbn [fst snd] in H.
  destruct (get_app_url strip r1) as [[sa r2]| |] eqn:Ea; cbn [bind] in H;
    try discriminate.
  cbn [fst snd] in H.
  destruct (if is_empty username
            then u <- get_username strip r2 ;; Returned (VStr (fst u), snd u)
            else Returned (username, r2)) as [[u r3]| |] eqn:En; cbn [bind] in H;
    try discriminate.
  injection H as _ <-.
  destruct (get_org_url_rest _ _ _ _ Eo) as [p1 ->].
  destruct (get_app_url_rest _ _ _ _ Ea) as [p2 ->].
  destruct (Hu _ _ _ En) as [p3 ->].
  exists (p1 ++ p2 ++ p3). now rewrite <- !app_assoc.
- cbn [bind] in H.
  destruct (if is_empty username
            then u <- get_username strip answers ;; Returned (VStr (fst u), snd u)
            else Returned (username, answers)) as [[u r3]| |] eqn:En; cbn [bind] in H;
    try discriminate.
  injection H as _ <-. now apply (Hu _ _ _ En).
Qed.

(** X15.  What [get_org_url] and [get_app_url] return is the empty
    string or a text that starts with [https://] and passes the validator
    of its kind, whatever the user types. *)
Theorem url_prompts_return_empty_or_valid :
  forall (strip : string -> string) (answers : list string),
    (forall res rest,
        get_org_url strip answers = Returned (res, rest) ->
        empty_or validate_okta_org_url res) /\
    (forall res rest,
        get_app_url strip answers = Returned (res, rest) ->
        empty_or validate_okta_app_url res).
Proof.
intros strip answers. split; [apply get_org_url_post | apply get_app_url_post].
Qed.

Lemma url_prompts_return_empty_or_valid_witness :
  empty_or validate_okta_org_url "https://acme.okta.com".
Proof.
apply (proj1 (url_prompts_return_empty_or_valid strip_blanks
                ["ftp://acme.okta.com/x"; " acme.okta.com "; "later"])
         "https://acme.okta.com"%string ["later"%string]).
reflexivity.
Defined.

(** The dictionary [get_interactive_config] returns. *)
Lemma get_interactive_config_details strip app_url org_url username answers details rest :
  get_interactive_config strip app_url org_url username answers = Returned (details, rest) ->
  exists o a u,
    details = assign "okta_username" u
                (if negb (is_none a) then assign "okta_app_url" a
                   (if negb (is_none o) then assign "okta_org" o [] else [])
                 else if negb (is_none o) then assign "okta_org" o [] else []) /\
    is_empty u = false /\
    (is_none org_url && is_none app_url = true ->
       exists so sa,
         o = VStr so /\ a = VStr sa /\
         empty_or validate_okta_org_url so /\ empty_or validate_okta_app_url sa) /\
    (is_none org_url && is_none app_url = false -> o = org_url /\ a = app_url) /\
    (is_empty username = true -> exists su, u = VStr su) /\
    (is_empty username = false -> u = username).
Proof.
unfold get_interactive_config. intros H.
destruct (is_none org_url && is_none app_url) eqn:En.
- destruct (get_org_url strip answers) as [[so r1]| |] eqn:Eo; cbn [bind] in H;
    try discriminate.
  cbn [fst snd] in H.
  destruct (get_app_url strip r1) as [[sa r2]| |] eqn:Ea; cbn [bind] in H;
    try discriminate.
  cbn [fst snd] in H.
  destruct (is_empty username) eqn:Eu.
  + destruct (get_username strip r2) as [[su r3]| |] eqn:Eg; cbn [bind] in H;
      try discriminate.
    cbn [fst snd] in H. injection H as <- <-.
    exists (VStr so), (VStr sa), (VStr su). split; [reflexivity|].
    pose proof (get_username_post _ _ _ _ Eg) as Hsu.
    split; [destruct su; [contradiction | reflexivity]|].
    split; [intros _; exists so, sa; repeat split;
            [now apply (get_org_url_post strip answers so r1)
            |now apply (get_app_url_post strip r1 sa r2)]|].
    split; [discriminate|]. split; [eauto | discriminate].
  + cbn [bind] in H. injection H as <- <-.
    exists (VStr so), (VStr sa), username. split; [reflexivity|].
    split; [exact Eu|].
    split; [intros _; exists so, sa; repeat split;
            [now apply (get_org_url_post strip answers so r1)
            |now apply (get_app_url_post strip r1 sa r2)]|].
    split; [discriminate|]. split; [discriminate | reflexivity].
- cbn [bind] in H. destruct (is_empty username) eqn:Eu.
  + destruct (get_username strip answers) as [[su r3]| |] eqn:Eg; cbn [bind] in H;
      try discriminate.
    cbn [fst snd] in H. injection H as <- <-.
    exists org_url, app_url, (VStr su). split; [reflexivity|].
    pose proof (get_username_post _ _ _ _ Eg) as Hsu.
    split; [destruct su; [contradiction | reflexivity]|].
    split; [discriminate|]. split; [auto|]. split; [eauto | discriminate].
  + cbn [bind] in H. injection H as <- <-.
    exists org_url, app_url, username. split; [reflexivity|].
    split; [exact Eu|].
    split; [discriminate|]. split; [auto|]. split; [discriminate | reflexivity].
Qed.

(** X16.  The dictionary [get_interactive_config] returns always holds a
    user name, and never the empty string for it. *)
Theorem interactive_username_is_not_empty :
  forall (strip : string -> string) (app_url org_url username : pyval)
         (answers rest : list string) (details : dict pyval),
    get_interactive_config strip app_url org_url username answers =
      Returned (details, rest) ->
    exists u, lookup "okta_username" details = Some u /\ is_empty u = false.
Proof.
intros strip app_url org_url username answers rest details H.
destruct (get_interactive_config_details _ _ _ _ _ _ _ H) as (o & a & u & -> & Hu & _).
exists u. split; [apply lookup_assign_eq | exact Hu].
Qed.

Lemma interactive_username_is_not_empty_witness :
  exists u,
    lookup "okta_username"
      [("okta_app_url", VStr acme_tile); ("okta_username", VStr "jane.doe")] = Some u /\
    is_empty u = false.
Proof.
apply (interactive_username_is_not_empty strip_blanks (VStr acme_tile) VNone (VStr "")
         ["  "; " jane.doe "] []).
reflexivity.
Defined.

(** X17.  The two URLs are asked for once: when the user leaves both
    empty, [get_interactive_config] goes on and returns the empty string
    for both. *)
Theorem interactive_urls_may_both_be_empty :
  forall (strip : string -> string) (username : pyval)
         (first second : string) (rest : list string),
    strip first = ""%string ->
    strip second = ""%string ->
    is_empty username = false ->
    get_interactive_config strip VNone VNone username (first :: second :: rest) =
    Returned ([("okta_org", VStr ""); ("okta_app_url", VStr "");
               ("okta_username", username)], rest).
Proof.
intros strip username first second rest H1 H2 Hu. unfold get_interactive_config.
cbn [is_none andb get_org_url]. rewrite H1. cbn [String.eqb bind fst snd get_app_url].
rewrite H2. cbn [String.eqb bind fst snd]. rewrite Hu. reflexivity.
Qed.

Lemma interactive_urls_may_both_be_empty_witness :
  get_interactive_config strip_blanks VNone VNone (VStr "jane.doe") [""; "  "; "next"] =
  Returned ([("okta_org", VStr ""); ("okta_app_url", VStr "");
             ("okta_username", VStr "jane.doe")], ["next"%string]).
Proof.
apply (interactive_urls_may_both_be_empty strip_blanks (VStr "jane.doe") "" "  " ["next"%string]);
  reflexivity.
Defined.

Lemma process_interactive_input_returns strip okta mask_items answers res m rest :
  process_interactive_input strip okta mask_items answers = Returned (res, m, rest) ->
  exists details answers',
    (app_url <- subscript okta "app_url" ;;
     org_url <- subscript okta "org" ;;
     username <- subscript okta "username" ;;
     get_interactive_config strip app_url org_url username answers) =
      Returned (details, answers') /\
    let copied := copy details "okta_username" "username"
                    (copy details "okta_org_url" "org"
                       (copy details "okta_app_url" "app_url" [])) in
    if negb (mem "password" okta) ||
       match lookup "password" okta with
       | Some v => is_empty v
       | None => false
       end
    then exists p, get_password answers' = Returned (p, rest) /\
                   res = assign "password" (VStr p) copied /\
                   m = add_sensitive_value_to_be_masked (VStr p) None mask_items
    else res = copied /\ m = mask_items /\ rest = answers'.
Proof.
unfold process_interactive_input. intros H.
destruct (app_url <- subscript okta "app_url" ;;
          org_url <- subscript okta "org" ;;
          username <- subscript okta "username" ;;
          get_interactive_config strip app_url org_url username answers)
  as [[details answers']|code|e]; [|discriminate|destruct e; discriminate].
exists details, answers'. split; [reflexivity|]. cbv zeta.
destruct (negb (mem "password" okta) ||
          match lookup "password" okta with
          | Some v => is_empty v
          | None => false
          end).
- destruct (get_password answers') as [[p r]| |]; cbn [bind] in H; try discriminate.
  cbn [fst snd] in H. injection H as <- <- <-. exists p. auto.
- injection H as <- <- <-. auto.
Qed.

Lemma config_of_call strip okta answers details answers' :
  (app_url <- subscript okta "app_url" ;;
   org_url <- subscript okta "org" ;;
   username <- subscript okta "username" ;;
   get_interactive_config strip app_url org_url username answers) =
    Returned (details, answers') ->
  exists app_url org_url username,
    get_interactive_config strip app_url org_url username answers =
      Returned (details, answers').
Proof.
intros H.
destruct (subscript okta "app_url") as [a| |]; cbn [bind] in H; try discriminate.
destruct (subscript okta "org") as [o| |]; cbn [bind] in H; try discriminate.
destruct (subscript okta "username") as [u| |]; cbn [bind] in H; try discriminate.
eauto.
Qed.

(** X18.  [process_interactive_input] never sets the organization URL:
    [get_interactive_config] files it under [okta_org], the key read back
    is [okta_org_url]. *)
Theorem interactive_org_url_is_dropped :
  forall (strip : string -> string) (okta : dict pyval) (mask_items m : registry)
         (answers rest : list string) (res : dict pyval),
    process_interactive_input strip okta mask_items answers = Returned (res, m, rest) ->
    lookup "org" res = None.
Proof.
intros strip okta mask_items m answers rest res H.
destruct (process_interactive_input_returns _ _ _ _ _ _ _ H)
  as (details & answers' & Hc & Hres).
destruct (config_of_call _ _ _ _ _ Hc) as (a0 & o0 & u0 & Hg).
destruct (get_interactive_config_details _ _ _ _ _ _ _ Hg) as (o & a & u & Hd & _).
assert (Hcopied : lookup "org"
          (copy details "okta_username" "username"
             (copy details "okta_org_url" "org"
                (copy details "okta_app_url" "app_url" []))) = None).
{ subst details. unfold copy.
  destruct (negb (is_none a)), (negb (is_none o)); reflexivity. }
cbv zeta in Hres.
destruct (negb (mem "password" okta) || _).
- destruct Hres as (p & _ & -> & _).
  rewrite lookup_assign_ne by discriminate. exact Hcopied.
- destruct Hres as (-> & _). exact Hcopied.
Qed.

Lemma interactive_org_url_is_dropped_witness :
  lookup "org" [("app_url", VStr ""); ("username", VStr "jane.doe")] = None.
Proof.
apply (interactive_org_url_is_dropped strip_blanks
         [("app_url", VNone); ("org", VNone); ("username", VStr "");
          ("password", VStr "pw")] [] []
         ["acme.okta.com"; ""; "jane.doe"] []).
reflexivity.
Defined.

(** X19.  When the configuration holds no password, or the empty string
    for one, the password [process_interactive_input] returns is what the
    user typed, is not empty and is in the registry of values to mask. *)
Theorem interactive_password_is_registered :
  forall (strip : string -> string) (okta : dict pyval) (mask_items m : registry)
         (answers rest : list string) (res : dict pyval),
    lookup "password" okta = None \/ lookup "password" okta = Some (VStr "") ->
    process_interactive_input strip okta mask_items answers = Returned (res, m, rest) ->
    exists p,
      p <> ""%string /\
      In p answers /\
      lookup "password" res = Some (VStr p) /\
      In (VStr p) m.
Proof.
intros strip okta mask_items m answers rest res Hp H.
destruct (process_interactive_input_returns _ _ _ _ _ _ _ H)
  as (details & answers' & Hc & Hres).
cbv zeta in Hres.
assert (E : negb (mem "password" okta) ||
            match lookup "password" okta with
            | Some v => is_empty v
            | None => false
            end = true).
{ unfold mem. destruct Hp as [-> | ->]; reflexivity. }
rewrite E in Hres. destruct Hres as (p & Hg & -> & ->).
exists p. split; [now apply (get_password_post answers' p rest)|].
split; [|split; [apply lookup_assign_eq|]].
- destruct (config_of_call _ _ _ _ _ Hc) as (a0 & o0 & u0 & Hcfg).
  destruct (get_interactive_config_rest _ _ _ _ _ _ _ Hcfg) as [pre ->].
  apply in_or_app. right. now apply (get_password_typed answers' p rest).
- unfold add_sensitive_value_to_be_masked. cbn [is_sensitive].
  apply in_or_app. right. now left.
Qed.

Lemma interactive_password_is_registered_witness :
  exists p,
    p <> ""%string /\
    In p ["jane.doe"; ""; "s3cr3t"]%string /\
    lookup "password"
      [("app_url", VStr acme_tile); ("username", VStr "jane.doe");
       ("password", VStr "s3cr3t")] = Some (VStr p) /\
    In (VStr p) [VStr "s3cr3t"].
Proof.
apply (interactive_password_is_registered strip_blanks
         [("app_url", VStr acme_tile); ("org", VNone); ("username", VStr "")] [] _
         ["jane.doe"; ""; "s3cr3t"] []).
- left. reflexivity.
- reflexivity.
Defined.

End InteractiveFacts.

(** ** Writing profiles: [update_ini] under [set_local_credentials] and
    [update_configuration] *)

Module WritingFacts.
Import PyStr PyStrFacts PyDict PyDictFacts Masking Urls Ini IniFacts Interactive
  InteractiveFacts Credentials.

Lemma set_all_defaults profile kwargs :
  profile = ""%string \/ profile = default_section ->
  forall ini, exists ini', set_all ini profile kwargs = Returned ini'.
Proof.
intros Hp. induction kwargs as [|[k v] kwargs IH]; intros ini; [now exists ini|].
cbn [set_all]. unfold set.
assert (E : String.eqb profile "" || String.eqb profile default_section = true).
{ destruct Hp as [-> | ->]; reflexivity. }
rewrite E. cbn [bind]. apply IH.
Qed.

Lemma set_all_returns ini profile kwargs :
  profile = ""%string \/ profile = default_section \/ has_section ini profile = true ->
  exists ini', set_all ini profile kwargs = Returned ini'.
Proof.
intros H.
destruct (String.eqb profile "") eqn:E1;
  [apply String.eqb_eq in E1; apply set_all_defaults; now left|].
destruct (String.eqb profile default_section) eqn:E2;
  [apply String.eqb_eq in E2; apply set_all_defaults; now right|].
apply String.eqb_neq in E1, E2.
destruct H as [H|[H|H]]; try contradiction.
unfold has_section, mem in H.
destruct (lookup profile (sections ini)) as [opts|] eqn:E; [|discriminate].
destruct (set_all_named profile kwargs E1 E2 ini opts E) as (ini' & _ & Hs & _).
now exists ini'.
Qed.

Lemma has_section_added ini profile ini1 :
  add_section ini profile = Returned ini1 -> has_section ini1 profile = true.
Proof.
unfold add_section. destruct (String.eqb profile default_section); [discriminate|].
destruct (mem profile (sections ini)); [discriminate|]. intros [= <-].
unfold has_section, mem. cbn [sections]. rewrite lookup_app.
destruct (lookup profile (sections ini)); [reflexivity|].
simpl. now rewrite String.eqb_refl.
Qed.

(** The end of [update_ini] after the options have been set. *)
Lemma written_or_failed w (ini2 : parser) e :
  (if write_ok w then Returned ini2 else failed (write_error w)) = Raised e ->
  write_ok w = false /\ write_error w = Some e.
Proof.
unfold failed. destruct (write_ok w); [discriminate|].
destruct (write_error w) as [e1|]; [|discriminate]. intros [= <-]. auto.
Qed.

(** [update_ini] raises for the name of the default section, and what a
    read or a write raised that it does not handle. *)
Lemma update_ini_raises w profile kwargs e :
  update_ini w profile kwargs = Raised e ->
  (profile = default_section /\ e = ValueError) \/
  (read_result w = None /\ read_error w = Some e) \/
  (write_ok w = false /\ write_error w = Some e).
Proof.
unfold update_ini.
destruct (directory_ok w); cbn [negb]; [|discriminate].
destruct (read_result w) as [ini|].
2:{ unfold failed. destruct (read_error w) as [e1|]; [|discriminate].
    intros [= <-]. auto. }
destruct (has_section ini profile) eqn:Eh.
- cbn [bind].
  destruct (set_all_returns ini profile kwargs) as [ini' ->]; [auto|].
  cbn [bind]. intros H. right. right. now apply (written_or_failed w ini').
- destruct (add_section ini profile) as [ini1| |e1] eqn:Ea; cbn [bind].
  + destruct (set_all_returns ini1 profile kwargs) as [ini' ->];
      [right; right; now apply (has_section_added ini)|].
    cbn [bind]. intros H. right. right. now apply (written_or_failed w ini').
  + discriminate.
  + intros [= <-]. left. unfold add_section in Ea.
    destruct (String.eqb profile default_section) eqn:Ed.
    * apply String.eqb_eq in Ed. injection Ea as <-. auto.
    * unfold has_section in Eh. rewrite Eh in Ea. discriminate.
Qed.

(** With the file system in order, the options supplied are in the
    section of the profile afterwards. *)
Lemma update_ini_writes ini profile kwargs :
  profile <> ""%string -> profile <> default_section ->
  exists ini' opts,
    update_ini (fine ini) profile kwargs = Returned ini' /\
    section_of ini' profile = Some opts /\
    forall name v, supplied kwargs name = Some v -> lookup name opts = Some v.
Proof.
intros H1 H2. unfold update_ini, fine. cbn [directory_ok read_result write_ok negb].
assert (Hs : forall ini1, has_section ini1 profile = true ->
  exists ini' opts,
    (ini2 <- set_all ini1 profile kwargs ;; Returned ini2) = Returned ini' /\
    section_of ini' profile = Some opts /\
    forall name v, supplied kwargs name = Some v -> lookup name opts = Some v).
{ intros ini1 Hh. unfold has_section, mem in Hh.
  destruct (lookup profile (sections ini1)) as [opts0|] eqn:E; [|discriminate].
  destruct (set_all_named profile kwargs H1 H2 ini1 opts0 E)
    as (ini' & opts' & Es & _ & _ & S & L).
  exists ini', opts'. rewrite Es. cbn [bind]. repeat split; auto.
  intros name v Hv. now rewrite L, Hv. }
destruct (has_section ini profile) eqn:Eh; cbn [bind].
- destruct (Hs ini Eh) as (ini' & opts & E & S & L). exists ini', opts.
  destruct (set_all ini profile kwargs); cbn [bind] in *; try discriminate. auto.
- destruct (add_section ini profile) as [ini1| |e1] eqn:Ea; cbn [bind].
  + destruct (Hs ini1 (has_section_added _ _ _ Ea)) as (ini' & opts & E & S & L).
    exists ini', opts.
    destruct (set_all ini1 profile kwargs); cbn [bind] in *; try discriminate. auto.
  + unfold add_section in Ea. destruct (String.eqb profile default_section);
      [discriminate|]. destruct (mem profile (sections ini)); discriminate.
  + unfold add_section in Ea. apply String.eqb_neq in H2. rewrite H2 in Ea.
    unfold has_section in Eh. rewrite Eh in Ea. discriminate.
Qed.

(** A failure that [update_ini] handles makes it exit with code 1. *)
Lemma update_ini_fails w profile kwargs :
  profile <> default_section ->
  directory_ok w = false \/
  (read_result w = None /\ read_error w = None) \/
  (read_result w <> None /\ write_ok w = false /\ write_error w = None) ->
  update_ini w profile kwargs = Exited 1.
Proof.
intros Hp H. unfold update_ini.
destruct (directory_ok w); cbn [negb]; [|reflexivity].
destruct (read_result w) as [ini|].
2:{ destruct H as [H|[[_ H]|[H _]]]; [discriminate | now rewrite H | contradiction]. }
destruct H as [H|[[H _]|(_ & Hw & He)]]; try discriminate.
rewrite Hw, He. cbn [failed].
destruct (has_section ini profile) eqn:Eh; cbn [bind].
- destruct (set_all_returns ini profile kwargs) as [ini' ->]; [auto | reflexivity].
- destruct (add_section ini profile) as [ini1| |e1] eqn:Ea; cbn [bind].
  + destruct (set_all_returns ini1 profile kwargs) as [ini' ->];
      [right; right; now apply (has_section_added ini) | reflexivity].
  + unfold add_section in Ea. destruct (String.eqb profile default_section);
      [discriminate|]. destruct (mem profile (sections ini)); discriminate.
  + exfalso. unfold add_section in Ea. apply String.eqb_neq in Hp. rewrite Hp in Ea.
    unfold has_section in Eh. rewrite Eh in Ea. discriminate.
Qed.

Lemma profile_name_named role :
  ("profile " ++ role)%string <> ""%string /\
  ("profile " ++ role)%string <> default_section.
Proof. split; discriminate. Qed.

(** X20.  With the files in order and a role name that is neither empty
    nor the name of the default section, [set_local_credentials] returns
    the role name; the three keys of the reply are then in the section of
    that name of the credentials file, the output type and the region in
    the section [profile <name>] of the configuration file. *)
Theorem credentials_are_written_to_both_files :
  forall (credentials_file config_file : parser) (response : dict (dict string))
         (credentials : dict string) (key secret token role region output : string),
    lookup "Credentials" response = Some credentials ->
    lookup "AccessKeyId" credentials = Some key ->
    lookup "SecretAccessKey" credentials = Some secret ->
    lookup "SessionToken" credentials = Some token ->
    role <> ""%string ->
    role <> default_section ->
    exists c f copts fopts,
      set_local_credentials (fine credentials_file) (fine config_file)
        response role region output = ((Some c, Some f), Returned role) /\
      section_of c role = Some copts /\
      lookup "aws_access_key_id" copts = Some key /\
      lookup "aws_secret_access_key" copts = Some secret /\
      lookup "aws_session_token" copts = Some token /\
      section_of f ("profile " ++ role) = Some fopts /\
      lookup "output" fopts = Some output /\
      lookup "region" fopts = Some region.
Proof.
intros cfile ffile response credentials key secret token role region output
  Hc Hk Hs Ht H1 H2.
unfold set_local_credentials, entry. rewrite Hc. cbn [bind]. rewrite Hk, Hs, Ht.
cbn [bind].
destruct (update_ini_writes cfile role
            [("aws_access_key_id", key); ("aws_secret_access_key", secret);
             ("aws_session_token", token)] H1 H2) as (c & copts & Ec & Sc & Lc).
destruct (profile_name_named role) as [P1 P2].
destruct (update_ini_writes ffile ("profile " ++ role)
            [("output", output); ("region", region)] P1 P2)
  as (f & fopts & Ef & Sf & Lf).
rewrite Ec, Ef. exists c, f, copts, fopts.
repeat split; auto; (apply Lc || apply Lf); reflexivity.
Qed.

Lemma credentials_are_written_to_both_files_witness :
  exists c f copts fopts,
    set_local_credentials (fine other_file) (fine empty)
      sample_reply "dev" "eu-west-1" "json" = ((Some c, Some f), Returned "dev"%string) /\
    section_of c "dev" = Some copts /\
    lookup "aws_access_key_id" copts = Some "AKIA"%string /\
    lookup "aws_secret_access_key" copts = Some "s3cr3t"%string /\
    lookup "aws_session_token" copts = Some "tok"%string /\
    section_of f ("profile " ++ "dev") = Some fopts /\
    lookup "output" fopts = Some "json"%string /\
    lookup "region" fopts = Some "eu-west-1"%string.
Proof.
apply (credentials_are_written_to_both_files other_file empty sample_reply
         [("AccessKeyId", "AKIA"); ("SecretAccessKey", "s3cr3t"); ("SessionToken", "tok")]
         "AKIA" "s3cr3t" "tok" "dev" "eu-west-1" "json");
  try reflexivity; discriminate.
Defined.

(** X21.  What [set_local_credentials] raises is either [ValueError],
    the role name being the name of the default section and neither file
    written, or an exception that the read or the write of one of the two
    files raised and [update_ini] does not handle; when that file is the
    configuration file, the credentials file has been written. *)
Theorem set_local_credentials_raises :
  forall (w_credentials w_config : world) (response : dict (dict string))
         (role region output : string) (files : written) (e : exn),
    set_local_credentials w_credentials w_config response role region output =
      (files, Raised e) ->
    (role = default_section /\ e = ValueError /\ files = (None, None)) \/
    ((read_error w_credentials = Some e \/ write_error w_credentials = Some e) /\
     files = (None, None)) \/
    ((read_error w_config = Some e \/ write_error w_config = Some e) /\
     exists credentials_file, files = (Some credentials_file, None)).
Proof.
intros wc wf response role region output files e. unfold set_local_credentials, entry.
destruct (lookup "Credentials" response) as [credentials|]; cbn [bind];
  [|discriminate].
destruct (lookup "AccessKeyId" credentials) as [k|]; cbn [bind]; [|discriminate].
destruct (lookup "SecretAccessKey" credentials) as [s|]; cbn [bind]; [|discriminate].
destruct (lookup "SessionToken" credentials) as [t|]; cbn [bind]; [|discriminate].
destruct (update_ini wc role _) as [c|code|e1] eqn:E1.
- destruct (update_ini wf ("profile " ++ role) _) as [f|code|e2] eqn:E2;
    try discriminate.
  intros [= <- <-]. right. right.
  apply update_ini_raises in E2. destruct E2 as [[E2 _]|[[_ E2]|[_ E2]]];
    [discriminate| |]; eauto.
- discriminate.
- intros [= <- <-]. apply update_ini_raises in E1.
  destruct E1 as [[-> ->]|[[_ E1]|[_ E1]]]; auto.
Qed.

Lemma set_local_credentials_raises_witness :
  ("dev"%string = default_section /\ UnicodeDecodeError = ValueError /\
   fst (set_local_credentials (fine other_file) undecodable
          sample_reply "dev" "eu-west-1" "json") = (None, None)) \/
  ((read_error (fine other_file) = Some UnicodeDecodeError \/
    write_error (fine other_file) = Some UnicodeDecodeError) /\
   fst (set_local_credentials (fine other_file) undecodable
          sample_reply "dev" "eu-west-1" "json") = (None, None)) \/
  ((read_error undecodable = Some UnicodeDecodeError \/
    write_error undecodable = Some UnicodeDecodeError) /\
   exists credentials_file,
     fst (set_local_credentials (fine other_file) undecodable
          sample_reply "dev" "eu-west-1" "json") = (Some credentials_file, None)).
Proof.
apply (set_local_credentials_raises (fine other_file) undecodable
         sample_reply "dev" "eu-west-1" "json").
reflexivity.
Defined.

(** The configuration file of the sample is the one that raises; the
    credentials have been written by then. *)
Example undecodable_configuration_file :
  set_local_credentials (fine empty) undecodable sample_reply "dev" "eu-west-1" "json" =
  ((Some {| defaults := [];
            sections := [("dev", [("aws_access_key_id", "AKIA");
                                  ("aws_secret_access_key", "s3cr3t");
                                  ("aws_session_token", "tok")])] |}, None),
   Raised UnicodeDecodeError).
Proof. reflexivity. Qed.

(** X22.  The two files are written one after the other: when the
    credentials file is in order and the update of the configuration file
    fails with an error that [update_ini] handles (the directory cannot be
    made, or the read or the write raises a [configparser.Error] or an
    [OSError]), the call exits with code 1 after the credentials file has
    been written. *)
Theorem credentials_file_is_written_first :
  forall (credentials_file : parser) (w_config : world) (response : dict (dict string))
         (credentials : dict string) (key secret token role region output : string),
    lookup "Credentials" response = Some credentials ->
    lookup "AccessKeyId" credentials = Some key ->
    lookup "SecretAccessKey" credentials = Some secret ->
    lookup "SessionToken" credentials = Some token ->
    role <> ""%string ->
    role <> default_section ->
    directory_ok w_config = false \/
      (read_result w_config = None /\ read_error w_config = None) \/
      (read_result w_config <> None /\ write_ok w_config = false /\
       write_error w_config = None) ->
    exists c copts,
      set_local_credentials (fine credentials_file) w_config
        response role region output = ((Some c, None), Exited 1) /\
      section_of c role = Some copts /\
      lookup "aws_secret_access_key" copts = Some secret.
Proof.
intros cfile wf response credentials key secret token role region output
  Hc Hk Hs Ht H1 H2 Hw.
unfold set_local_credentials, entry. rewrite Hc. cbn [bind]. rewrite Hk, Hs, Ht.
cbn [bind].
destruct (update_ini_writes cfile role
            [("aws_access_key_id", key); ("aws_secret_access_key", secret);
             ("aws_session_token", token)] H1 H2) as (c & copts & Ec & Sc & Lc).
destruct (profile_name_named role) as [_ P2].
rewrite Ec, (update_ini_fails wf ("profile " ++ role) _ P2 Hw).
exists c, copts. repeat split; auto; apply Lc; reflexivity.
Qed.

Lemma credentials_file_is_written_first_witness :
  exists c copts,
    set_local_credentials (fine other_file) read_only
      sample_reply "dev" "eu-west-1" "json" = ((Some c, None), Exited 1) /\
    section_of c "dev" = Some copts /\
    lookup "aws_secret_access_key" copts = Some "s3cr3t"%string.
Proof.
apply (credentials_file_is_written_first other_file read_only sample_reply
         [("AccessKeyId", "AKIA"); ("SecretAccessKey", "s3cr3t"); ("SessionToken", "tok")]
         "AKIA" "s3cr3t" "tok" "dev" "eu-west-1" "json");
  try reflexivity; try discriminate.
right. right. repeat split; try reflexivity. discriminate.
Defined.

(** X23.  [update_configuration] writes the three answers of
    [get_interactive_config] to the section of the profile: a user name
    that is not empty and, for each of the two URLs, the empty string or
    a text that passes the validator of its kind. *)
Theorem update_configuration_writes_the_answers :
  forall (strip : string -> string) (ini : parser) (profile : string)
         (answers rest : list string) (details : dict pyval),
    profile <> ""%string ->
    profile <> default_section ->
    get_interactive_config strip VNone VNone (VStr "") answers = Returned (details, rest) ->
    exists ini' opts o a u,
      update_configuration strip (fine ini) profile answers = Returned (ini', rest) /\
      section_of ini' profile = Some opts /\
      lookup "okta_org" opts = Some o /\ empty_or validate_okta_org_url o /\
      lookup "okta_app_url" opts = Some a /\ empty_or validate_okta_app_url a /\
      lookup "okta_username" opts = Some u /\ u <> ""%string.
Proof.
intros strip ini profile answers rest details H1 H2 Hg.
destruct (get_interactive_config_details _ _ _ _ _ _ _ Hg)
  as (o & a & u & Hd & Hu & Hurls & _ & Hname & _).
destruct (Hurls eq_refl) as (so & sa & -> & -> & Hso & Hsa).
destruct (Hname eq_refl) as (su & ->).
cbn in Hd.
unfold update_configuration. rewrite Hg. cbn [bind fst snd]. subst details.
cbn [map fst snd py_str].
destruct (update_ini_writes ini profile
            [("okta_org", so); ("okta_app_url", sa); ("okta_username", su)] H1 H2)
  as (ini' & opts & E & S & L).
rewrite E. cbn [bind]. exists ini', opts, so, sa, su.
repeat split; auto; try (apply L; reflexivity).
intros ->. discriminate.
Qed.

Lemma update_configuration_writes_the_answers_witness :
  exists ini' opts o a u,
    update_configuration strip_blanks (fine other_file) "work"
      ["acme.okta.com"; ""; "jane.doe"] = Returned (ini', []) /\
    section_of ini' "work" = Some opts /\
    lookup "okta_org" opts = Some o /\ empty_or validate_okta_org_url o /\
    lookup "okta_app_url" opts = Some a /\ empty_or validate_okta_app_url a /\
    lookup "okta_username" opts = Some u /\ u <> ""%string.
Proof.
apply (update_configuration_writes_the_answers strip_blanks other_file "work"
         ["acme.okta.com"; ""; "jane.doe"] []
         [("okta_org", VStr "https://acme.okta.com"); ("okta_app_url", VStr "");
          ("okta_username", VStr "jane.doe")]);
  try discriminate.
reflexivity.
Defined.

End WritingFacts.

(** ** The description of an MFA factor *)

Module FactorFacts.
Import PyDict Mfa MfaFacts.

Lemma one_of_In t names : one_of t names = true -> exists s, t = JStr s /\ In s names.
Proof.
unfold one_of. destruct t as [| | |s| |]; try discriminate. intros H.
apply existsb_exists in H. destruct H as (x & Hin & Hx).
apply String.eqb_eq in Hx. subst x. eauto.
Qed.

Lemma get_object_returns fields key : exists v, get (JObj fields) key = Returned v.
Proof. unfold get. destruct (lookup key fields); eauto. Qed.

(** A description read from the profile fails only without a profile
    object. *)
Lemma profile_field_raises mfa_option field e :
  profile_field mfa_option field = Raised e ->
  e = AttributeError /\ forall fields, lookup "profile" mfa_option <> Some (JObj fields).
Proof.
unfold profile_field, get at 1.
destruct (lookup "profile" mfa_option) as [p|]; cbn [bind].
- destruct p as [| | | | |fields]; cbn [get];
    try (intros [= <-]; split; [reflexivity | intros fields' [=]]).
  destruct (lookup field fields); discriminate.
- cbn [get]. intros [= <-]. split; [reflexivity | discriminate].
Qed.

Lemma profile_field_no_exit mfa_option field code :
  profile_field mfa_option field <> Exited code.
Proof.
unfold profile_field, get at 1.
destruct (lookup "profile" mfa_option) as [p|]; cbn [bind].
- destruct p as [| | | | |fields]; cbn [get]; try discriminate.
  destruct (lookup field fields); discriminate.
- discriminate.
Qed.

Lemma factor_type_info_raises t mfa_option e :
  factor_type_info t mfa_option = Raised e ->
  e = AttributeError /\
  (exists s field, t = JStr s /\ In (s, field) profile_types) /\
  forall fields, lookup "profile" mfa_option <> Some (JObj fields).
Proof.
unfold factor_type_info.
assert (P : forall names field,
  one_of t names = true ->
  (forall s, In s names -> In (s, field) profile_types) ->
  profile_field mfa_option field = Raised e ->
  e = AttributeError /\
  (exists s field, t = JStr s /\ In (s, field) profile_types) /\
  forall fields, lookup "profile" mfa_option <> Some (JObj fields)).
{ intros names field Ht Hn Hr. destruct (one_of_In _ _ Ht) as (s & -> & Hs).
  destruct (profile_field_raises _ _ _ Hr) as [-> Hp]. eauto 8. }
destruct (one_of t ["token"; "token:software:totp"; "token:hardware"]%string) eqn:E1.
{ apply (P _ _ E1). intros s Hs. simpl in Hs. simpl.
  intuition (subst; auto 12). }
destruct (one_of t ["push"%string]) eqn:E2.
{ apply (P _ _ E2). intros s Hs. simpl in Hs. simpl. intuition (subst; auto 12). }
destruct (one_of t ["sms"%string] || one_of t ["call"%string]) eqn:E3.
{ apply orb_true_iff in E3. destruct E3 as [E3|E3]; apply (P _ _ E3);
    intros s Hs; simpl in Hs; simpl; intuition (subst; auto 12). }
destruct (one_of t ["webauthn"%string]) eqn:E4.
{ apply (P _ _ E4). intros s Hs. simpl in Hs. simpl. intuition (subst; auto 12). }
destruct (one_of t ["web"; "u2f"; "token:hotp"]%string) eqn:E5.
{ destruct (get_object_returns mfa_option "vendorName") as [v ->]. discriminate. }
destruct (one_of t ["question"%string]) eqn:E6.
{ apply (P _ _ E6). intros s Hs. simpl in Hs. simpl. intuition (subst; auto 12). }
destruct (one_of t ["email"%string]) eqn:E7.
{ apply (P _ _ E7). intros s Hs. simpl in Hs. simpl. intuition (subst; auto 12). }
discriminate.
Qed.

Lemma factor_type_info_no_exit t mfa_option code :
  factor_type_info t mfa_option <> Exited code.
Proof.
unfold factor_type_info.
repeat match goal with
       | |- context [if ?b then _ else _] => destruct b
       end;
  try apply profile_field_no_exit; try discriminate.
destruct (get_object_returns mfa_option "vendorName") as [v ->]. discriminate.
Qed.

(** X24.  What [mfa_option_info] returns is never a false value; it never
    ends the program; and it raises in one case only, [AttributeError]
    for a factor whose type is described from the profile and whose
    profile is no object. *)
Theorem mfa_option_info_outcomes :
  forall mfa_option : dict json,
    (forall v, mfa_option_info mfa_option = Returned v -> falsy v = false) /\
    (forall code, mfa_option_info mfa_option <> Exited code) /\
    (forall e, mfa_option_info mfa_option = Raised e ->
       e = AttributeError /\
       (exists s field,
           lookup "factorType" mfa_option = Some (JStr s) /\
           In (s, field) profile_types) /\
       forall fields, lookup "profile" mfa_option <> Some (JObj fields)).
Proof.
intros mfa_option. unfold mfa_option_info.
destruct (lookup "factorType" mfa_option) as [t|] eqn:Et.
- destruct (factor_type_info t mfa_option) as [info|code|e] eqn:Ei; cbn [bind].
  + split; [|split].
    * intros v. destruct (falsy info) eqn:Ef; intros [= <-]; [reflexivity | exact Ef].
    * intros code. destruct (falsy info); discriminate.
    * intros e. destruct (falsy info); discriminate.
  + now apply factor_type_info_no_exit in Ei.
  + split; [discriminate|]. split; [discriminate|].
    intros e' [= <-].
    destruct (factor_type_info_raises _ _ _ Ei) as (He & (s & field & -> & Hin) & Hp).
    eauto 8.
- cbn [bind falsy]. split; [|split]; try discriminate.
  intros v [= <-]. reflexivity.
Qed.

End FactorFacts.

(** ** The bindings of [extract_arns] *)

Module ArnFacts.
Import PyStr PyStrFacts PyDict PyDictFacts ItemFacts Saml SamlFacts SelectionFacts.

Lemma split_scan_head sep s : forall acc,
  exists f, nth 0 (split_scan sep acc s) ""%string =
            (string_of_list_ascii (rev acc) ++ f)%string.
Proof.
induction s as [|c s IH]; intros acc; cbn [split_scan].
- exists ""%string. cbn [nth]. now rewrite append_nil_r.
- destruct (Ascii.eqb c sep).
  + exists ""%string. cbn [nth]. now rewrite append_nil_r.
  + destruct (IH (c :: acc)) as [f Hf]. exists (String c f). rewrite Hf.
    cbn [rev]. now rewrite string_of_list_ascii_app, append_assoc.
Qed.

Lemma split_scan_no_sep sep s : forall acc f,
  has_char sep (string_of_list_ascii (rev acc)) = false ->
  In f (split_scan sep acc s) -> has_char sep f = false.
Proof.
induction s as [|c s IH]; intros acc f Hacc; cbn [split_scan].
- intros [<-|[]]. exact Hacc.
- destruct (Ascii.eqb c sep) eqn:E.
  + intros [<-|H]; [exact Hacc | now apply (IH [] f)].
  + apply IH. cbn [rev]. rewrite string_of_list_ascii_app, has_char_app, Hacc.
    cbn [string_of_list_ascii has_char]. now rewrite E.
Qed.

Lemma match_at_prefix s group len :
  match_at s = Some (group, len) -> exists tail, group = (arn_prefix ++ tail)%string.
Proof.
unfold match_at. destruct (startswith s (">" ++ arn_prefix)); [|discriminate].
destruct (lazy_until ("," ++ arn_prefix) [] (drop 14 s)) as [[x s2]|]; [|discriminate].
destruct (lazy_until "<" [] s2) as [[y s3]|]; [|discriminate].
intros [= <- _]. eexists. reflexivity.
Qed.

Lemma findall_scan_prefix s : forall skip i,
  In i (findall_scan skip s) -> exists tail, i = (arn_prefix ++ tail)%string.
Proof.
induction s as [|c s IH]; intros skip i H; [destruct H|].
cbn [findall_scan] in H. destruct skip as [|k]; [|now apply (IH k)].
destruct (match_at (String c s)) as [[group len]|] eqn:E.
- destruct H as [<-|H]; [now apply (match_at_prefix _ _ _ E) | now apply (IH (len - 1))].
- now apply (IH 0).
Qed.

Lemma first_field_prefix tail :
  startswith (nth 0 (split "," (arn_prefix ++ tail)) ""%string) arn_prefix = true.
Proof.
unfold split, arn_prefix. cbn [append split_scan Ascii.eqb Bool.eqb].
destruct (split_scan_head "," tail
            [":"; ":"; "m"; "a"; "i"; ":"; "s"; "w"; "a"; ":"; "n"; "r"; "a"]%char)
  as [f ->].
apply (startswith_app "arn:aws:iam::" f).
Qed.

(** X25.  In the dictionary [extract_arns] returns, every provider
    starts with [arn:aws:iam::], and neither a role nor a provider holds
    a comma. *)
Theorem extract_arns_entries :
  forall (saml : string) (d : dict string) (role provider : string),
    extract_arns saml = Returned d ->
    lookup role d = Some provider ->
    startswith provider arn_prefix = true /\
    has_char "," provider = false /\
    has_char "," role = false.
Proof.
intros saml d role provider H Hl. unfold extract_arns in H.
destruct (findall saml) as [|i0 arns] eqn:Ef; [discriminate|].
assert (Hc : forall i, In i (i0 :: arns) -> has_char "," i = true).
{ intros i Hi. rewrite <- Ef in Hi. now apply (findall_scan_comma saml 0). }
rewrite (bindings_fields _ Hc) in H. cbn [bind] in H. injection H as <-.
apply lookup_of_pairs_In in Hl.
change (fields_of i0 :: map fields_of arns) with (map fields_of (i0 :: arns)) in Hl.
apply in_map_iff in Hl.
destruct Hl as (i & Hi & Hin). unfold fields_of in Hi. injection Hi as <- <-.
pose proof (Hc i Hin) as Hcomma.
pose proof (split_scan_length "," i [] Hcomma) as Hlen. fold (split "," i) in Hlen.
rewrite <- Ef in Hin. destruct (findall_scan_prefix saml 0 i Hin) as [tail ->].
split; [apply first_field_prefix|].
split; apply (split_scan_no_sep "," (arn_prefix ++ tail) []); try reflexivity;
  apply nth_In; fold (split "," (arn_prefix ++ tail)); lia.
Qed.

Lemma extract_arns_entries_witness :
  startswith "arn:aws:iam::1:saml-provider/adfs" arn_prefix = true /\
  has_char "," "arn:aws:iam::1:saml-provider/adfs" = false /\
  has_char "," "arn:aws:iam::1:role/dev" = false.
Proof.
apply (extract_arns_entries doubled_role
         [("arn:aws:iam::1:role/dev", "arn:aws:iam::1:saml-provider/adfs")]);
  reflexivity.
Defined.

End ArnFacts.
